(** * SasyaNova: provider selection, bundle placement and live updates

    A shallow embedding of the order core of [app.py]:
    - [select_best_annachi] (with [haversine], [_distance_km], [score]),
    - the order-creating routes [api_create_order], [orders_create] and
      [orders_create_auto],
    - the bundle path of [annachi_orders_update],
    - the in-process hub [broadcast].

    Conventions.  SQL tables are lists of rows in rowid order; a primary-key
    lookup is the first row with that id.  Python [int] is [Z], [float] is
    [Q] (finite values only: infinities and NaN are outside the model),
    [str] is [string] (ASCII), a nullable column or an optional JSON field is
    an [option].  The trigonometry of [haversine] is not computed: the
    selector is parametric in it. *)

From Stdlib Require Import ZArith QArith Qabs Qround String Ascii List Lia Lqa.
From stdpp Require Import gmap strings list pretty.

Open Scope Z_scope.

(** ** Python string helpers *)

Module Py.

(** [str.isspace] on the ASCII range: TAB..CR, FS..US and the blank. *)
Definition is_space (c : ascii) : bool :=
  let n := N_of_ascii c in
  ((9 <=? n)%N && (n <=? 13)%N) || ((28 <=? n)%N && (n <=? 32)%N).

Fixpoint lstrip (s : string) : string :=
  match s with
  | EmptyString => EmptyString
  | String c t => if is_space c then lstrip t else s
  end.

Fixpoint rstrip (s : string) : string :=
  match s with
  | EmptyString => EmptyString
  | String c t =>
      match rstrip t with
      | EmptyString => if is_space c then EmptyString else String c EmptyString
      | t' => String c t'
      end
  end.

(** [s.strip()] *)
Definition strip (s : string) : string := rstrip (lstrip s).

Definition lower_char (c : ascii) : ascii :=
  let n := N_of_ascii c in
  if ((65 <=? n)%N && (n <=? 90)%N)%bool then ascii_of_N (n + 32) else c.

(** [s.lower()] *)
Fixpoint lower (s : string) : string :=
  match s with
  | EmptyString => EmptyString
  | String c t => String (lower_char c) (lower t)
  end.

(** Truth value of a string: [bool(s)]. *)
Definition truthy (s : string) : bool :=
  match s with EmptyString => false | _ => true end.

(** [x or d] on an optional string: [None] and the empty string give [d]. *)
Definition str_or (x : option string) (d : string) : string :=
  match x with
  | Some s => if truthy s then s else d
  | None => d
  end.

(** [x or d] on an optional integer: [None] and [0] give [d]. *)
Definition int_or (x : option Z) (d : Z) : Z :=
  match x with
  | Some 0 => d
  | Some n => n
  | None => d
  end.

(** [str(n)] for an integer. *)
Definition str_of_int (n : Z) : string := pretty n.

(** [sorted(l, key=key)]: a stable sort, comparing keys with [<] only.
    Insertion from the right keeps equal keys in their input order. *)
Section Sorted.
Context {A K : Type}.
Variable ltb : K -> K -> bool.
Variable key : A -> K.

Fixpoint insert_sorted (x : A) (l : list A) : list A :=
  match l with
  | [] => [x]
  | y :: l' =>
      if ltb (key y) (key x) then y :: insert_sorted x l' else x :: y :: l'
  end.

Fixpoint sorted (l : list A) : list A :=
  match l with
  | [] => []
  | x :: l' => insert_sorted x (sorted l')
  end.
End Sorted.

(** Rounding [round(x, 3)]: nearest multiple of 1/1000, ties to even. *)
Definition round_half_even (x : Q) : Z :=
  let f := Qfloor x in
  match Qcompare (x - inject_Z f)%Q (1 # 2)%Q with
  | Lt => f
  | Gt => f + 1
  | Eq => if Z.even f then f else f + 1
  end.

Definition round3 (x : Q) : Q := Qmake (round_half_even (x * 1000)%Q) 1000.

End Py.

Arguments Py.int_or : simpl never.
Arguments Py.str_or : simpl never.
Arguments Py.strip : simpl never.
Arguments Py.lower : simpl never.
Arguments Py.str_of_int : simpl never.

(** ** Data model (the SQLAlchemy models of [app.py]) *)

Record User := mkUser {
  user_id : Z;
  role : string;                      (* consumer / annachi / farmer / ngo *)
  shop_lat : option Q;
  shop_lng : option Q;
  user_pincode : option string;
  service_radius_km : option Z        (* nullable integer column *)
}.

Record Product := mkProduct {
  product_id : Z;
  name : string;
  category : string;
  stock : Z;
  pincode : string;
  total_purchased : option Z;
  owner_id : Z
}.

Record Order := mkOrder {
  order_id : Z;
  consumer_id : Z;
  order_product_id : Z;
  quantity : Z;
  status : string;
  assigned_annachi_id : option Z;
  bundle_id : option string            (* nullable for legacy rows *)
}.

(** The three tables. *)
Record Db := mkDb {
  users : list User;
  products : list Product;
  orders : list Order
}.

(** [FIXED_CATS = {"cereals", "fruits", "vegetables"}] *)
Definition FIXED_CATS : list string := ["cereals"; "fruits"; "vegetables"]%string.

Definition in_fixed_cats (c : string) : bool :=
  bool_decide (c ∈ FIXED_CATS).

(** ** Provider selection *)

(** [a < b] on floats. *)
Definition Qltb (a b : Q) : bool :=
  match Qcompare a b with Lt => true | _ => false end.

(** Python's [<] on the tuples [(flag, distance, id)] used as sort keys:
    the first component that differs decides. *)
Definition key3_ltb (k1 k2 : Z * Q * Z) : bool :=
  let '(f1, d1, i1) := k1 in
  let '(f2, d2, i2) := k2 in
  match Z.compare f1 f2 with
  | Lt => true
  | Gt => false
  | Eq =>
      match Qcompare d1 d2 with
      | Lt => true
      | Gt => false
      | Eq => i1 <? i2
      end
  end.

(** [<] on the keys [(t[0], t[1])] of the fallback list. *)
Definition key2_ltb (k1 k2 : Q * Z) : bool :=
  let '(d1, i1) := k1 in
  let '(d2, i2) := k2 in
  match Qcompare d1 d2 with
  | Lt => true
  | Gt => false
  | Eq => i1 <? i2
  end.

(** The sentinel [10**9] and the threshold [10**8]. *)
Definition FAR : Q := inject_Z (10 ^ 9).
Definition NEAR_LIMIT : Q := inject_Z (10 ^ 8).

Definition is_annachi (u : User) : bool := bool_decide (role u = "annachi"%string).

Section Selector.

(** [haversine lat1 lon1 lat2 lon2]: the great-circle distance in km, or
    [None] when the floating-point evaluation raises (a math domain error),
    which [_distance_km] catches. *)
Variable haversine : Q -> Q -> Q -> Q -> option Q.

Definition _distance_km (consumer_lat consumer_lng : option Q) (a : User) : Q :=
  match consumer_lat, consumer_lng with
  | Some clat, Some clng =>
      match shop_lat a, shop_lng a with
      | Some slat, Some slng =>
          match haversine clat clng slat slng with
          | Some d => d
          | None => FAR
          end
      | _, _ => FAR
      end
  | _, _ => FAR
  end.

(** [float(ann.service_radius_km or 0)] *)
Definition radius_of (ann : User) : Q :=
  inject_Z (Py.int_or (service_radius_km ann) 0).

(** The condition under which [score] flags a provider, and under which the
    fallback of [select_best_annachi] fires: GPS is given, the radius is an
    [int], the distance is a real one and it is larger than the radius. *)
Definition out_of_radius (consumer_lat consumer_lng : option Q) (ann : User) : bool :=
  match consumer_lat, consumer_lng, service_radius_km ann with
  | Some _, Some _, Some _ =>
      let dist := _distance_km consumer_lat consumer_lng ann in
      Qltb dist NEAR_LIMIT && Qltb (radius_of ann) dist
  | _, _, _ => false
  end.

(** The nested [score(ann)]. *)
Definition score (consumer_lat consumer_lng : option Q) (ann : User) : Z * Q * Z :=
  let dist := _distance_km consumer_lat consumer_lng ann in
  match consumer_lat, consumer_lng, service_radius_km ann with
  | Some _, Some _, Some _ =>
      let in_radius :=
        if Qltb dist NEAR_LIMIT then Qle_bool dist (radius_of ann) else true in
      if negb in_radius then (1, FAR, user_id ann) else (0, dist, user_id ann)
  | _, _, _ => (0, dist, user_id ann)
  end.

(** The stored pincode of [a] equals the requested one, after trimming. *)
Definition same_pincode (consumer_pincode : string) (a : User) : bool :=
  bool_decide (Py.strip (Py.str_or (user_pincode a) "") = Py.strip consumer_pincode).

(** The fallback list [inrad] of triples [(d, a.id, a)]. *)
Definition inrad_of (consumer_lat consumer_lng : option Q) (anns_all : list User)
  : list (Q * Z * User) :=
  omap (fun a =>
          let d := _distance_km consumer_lat consumer_lng a in
          match service_radius_km a with
          | Some _ =>
              if Qltb d NEAR_LIMIT && Qle_bool d (radius_of a)
              then Some (d, user_id a, a) else None
          | None => None
          end) anns_all.

Definition select_best_annachi (all_users : list User)
    (consumer_pincode : option string) (consumer_lat consumer_lng : option Q)
  : option User * option Q :=
  let anns_all := List.filter is_annachi all_users in
  match anns_all with
  | [] => (None, None)
  | _ :: _ =>
      (* Phase 1: same pincode *)
      let phase1 :=
        match consumer_pincode with
        | Some pin =>
            if Py.truthy pin then List.filter (same_pincode pin) anns_all else []
        | None => []
        end in
      let choice_pool := match phase1 with [] => anns_all | _ :: _ => phase1 end in
      let ranked := Py.sorted key3_ltb (score consumer_lat consumer_lng) choice_pool in
      let chosen := head ranked in
      (* fallback to any provider in radius, when GPS is given *)
      let chosen :=
        match chosen, consumer_lat, consumer_lng with
        | Some ch, Some _, Some _ =>
            if out_of_radius consumer_lat consumer_lng ch then
              let inrad := inrad_of consumer_lat consumer_lng anns_all in
              match Py.sorted key2_ltb (fun t => (fst (fst t), snd (fst t))) inrad with
              | t :: _ => Some (snd t)
              | [] => Some ch
              end
            else Some ch
        | _, _, _ => chosen
        end in
      match chosen with
      | None => (None, None)
      | Some ch =>
          let dist :=
            match consumer_lat, consumer_lng with
            | Some _, Some _ =>
                let dd := _distance_km consumer_lat consumer_lng ch in
                if Qltb dd NEAR_LIMIT then Some (Py.round3 dd) else None
            | _, _ => None
            end in
          (Some ch, dist)
      end
  end.

(** The route [/api/nearest_annachi], after the parsing of [lat] and [lng]. *)
Inductive NearestResponse :=
  | NearestNotFound                                      (* 404 *)
  | Nearest (ann : User) (distance_km : option Q).

Definition api_nearest_annachi (all_users : list User)
    (pin : option string) (lat lng : option Q) : NearestResponse :=
  match select_best_annachi all_users pin lat lng with
  | (None, _) => NearestNotFound
  | (Some ann, dist) => Nearest ann dist
  end.

End Selector.

(** ** Requests, responses and events *)

(** One entry of ["items"] as sent to [/orders/create_auto]; an absent or
    null field is [None]. *)
Record RawItem := mkRawItem {
  raw_name : option string;
  raw_category : option string;
  raw_quantity : option Z
}.

(** An element of [normalized_items]. *)
Record Item := mkItem {
  it_name : string;
  it_category : string;
  it_qty : Z
}.

(** The ["consumer"] object of the payload. *)
Record ConsumerInfo := mkConsumerInfo {
  ci_lat : option Q;
  ci_lng : option Q;
  ci_pincode : option string
}.

(** One entry of ["items"] as sent to [/orders/create]: [quantity] is [None]
    when the key is absent. *)
Record CartItem := mkCartItem {
  cart_product_id : Z;
  cart_quantity : option Z
}.

(** An element of the [unavailable] list. *)
Record Unavailable := mkUnavailable {
  un_name : string;
  un_category : string;
  un_reason : string
}.

Inductive Response :=
  | OnlyConsumers                              (* 403 *)
  | CartEmpty                                  (* 400 *)
  | InvalidLineItem (it : RawItem)             (* 400 *)
  | NoAnnachi                                  (* 404 *)
  | Conflict (ann_id : Z) (annachi_pincode : option string)
             (distance_km : option Q) (unavailable : list Unavailable) (* 409 *)
  | CreateFailed                               (* 500 *)
  | Created (created : list Z) (bundle : string) (ann_id : Z)
            (distance_km : option Q)
  | ProductNotFound                            (* 404 *)
  | CategoryNotAllowed (product_name : option string) (* 400 *)
  | QuantityTooSmall                           (* 400 *)
  | InsufficientStock (product_name : option string) (* 400 *)
  | CreatedLegacy (created : list Z) (bundle_ids : list string)
  | CreatedSingle (oid : Z) (bundle : option string).

(** The dictionaries handed to [broadcast]; prices and timestamps are left
    out. *)
Inductive Event :=
  | NewOrder (owner : option Z) (assigned : option Z) (consumer : Z)
             (oid : Z) (st : string) (qty : Z) (bundle : option string)
  | StatusUpdate (owner : option Z) (consumer : Z) (assigned : option Z)
                 (oid : Z) (st : string) (bundle : option string).

(** ** Table access *)

(** [Product.query.get(pid)] *)
Definition get_product (pid : Z) (ps : list Product) : option Product :=
  List.find (fun p => bool_decide (product_id p = pid)) ps.

(** [Product.query.filter_by(owner_id=ann.id, name=..., category=...,
    pincode=str(ann.pincode or "")).first()] *)
Definition product_of_annachi (ann : User) (it : Item) (p : Product) : bool :=
  bool_decide (owner_id p = user_id ann) &&
  bool_decide (name p = it_name it) &&
  bool_decide (category p = it_category it) &&
  bool_decide (pincode p = Py.str_or (user_pincode ann) "").

Definition find_product (ann : User) (it : Item) (ps : list Product) : option Product :=
  List.find (product_of_annachi ann it) ps.

(** The id the store gives to the next inserted order row. *)
Definition next_order_id (os : list Order) : Z :=
  1 + fold_right Z.max 0 (map order_id os).

(** [prod.stock -= qty; prod.total_purchased = (prod.total_purchased or 0) + qty]
    on the session object of row [pid]. *)
Definition purchase_row (qty : Z) (p : Product) : Product :=
  mkProduct (product_id p) (name p) (category p) (stock p - qty) (pincode p)
            (Some (Py.int_or (total_purchased p) 0 + qty)) (owner_id p).

Definition purchase (pid qty : Z) (ps : list Product) : list Product :=
  map (fun p => if bool_decide (product_id p = pid) then purchase_row qty p else p) ps.

Definition new_order_event (ps : list Product) (o : Order) : Event :=
  NewOrder (owner_id <$> get_product (order_product_id o) ps)
           (assigned_annachi_id o) (consumer_id o) (order_id o) (status o)
           (quantity o) (bundle_id o).

(** ** Bundle identifiers *)

Definition auto_bundle_id (now_ms uid ann_id : Z) : string :=
  (Py.str_of_int now_ms +:+ "-" +:+ Py.str_of_int uid +:+ "-A" +:+ Py.str_of_int ann_id)%string.

Definition legacy_bundle_id (now_ms uid : Z) : string :=
  (Py.str_of_int now_ms +:+ "-" +:+ Py.str_of_int uid +:+ "-legacy")%string.

Definition single_bundle_id (now_ms uid : Z) : string :=
  (Py.str_of_int now_ms +:+ "-" +:+ Py.str_of_int uid +:+ "-single")%string.

(** ** The auto-assign route [/orders/create_auto] *)

(** The validation loop: the first invalid item ends the request. *)
Fixpoint normalize_items (items : list RawItem) (normalized_items : list Item)
  : RawItem + list Item :=
  match items with
  | [] => inr normalized_items
  | it :: rest =>
      let name := Py.strip (Py.str_or (raw_name it) "") in
      let category := Py.lower (Py.strip (Py.str_or (raw_category it) "")) in
      let qty := Py.int_or (raw_quantity it) 1 in
      if negb (Py.truthy name) || negb (in_fixed_cats category) || (qty <? 1)
      then inl it
      else normalize_items rest (normalized_items ++ [mkItem name category qty])
  end.

Definition NOT_FOUND_REASON : string := "not_found_for_selected_annachi".

Definition insufficient_reason (left : Z) : string :=
  ("insufficient_stock (" +:+ Py.str_of_int left +:+ " left)")%string.

(** The availability loop over [normalized_items]: it never stops early and
    fills [unavailable] and [found_rows]. *)
Fixpoint check_items (ann : User) (ps : list Product) (items : list Item)
    (unavailable : list Unavailable) (found_rows : list (Product * Z))
  : list Unavailable * list (Product * Z) :=
  match items with
  | [] => (unavailable, found_rows)
  | it :: rest =>
      match find_product ann it ps with
      | None =>
          check_items ann ps rest
            (unavailable ++ [mkUnavailable (it_name it) (it_category it) NOT_FOUND_REASON])
            found_rows
      | Some prod =>
          if stock prod <? it_qty it then
            check_items ann ps rest
              (unavailable ++ [mkUnavailable (it_name it) (it_category it)
                                 (insufficient_reason (stock prod))])
              found_rows
          else
            check_items ann ps rest unavailable (found_rows ++ [(prod, it_qty it)])
      end
  end.

(** The creation loop over [found_rows].  [found_rows] holds references to
    session objects, so the update goes to the live row with that id; the ids
    of the new order rows are those the store hands out at commit. *)
Fixpoint create_orders (uid ann_id : Z) (bundle : string)
    (found_rows : list (Product * Z)) (next_id : Z) (ps : list Product)
    (created : list Order) : list Product * list Order :=
  match found_rows with
  | [] => (ps, created)
  | (prod, qty) :: rest =>
      let order :=
        mkOrder next_id uid (product_id prod) qty "Pending" (Some ann_id) (Some bundle) in
      create_orders uid ann_id bundle rest (next_id + 1)
        (purchase (product_id prod) qty ps) (created ++ [order])
  end.

Section Orchestrator.

Variable haversine : Q -> Q -> Q -> Q -> option Q.

(** [commit_ok] tells whether [db.session.commit()] goes through; when it
    raises, the handler rolls back and answers 500. *)
Definition orders_create_auto (current_user : User) (now_ms : Z) (commit_ok : bool)
    (items : list RawItem) (consumer_info : ConsumerInfo) (db : Db)
  : Response * Db * list Event :=
  if negb (bool_decide (role current_user = "consumer"%string)) then
    (OnlyConsumers, db, [])
  else
    match items with
    | [] => (CartEmpty, db, [])
    | _ :: _ =>
        match normalize_items items [] with
        | inl it => (InvalidLineItem it, db, [])
        | inr normalized_items =>
            let c_lat := ci_lat consumer_info in
            let c_lng := ci_lng consumer_info in
            let c_pin := ci_pincode consumer_info in
            match select_best_annachi haversine (users db) c_pin c_lat c_lng with
            | (None, _) => (NoAnnachi, db, [])
            | (Some ann, dist) =>
                let '(unavailable, found_rows) :=
                  check_items ann (products db) normalized_items [] [] in
                match unavailable with
                | _ :: _ =>
                    (Conflict (user_id ann) (user_pincode ann) dist unavailable, db, [])
                | [] =>
                    let bundle := auto_bundle_id now_ms (user_id current_user) (user_id ann) in
                    let '(ps', created) :=
                      create_orders (user_id current_user) (user_id ann) bundle
                        found_rows (next_order_id (orders db)) (products db) [] in
                    if commit_ok then
                      (Created (map order_id created) bundle (user_id ann) dist,
                       mkDb (users db) ps' (orders db ++ created),
                       map (new_order_event ps') created)
                    else (CreateFailed, db, [])
                end
            end
        end
    end.

End Orchestrator.

(** ** The legacy routes [/orders/create] and [/api/orders] *)

Definition new_legacy_order (next_id uid : Z) (product : Product) (qty : Z)
    (bundle : string) : Order :=
  mkOrder next_id uid (product_id product) qty "Pending"
          (Some (owner_id product)) (Some bundle).

(** The loop of [orders_create].  Rows are read through the session, so a
    later line sees the stock left by the earlier ones.  A [return] inside
    the loop leaves the request without a commit. *)
Fixpoint legacy_loop (uid : Z) (bundle : string) (items : list CartItem)
    (next_id : Z) (ps : list Product) (created : list Order)
  : Response + (list Product * list Order) :=
  match items with
  | [] => inr (ps, created)
  | it :: rest =>
      let pid := cart_product_id it in
      let qty := default 1 (cart_quantity it) in
      match get_product pid ps with
      | None => inl ProductNotFound
      | Some product =>
          if negb (in_fixed_cats (Py.lower (category product))) then
            inl (CategoryNotAllowed (Some (name product)))
          else if qty <? 1 then inl QuantityTooSmall
          else if stock product <? qty then inl (InsufficientStock (Some (name product)))
          else
            legacy_loop uid bundle rest (next_id + 1)
              (purchase (product_id product) qty ps)
              (created ++ [new_legacy_order next_id uid product qty bundle])
      end
  end.

Definition orders_create (current_user : User) (now_ms : Z)
    (items : list CartItem) (db : Db) : Response * Db * list Event :=
  if negb (bool_decide (role current_user = "consumer"%string)) then
    (OnlyConsumers, db, [])
  else
    match items with
    | [] => (CartEmpty, db, [])
    | _ :: _ =>
        let bundle := legacy_bundle_id now_ms (user_id current_user) in
        match legacy_loop (user_id current_user) bundle items
                (next_order_id (orders db)) (products db) [] with
        | inl err => (err, db, [])
        | inr (ps', created) =>
            (CreatedLegacy (map order_id created) [bundle],
             mkDb (users db) ps' (orders db ++ created),
             map (new_order_event ps') created)
        end
    end.

Definition api_create_order (current_user : User) (now_ms : Z)
    (pid : option Z) (quantity : option Z) (db : Db) : Response * Db * list Event :=
  if negb (bool_decide (role current_user = "consumer"%string)) then
    (OnlyConsumers, db, [])
  else
    let qty := Py.int_or quantity 1 in
    match pid ≫= (fun i => get_product i (products db)) with
    | None => (ProductNotFound, db, [])
    | Some product =>
        if negb (in_fixed_cats (Py.lower (category product))) then
          (CategoryNotAllowed None, db, [])
        else if qty <? 1 then (QuantityTooSmall, db, [])
        else if stock product <? qty then (InsufficientStock None, db, [])
        else
          let bundle := single_bundle_id now_ms (user_id current_user) in
          let order :=
            new_legacy_order (next_order_id (orders db)) (user_id current_user)
                             product qty bundle in
          let ps' := purchase (product_id product) qty (products db) in
          (CreatedSingle (order_id order) (bundle_id order),
           mkDb (users db) ps' (orders db ++ [order]),
           [new_order_event ps' order])
    end.

(** ** Status updates: [annachi_orders_update] *)

Inductive UpdateResponse :=
  | AccessDenied
  | BundleNotFound
  | BundleUpdated (bundle st : string)
  | BundleUnchanged (bundle : string)
  | InvalidOrderId
  | OrderNotFound                              (* 404 *)
  | Unauthorized
  | OrderUpdated
  | OrderUnchanged.

(** [oid.replace("BUNDLE_", "", 1)] for an [oid] that starts with it. *)
Fixpoint drop_chars (n : nat) (s : string) : string :=
  match n, s with
  | S n', String _ t => drop_chars n' t
  | _, _ => s
  end.

(** The row filter of the bundle query: an inner join with [Product], the
    bundle id, and ownership or assignment. *)
Definition bundle_row (uid : Z) (bundle : string) (ps : list Product) (o : Order) : bool :=
  match get_product (order_product_id o) ps with
  | None => false
  | Some p =>
      bool_decide (bundle_id o = Some bundle) &&
      (bool_decide (owner_id p = uid) || bool_decide (assigned_annachi_id o = Some uid))
  end.

(** [r.status = new_status] *)
Definition set_status (st : string) (o : Order) : Order :=
  mkOrder (order_id o) (consumer_id o) (order_product_id o) (quantity o) st
          (assigned_annachi_id o) (bundle_id o).

Definition status_event (ps : list Product) (r : Order) : Event :=
  StatusUpdate (owner_id <$> get_product (order_product_id r) ps)
               (consumer_id r) (assigned_annachi_id r) (order_id r) (status r)
               (bundle_id r).

(** [Order.query.get(oid_int)] *)
Definition get_order (oid : Z) (os : list Order) : option Order :=
  List.find (fun o => bool_decide (order_id o = oid)) os.

Section StatusUpdate.

(** [int(oid)], [None] when it raises. *)
Variable int_of_str : string -> option Z.

Definition annachi_orders_update (current_user : User) (oid : string)
    (new_status : option string) (db : Db) : UpdateResponse * Db * list Event :=
  if negb (bool_decide (role current_user = "annachi"%string)) then
    (AccessDenied, db, [])
  else if String.prefix "BUNDLE_" oid then
    (* bundle master path *)
    let bundle := drop_chars 7 oid in
    let selected := bundle_row (user_id current_user) bundle (products db) in
    let rows := List.filter selected (orders db) in
    match rows with
    | [] => (BundleNotFound, db, [])
    | _ :: _ =>
        if Py.truthy (Py.str_or new_status "") then
          let st := Py.str_or new_status "" in
          (BundleUpdated bundle st,
           mkDb (users db) (products db)
                (map (fun o => if selected o then set_status st o else o) (orders db)),
           map (fun r => status_event (products db) (set_status st r)) rows)
        else (BundleUnchanged bundle, db, [])
    end
  else
    (* single order path *)
    match int_of_str oid with
    | None => (InvalidOrderId, db, [])
    | Some oid_int =>
        match get_order oid_int (orders db) with
        | None => (OrderNotFound, db, [])
        | Some order =>
            let uid := user_id current_user in
            match get_product (order_product_id order) (products db) with
            | None => (Unauthorized, db, [])
            | Some p =>
                if negb (bool_decide (owner_id p = uid)) &&
                   negb (bool_decide (assigned_annachi_id order = Some uid))
                then (Unauthorized, db, [])
                else if Py.truthy (Py.str_or new_status "") then
                  let st := Py.str_or new_status "" in
                  (OrderUpdated,
                   mkDb (users db) (products db)
                        (map (fun o => if bool_decide (order_id o = oid_int)
                                       then set_status st o else o) (orders db)),
                   [status_event (products db) (set_status st order)])
                else (OrderUnchanged, db, [])
            end
        end
    end.

End StatusUpdate.

(** ** The hub [broadcast] over the registry [subscribers]

    A queue object is a key of the registry, its content the value at that
    key.  [put_nowait q data] is the queue after the put, or [None] when the
    put raises. *)

Section Broadcaster.

Context {Queue Data : Type}.
Variable put_nowait : Queue -> Data -> option Queue.

(** The first loop, over the snapshot [list(subscribers)]. *)
Fixpoint deliver (snapshot : list (positive * Queue)) (data : Data)
    (subscribers : gmap positive Queue) (dead : list positive)
  : gmap positive Queue * list positive :=
  match snapshot with
  | [] => (subscribers, dead)
  | (i, q) :: rest =>
      match put_nowait q data with
      | Some q' => deliver rest data (<[i := q']> subscribers) dead
      | None => deliver rest data subscribers (dead ++ [i])
      end
  end.

(** The second loop: [subscribers.discard(q)] for every dead queue. *)
Definition discard_all (dead : list positive) (subscribers : gmap positive Queue)
  : gmap positive Queue :=
  foldl (fun subs i => delete i subs) subscribers dead.

Definition broadcast (data : Data) (subscribers : gmap positive Queue)
  : gmap positive Queue :=
  let '(subs, dead) := deliver (map_to_list subscribers) data subscribers [] in
  discard_all dead subs.

End Broadcaster.

(** [queue.SimpleQueue]: unbounded, its [put_nowait] appends and does not
    raise. *)
Abbreviation SimpleQueue := (list Event).

Definition simple_put (q : SimpleQueue) (data : Event) : option SimpleQueue :=
  Some (q ++ [data]).

(** A queue that takes at most [bound] events, to exercise the failing
    branch of [broadcast]. *)
Definition bounded_put (bound : nat) (q : list Event) (data : Event)
  : option (list Event) :=
  if (length q <? bound)%nat then Some (q ++ [data]) else None.

(** The per-line loops of the handlers: one [broadcast] for each event. *)
Definition emit (events : list Event) (subscribers : gmap positive SimpleQueue)
  : gmap positive SimpleQueue :=
  foldl (fun subs ev => broadcast simple_put ev subs) subscribers events.

(** ** Vocabulary of the statements *)

Section Reach.

Variable haversine : Q -> Q -> Q -> Q -> option Q.

(** Provider [a] has coordinates and an integer radius, and its distance to
    the consumer at [(clat, clng)] is at most that radius. *)
Definition within_radius (clat clng : Q) (a : User) : bool :=
  match shop_lat a, shop_lng a, service_radius_km a with
  | Some slat, Some slng, Some r =>
      match haversine clat clng slat slng with
      | Some d => Qle_bool d (inject_Z r)
      | None => false
      end
  | _, _, _ => false
  end.

(** Provider [a] has coordinates and an integer radius, and its distance to
    the consumer is larger than that radius. *)
Definition exceeds_radius (clat clng : Q) (a : User) : bool :=
  match shop_lat a, shop_lng a, service_radius_km a with
  | Some slat, Some slng, Some r =>
      match haversine clat clng slat slng with
      | Some d => Qltb (inject_Z r) d
      | None => false
      end
  | _, _, _ => false
  end.

End Reach.

(** What the availability loop decides for one line. *)
Definition line_problem (ann : User) (ps : list Product) (it : Item) : option Unavailable :=
  match find_product ann it ps with
  | None => Some (mkUnavailable (it_name it) (it_category it) NOT_FOUND_REASON)
  | Some prod =>
      if stock prod <? it_qty it
      then Some (mkUnavailable (it_name it) (it_category it)
                   (insufficient_reason (stock prod)))
      else None
  end.

Definition line_found (ann : User) (ps : list Product) (it : Item) : option (Product * Z) :=
  match find_product ann it ps with
  | None => None
  | Some prod => if stock prod <? it_qty it then None else Some (prod, it_qty it)
  end.

(** The selected provider has a matching row with enough stock. *)
Definition available (ann : User) (ps : list Product) (it : Item) : bool :=
  match find_product ann it ps with
  | None => false
  | Some prod => negb (stock prod <? it_qty it)
  end.

(** A raw item that the validation loop rejects. *)
Definition invalid_item (it : RawItem) : bool :=
  negb (Py.truthy (Py.strip (Py.str_or (raw_name it) ""))) ||
  negb (in_fixed_cats (Py.lower (Py.strip (Py.str_or (raw_category it) "")))) ||
  (Py.int_or (raw_quantity it) 1 <? 1).

Definition normalize (it : RawItem) : Item :=
  mkItem (Py.strip (Py.str_or (raw_name it) ""))
         (Py.lower (Py.strip (Py.str_or (raw_category it) "")))
         (Py.int_or (raw_quantity it) 1).

(** Units of product [pid] asked for by the reserved lines [rows]. *)
Definition sold (pid : Z) (rows : list (Product * Z)) : Z :=
  fold_right Z.add 0
    (map snd (List.filter (fun r => bool_decide (product_id (fst r) = pid)) rows)).

(** The order rows written for the reserved lines, ids counting from
    [next_id]. *)
Fixpoint new_orders (uid ann_id : Z) (bundle : string)
    (rows : list (Product * Z)) (next_id : Z) : list Order :=
  match rows with
  | [] => []
  | r :: rest =>
      mkOrder next_id uid (product_id (fst r)) (snd r) "Pending" (Some ann_id) (Some bundle)
      :: new_orders uid ann_id bundle rest (next_id + 1)
  end.

(** The invalid items that a response names. *)
Definition reported_invalid (r : Response) : list RawItem :=
  match r with
  | InvalidLineItem it => [it]
  | _ => []
  end.

(** The reason recorded for an unavailable line. *)
Definition reason_of (ann : User) (ps : list Product) (it : Item) : string :=
  match find_product ann it ps with
  | None => NOT_FOUND_REASON
  | Some prod => insufficient_reason (stock prod)
  end.

(** The caller [uid] owns the product of line [o], or is its assigned
    provider. *)
Definition authorized (uid : Z) (ps : list Product) (o : Order) : bool :=
  match get_product (order_product_id o) ps with
  | Some p => bool_decide (owner_id p = uid)
  | None => false
  end || bool_decide (assigned_annachi_id o = Some uid).

Definition in_bundle (bundle : string) (o : Order) : bool :=
  bool_decide (bundle_id o = Some bundle).

(** The foreign key [order.product_id -> product.id] holds. *)
Definition referential_integrity (db : Db) : Prop :=
  forall o, In o (orders db) -> is_Some (get_product (order_product_id o) (products db)).

(** The lines of one bundle have one provider. *)
Definition single_provider (os : list Order) : Prop :=
  forall o1 o2 b,
    In o1 os -> In o2 os ->
    bundle_id o1 = Some b -> bundle_id o2 = Some b ->
    assigned_annachi_id o1 = assigned_annachi_id o2.

(** A bundle id of the shape written by [orders_create_auto]. *)
Definition is_auto_bundle (b : string) : Prop :=
  exists now_ms uid ann_id, b = auto_bundle_id now_ms uid ann_id.

(** The lines of one auto-assigned bundle have one provider. *)
Definition auto_single_provider (os : list Order) : Prop :=
  forall o1 o2 b,
    In o1 os -> In o2 os ->
    bundle_id o1 = Some b -> bundle_id o2 = Some b ->
    is_auto_bundle b ->
    assigned_annachi_id o1 = assigned_annachi_id o2.

(** The provider of line [o] is the one that its bundle id names, when the
    bundle id has the auto shape. *)
Definition names_provider (o : Order) : Prop :=
  forall now_ms uid ann_id,
    bundle_id o = Some (auto_bundle_id now_ms uid ann_id) ->
    assigned_annachi_id o = Some ann_id.

(** The part of [s] after the last occurrence of [c]. *)
Fixpoint after_last (c : ascii) (s : string) : option string :=
  match s with
  | EmptyString => None
  | String x t =>
      match after_last c t with
      | Some r => Some r
      | None => if bool_decide (x = c) then Some t else None
      end
  end.

Section Reachable.

Variable haversine : Q -> Q -> Q -> Q -> option Q.
Variable int_of_str : string -> option Z.

(** The stores reached from an empty order table by the order-creating
    routes and status updates; the other tables change freely in between
    (profile and catalogue edits). *)
Inductive reachable : Db -> Prop :=
  | reach_init db :
      orders db = [] -> reachable db
  | reach_auto db current_user now_ms commit_ok items consumer_info :
      reachable db ->
      reachable (snd (fst (orders_create_auto haversine current_user now_ms
                             commit_ok items consumer_info db)))
  | reach_legacy db current_user now_ms items :
      reachable db ->
      reachable (snd (fst (orders_create current_user now_ms items db)))
  | reach_single db current_user now_ms pid quantity :
      reachable db ->
      reachable (snd (fst (api_create_order current_user now_ms pid quantity db)))
  | reach_update db current_user oid new_status :
      reachable db ->
      reachable (snd (fst (annachi_orders_update int_of_str current_user oid
                             new_status db)))
  | reach_other db db' :
      reachable db -> orders db' = orders db -> reachable db'.

End Reachable.

(** ** Stock edits: [annachi_edit] *)

Inductive EditResponse :=
  | EditGoHome                 (* not an annachi: redirect *)
  | EditNotFound               (* 404 *)
  | EditUnauthorized
  | EditInvalidStock
  | EditStockUpdated.

(** [prod.stock = new_stock] *)
Definition set_stock (n : Z) (p : Product) : Product :=
  mkProduct (product_id p) (name p) (category p) n (pincode p)
            (total_purchased p) (owner_id p).

Section Edit.

(** [int(stock_val)], [None] when it raises. *)
Variable int_of_str : string -> option Z.

Definition annachi_edit (current_user : User) (pid : Z) (stock_val : option string)
    (db : Db) : EditResponse * Db :=
  if negb (bool_decide (role current_user = "annachi"%string)) then (EditGoHome, db)
  else
    match get_product pid (products db) with
    | None => (EditNotFound, db)
    | Some prod =>
        if negb (bool_decide (owner_id prod = user_id current_user)) then
          (EditUnauthorized, db)
        else
          let new_stock := stock_val ≫= int_of_str in
          match new_stock with
          | None => (EditInvalidStock, db)
          | Some n =>
              if n <? 0 then (EditInvalidStock, db)
              else
                (EditStockUpdated,
                 mkDb (users db)
                      (map (fun p => if bool_decide (product_id p = pid)
                                     then set_stock n p else p) (products db))
                      (orders db))
          end
    end.

End Edit.

(** ** Shop profile: [annachi_profile_location] (POST)

    [loc_lat], [loc_lng] and [loc_radius] are the fields after the coercion
    of the handler: [None] for an absent, empty or unreadable value. *)

Record LocationForm := mkLocationForm {
  loc_pincode : option string;
  loc_lat : option Q;
  loc_lng : option Q;
  loc_radius : option Z
}.

Inductive ProfileResponse :=
  | ProfileUnauthorized                       (* 403 *)
  | ProfileSaved (pincode : option string) (lat lng : option Q) (radius : option Z)
  | ProfileRedirect.                          (* form post: flash and redirect *)

(** The assignments to [current_user]. *)
Definition update_location (form : LocationForm) (u : User) : User :=
  let pincode := Py.strip (Py.str_or (loc_pincode form) "") in
  mkUser (user_id u) (role u)
    (match loc_lat form with Some lat => Some lat | None => shop_lat u end)
    (match loc_lng form with Some lng => Some lng | None => shop_lng u end)
    (if Py.truthy pincode then Some pincode else user_pincode u)
    (match loc_radius form with
     | Some radius => if 0 <=? radius then Some radius else service_radius_km u
     | None => service_radius_km u
     end).

(** [current_user] is the session object of the row with its id. *)
Definition annachi_profile_location (current_user : User) (is_json : bool)
    (form : LocationForm) (db : Db) : ProfileResponse * Db :=
  if negb (bool_decide (role current_user = "annachi"%string)) then
    (ProfileUnauthorized, db)
  else
    let me := update_location form current_user in
    (if is_json
     then ProfileSaved (user_pincode me) (shop_lat me) (shop_lng me) (service_radius_km me)
     else ProfileRedirect,
     mkDb (map (fun u => if bool_decide (user_id u = user_id current_user)
                         then update_location form u else u) (users db))
          (products db) (orders db)).

(** ** Catalogue administration: [/admin/catalog/upsert]

    The price and image columns of a product row, which the order core never
    reads, are kept apart from [Product], under the id of the row. *)

Definition ADMIN_TOKEN : string := "change-me-admin-token".

Record Listing := mkListing {
  mrp : Q;
  price : Q;
  image_url : option string
}.

(** The key of a catalogue row of one annachi:
    [filter_by(owner_id=a.id, name=name, category=category, pincode=str(pincode))]. *)
Definition catalog_row (owner : Z) (nm cat pin : string) (p : Product) : bool :=
  bool_decide (owner_id p = owner) &&
  bool_decide (name p = nm) &&
  bool_decide (category p = cat) &&
  bool_decide (pincode p = pin).

(** The id the store gives to the next inserted product row. *)
Definition next_product_id (ps : list Product) : Z :=
  1 + fold_right Z.max 0 (map product_id ps).

(** [prod.mrp = float(mrp); prod.price = float(price);
    if image_url: prod.image_url = image_url] *)
Definition write_listing (pid : Z) (new_mrp new_price : Q) (new_image : option string)
    (ls : gmap Z Listing) : gmap Z Listing :=
  let old_image := (ls !! pid) ≫= image_url in
  <[pid := mkListing new_mrp new_price
             (if Py.truthy (Py.str_or new_image "") then new_image else old_image)]> ls.

(** The values the INTEGER column [stock] can hold: for a Python int outside
    the signed 64-bit range the SQLite driver raises [OverflowError] when
    the row is flushed, and the transaction is not committed. *)
Definition sqlite_int (n : Z) : bool := (- 2 ^ 63 <=? n) && (n <? 2 ^ 63).

Definition storable (new_stock : option Z) : bool :=
  match new_stock with
  | Some s => sqlite_int s
  | None => true
  end.

Inductive UpsertResult :=
  | UpsertNoAnnachi (pin : string)          (* ok: False *)
  | UpsertRaised                            (* the exception leaves the function *)
  | UpsertOk (count : Z).

(** The loop over [anns]: update the row of the annachi, or insert one. *)
Fixpoint upsert_loop (anns : list User) (pin nm cat : string) (new_mrp new_price : Q)
    (new_stock : option Z) (new_image : option string)
    (ps : list Product) (ls : gmap Z Listing) (updated_count : Z)
  : list Product * gmap Z Listing * Z :=
  match anns with
  | [] => (ps, ls, updated_count)
  | a :: rest =>
      match List.find (catalog_row (user_id a) nm cat pin) ps with
      | Some prod =>
          let ls' := write_listing (product_id prod) new_mrp new_price new_image ls in
          let ps' :=
            match new_stock with
            | Some s =>
                map (fun p => if bool_decide (product_id p = product_id prod)
                              then set_stock s p else p) ps
            | None => ps
            end in
          upsert_loop rest pin nm cat new_mrp new_price new_stock new_image
            ps' ls' (updated_count + 1)
      | None =>
          let pid := next_product_id ps in
          upsert_loop rest pin nm cat new_mrp new_price new_stock new_image
            (ps ++ [mkProduct pid nm cat (default 0 new_stock) pin (Some 0) (user_id a)])
            (<[pid := mkListing new_mrp new_price new_image]> ls)
            (updated_count + 1)
      end
  end.

(** [User.query.filter_by(role="annachi", pincode=str(pincode))] *)
Definition annachi_in_pin (pin : string) (u : User) : bool :=
  bool_decide (role u = "annachi"%string) && bool_decide (user_pincode u = Some pin).

Definition _admin_upsert_for_all_annachis_in_pin (pin nm cat : string)
    (new_mrp new_price : Q) (new_stock : option Z) (new_image : option string)
    (all_users : list User) (ps : list Product) (ls : gmap Z Listing)
  : UpsertResult * list Product * gmap Z Listing :=
  let anns := List.filter (annachi_in_pin pin) all_users in
  match anns with
  | [] => (UpsertNoAnnachi pin, ps, ls)
  | _ :: _ =>
      (* every round writes [int(stock)] into a row, so a stock that the
         column cannot hold raises at the flush and nothing is written *)
      if negb (storable new_stock) then (UpsertRaised, ps, ls)
      else
        let '(ps', ls', updated_count) :=
          upsert_loop anns pin nm cat new_mrp new_price new_stock new_image ps ls 0 in
        (UpsertOk updated_count, ps', ls')
  end.

(** The body of the request; a number that is absent or unreadable is
    [None] ([up_stock]: absent). *)
Record UpsertForm := mkUpsertForm {
  up_name : option string;
  up_category : option string;
  up_pincode : option string;
  up_mrp : option Q;
  up_price : option Q;
  up_stock : option Z;
  up_image_url : option string
}.

Inductive AdminResponse :=
  | AdminUnauthorized                        (* 403 *)
  | AdminFieldsRequired                      (* 400 *)
  | AdminBadCategory                         (* 400 *)
  | AdminBadNumbers                          (* 400 *)
  | AdminPriceAboveMrp                       (* 400 *)
  | AdminNegativeStock                       (* 400 *)
  | AdminNoAnnachi (pin : string)            (* 400 *)
  | AdminServerError                         (* 500: uncaught exception *)
  | AdminUpserted (affected_annachis : Z).

(** [data.get("image_url") or None] *)
Definition image_or_none (x : option string) : option string :=
  match x with
  | Some s => if Py.truthy s then Some s else None
  | None => None
  end.

Definition admin_catalog_upsert (token : string) (form : UpsertForm)
    (db : Db) (ls : gmap Z Listing) : AdminResponse * Db * gmap Z Listing :=
  if negb (bool_decide (token = ADMIN_TOKEN)) then (AdminUnauthorized, db, ls)
  else
    let nm := Py.strip (Py.str_or (up_name form) "") in
    let cat := Py.lower (Py.strip (Py.str_or (up_category form) "")) in
    let pin := Py.strip (Py.str_or (up_pincode form) "") in
    let new_image := image_or_none (up_image_url form) in
    if negb (Py.truthy nm && Py.truthy cat && Py.truthy pin) then
      (AdminFieldsRequired, db, ls)
    else if negb (in_fixed_cats cat) then (AdminBadCategory, db, ls)
    else
      match up_mrp form, up_price form with
      | Some new_mrp, Some new_price =>
          if Qltb new_mrp new_price then (AdminPriceAboveMrp, db, ls)
          else if match up_stock form with Some s => s <? 0 | None => false end then
            (AdminNegativeStock, db, ls)
          else
            match _admin_upsert_for_all_annachis_in_pin pin nm cat new_mrp new_price
                    (up_stock form) new_image (users db) (products db) ls with
            | (UpsertNoAnnachi p, _, _) => (AdminNoAnnachi p, db, ls)
            | (UpsertRaised, _, _) => (AdminServerError, db, ls)
            | (UpsertOk n, ps', ls') =>
                (AdminUpserted n, mkDb (users db) ps' (orders db), ls')
            end
      | _, _ => (AdminBadNumbers, db, ls)
      end.

(** ** Vocabulary of the further properties *)

(** The pool that [select_best_annachi] ranks: the annachis with the
    requested pincode when there are some, all annachis otherwise. *)
Definition preferred_pool (all_users : list User) (consumer_pincode : option string)
  : list User :=
  let anns_all := List.filter is_annachi all_users in
  let phase1 :=
    match consumer_pincode with
    | Some pin =>
        if Py.truthy pin then List.filter (same_pincode pin) anns_all else []
    | None => []
    end in
  match phase1 with [] => anns_all | _ :: _ => phase1 end.

Section Range.

Variable haversine : Q -> Q -> Q -> Q -> option Q.

(** The test of the fallback loop: an integer radius, a real distance, and
    the distance within the radius. *)
Definition in_range (consumer_lat consumer_lng : option Q) (a : User) : bool :=
  match service_radius_km a with
  | Some _ =>
      Qltb (_distance_km haversine consumer_lat consumer_lng a) NEAR_LIMIT &&
      Qle_bool (_distance_km haversine consumer_lat consumer_lng a) (radius_of a)
  | None => false
  end.

(** [a] comes before [b] in the order (distance, id). *)
Definition nearer_or_same (consumer_lat consumer_lng : option Q) (a b : User) : Prop :=
  (_distance_km haversine consumer_lat consumer_lng a
   < _distance_km haversine consumer_lat consumer_lng b)%Q \/
  ((_distance_km haversine consumer_lat consumer_lng a
    == _distance_km haversine consumer_lat consumer_lng b)%Q /\
   user_id a <= user_id b).

End Range.

(** Row [p'] is row [p] after some units moved from the stock to the sold
    counter: the identity columns are the same and stock plus
    [total_purchased] (an empty counter counts as 0) is the same. *)
Definition units_kept (p p' : Product) : Prop :=
  product_id p' = product_id p /\ name p' = name p /\ category p' = category p /\
  pincode p' = pincode p /\ owner_id p' = owner_id p /\
  stock p' + Py.int_or (total_purchased p') 0 =
  stock p + Py.int_or (total_purchased p) 0.

(** The product named by a normalized line. *)
Definition line_key (it : Item) : string * string := (it_name it, it_category it).

(** The primary keys of the product and order tables. *)
Definition product_ids_unique (db : Db) : Prop := NoDup (map product_id (products db)).
Definition order_ids_unique (db : Db) : Prop := NoDup (map order_id (orders db)).

(** No product row has a negative stock. *)
Definition stocks_nonneg (ps : list Product) : Prop :=
  Forall (fun p => 0 <= stock p) ps.

(** The rows [news] carry pairwise different ids, none below [next_id]. *)
Definition fresh_from (next_id : Z) (news : list Order) : Prop :=
  NoDup (map order_id news) /\ Forall (fun o => next_id <= order_id o) news.

(** What [orders_create] writes for one cart entry: a Pending line for the
    product and quantity of the entry, under the given bundle id, assigned to
    the owner of the product. *)
Definition legacy_line (uid : Z) (bundle : string) (ps : list Product)
    (it : CartItem) (o : Order) : Prop :=
  consumer_id o = uid /\ order_product_id o = cart_product_id it /\
  quantity o = default 1 (cart_quantity it) /\ 1 <= quantity o /\
  status o = "Pending"%string /\ bundle_id o = Some bundle /\
  assigned_annachi_id o = owner_id <$> get_product (cart_product_id it) ps.

(** The authorization test of [annachi_orders_update] on one order row: the
    product row exists, and the caller owns it or is assigned to the line. *)
Definition row_authorized (uid : Z) (ps : list Product) (o : Order) : bool :=
  match get_product (order_product_id o) ps with
  | None => false
  | Some p =>
      bool_decide (owner_id p = uid) || bool_decide (assigned_annachi_id o = Some uid)
  end.

(** A line written by [orders_create_auto] for provider [ann_id]: its product
    row belongs to that provider, has a catalogue category, and had at least
    the ordered quantity in stock. *)
Definition auto_line (ann_id : Z) (ps : list Product) (o : Order) : Prop :=
  assigned_annachi_id o = Some ann_id /\ status o = "Pending"%string /\
  exists p, In p ps /\ product_id p = order_product_id o /\ owner_id p = ann_id /\
            in_fixed_cats (category p) = true /\ 1 <= quantity o <= stock p.

(** ** The subscriber side of the hub: [event_stream]

    The generator creates a queue, registers it, then hands over the events
    of the queue one by one; when it is closed, it takes the queue out of
    the registry.  The three steps are given apart. *)

(** [q = SimpleQueue(); subscribers.add(q)]: a new object has a key that the
    registry does not hold. *)
Definition subscribe (subscribers : gmap positive SimpleQueue)
  : positive * gmap positive SimpleQueue :=
  let q := fresh (dom subscribers) in
  (q, <[q := []]> subscribers).

(** [q.get()]: the oldest event of the queue, or [None] while it is empty
    (the call then waits). *)
Definition get_message (q : positive) (subscribers : gmap positive SimpleQueue)
  : option (Event * gmap positive SimpleQueue) :=
  match subscribers !! q with
  | Some (data :: rest) => Some (data, <[q := rest]> subscribers)
  | _ => None
  end.

(** The events yielded by [n] rounds of the loop. *)
Fixpoint stream (n : nat) (q : positive) (subscribers : gmap positive SimpleQueue)
  : list Event :=
  match n with
  | O => []
  | S n' =>
      match get_message q subscribers with
      | Some (data, subs) => data :: stream n' q subs
      | None => []
      end
  end.

(** [subscribers.discard(q)] in the [finally] clause. *)
Definition unsubscribe (q : positive) (subscribers : gmap positive SimpleQueue)
  : gmap positive SimpleQueue :=
  delete q subscribers.

(** The part of [s] before the first occurrence of [c] (all of [s] when
    there is none). *)
Fixpoint before_first (c : ascii) (s : string) : string :=
  match s with
  | EmptyString => EmptyString
  | String x t => if bool_decide (x = c) then EmptyString else String x (before_first c t)
  end.

(** The part of [s] after the first occurrence of [c]. *)
Fixpoint after_first (c : ascii) (s : string) : string :=
  match s with
  | EmptyString => EmptyString
  | String x t => if bool_decide (x = c) then t else after_first c t
  end.

(** No stored service radius is negative. *)
Definition radius_ok (u : User) : Prop :=
  forall r, service_radius_km u = Some r -> 0 <= r.

(** One round of the loop for annachi [a0]. *)
Definition upsert_step (pin nm cat : string) (new_mrp new_price : Q)
    (new_stock : option Z) (new_image : option string)
    (a0 : User) (ps : list Product) (ls : gmap Z Listing)
  : list Product * gmap Z Listing :=
  match List.find (catalog_row (user_id a0) nm cat pin) ps with
  | Some prod =>
      (match new_stock with
       | Some s =>
           map (fun p => if bool_decide (product_id p = product_id prod)
                         then set_stock s p else p) ps
       | None => ps
       end,
       write_listing (product_id prod) new_mrp new_price new_image ls)
  | None =>
      (ps ++ [mkProduct (next_product_id ps) nm cat (default 0 new_stock) pin (Some 0)
                (user_id a0)],
       <[next_product_id ps := mkListing new_mrp new_price new_image]> ls)
  end.

(** Annachi [a] has its catalogue row for the upserted item: the first row
    with the key of the item, with the seeded stock when one was given and
    with the given prices. *)
Definition upserted (pin nm cat : string) (new_mrp new_price : Q)
    (new_stock : option Z) (ps : list Product) (ls : gmap Z Listing) (a : User) : Prop :=
  exists prod,
    List.find (catalog_row (user_id a) nm cat pin) ps = Some prod /\
    (forall s, new_stock = Some s -> stock prod = s) /\
    exists l, ls !! product_id prod = Some l /\ mrp l = new_mrp /\ price l = new_price.

(** The catalogue invariants: catalogue categories, no negative stock, no
    price above the marked price. *)
Definition catalogue_sane (ps : list Product) (ls : gmap Z Listing) : Prop :=
  Forall (fun p => in_fixed_cats (category p) = true /\ 0 <= stock p) ps /\
  map_Forall (fun _ l => (price l <= mrp l)%Q) ls.

(** Row [p'] is row [p] with, at most, another stock. *)
Definition same_but_stock (p p' : Product) : Prop :=
  product_id p' = product_id p /\ name p' = name p /\ category p' = category p /\
  pincode p' = pincode p /\ owner_id p' = owner_id p /\
  total_purchased p' = total_purchased p.

(** ** Sample data

    A stand-in for the distance evaluator on small regions (111 km per
    degree along both axes, capped at half the circumference), two shops
    and a catalogue. *)

Module Sample.

Definition grid_km (lat1 lon1 lat2 lon2 : Q) : option Q :=
  let d := (111 * (Qabs (lat2 - lat1) + Qabs (lon2 - lon1)))%Q in
  Some (if Qle_bool d 20015 then d else 20015%Q).

(** A shop in 600001 with a 5 km radius, and one in 600002, half a degree
    to the north. *)
Definition shop1 : User :=
  mkUser 1 "annachi" (Some 13%Q) (Some 80%Q) (Some "600001"%string) (Some 5).
Definition shop2 : User :=
  mkUser 2 "annachi" (Some (27 # 2)%Q) (Some 80%Q) (Some "600002"%string) (Some 5).
Definition alice : User := mkUser 7 "consumer" None None None (Some 5).

Definition rice : Product := mkProduct 10 "Rice" "cereals" 5 "600001" (Some 0) 1.
Definition tomato : Product := mkProduct 11 "Tomato" "vegetables" 1 "600001" None 1.
Definition apple2 : Product := mkProduct 12 "Apple" "fruits" 9 "600002" (Some 3) 2.

Definition db0 : Db := mkDb [shop1; shop2; alice] [rice; tomato; apple2] [].

(** The distance of the program at one pair of positions where it raises:
    for [haversine(171.92, -100.0, 8.08, 80.0)] the sum [a] of the formula
    comes out as -1.1e-16 in floating point, and [math.sqrt(a)] raises
    [ValueError]; elsewhere the evaluator is [grid_km]. *)
Definition domain_error_km (lat1 lon1 lat2 lon2 : Q) : option Q :=
  if Qeq_bool lat1 (17192 # 100) && Qeq_bool lon1 (-100) &&
     Qeq_bool lat2 (808 # 100) && Qeq_bool lon2 80
  then None
  else grid_km lat1 lon1 lat2 lon2.


(** The consumer stands next to [shop1], or next to [shop2]. *)
Definition near_shop1 : ConsumerInfo :=
  mkConsumerInfo (Some 13%Q) (Some 80%Q) (Some "600001"%string).
Definition near_shop2 : ConsumerInfo :=
  mkConsumerInfo (Some (27 # 2)%Q) (Some 80%Q) (Some "600001"%string).

(** Requests. *)
Definition rice1 : RawItem := mkRawItem (Some "Rice") (Some "cereals") (Some 1).
Definition tomato1 : RawItem := mkRawItem (Some "Tomato") (Some "vegetables") (Some 1).
Definition tomato2 : RawItem := mkRawItem (Some "Tomato") (Some "vegetables") (Some 2).
Definition rice0 : RawItem := mkRawItem (Some "Rice") (Some "cereals") (Some 0).
Definition nameless : RawItem := mkRawItem (Some "  ") (Some "cereals") (Some 1).
Definition tea : RawItem := mkRawItem (Some "Tea") (Some "beverages") (Some 1).

Definition t0 : Z := 1700000000123.

(** A stand-in for [int(oid)]: unsigned decimal numerals only. *)
Fixpoint digits_value (s : string) (acc : Z) : option Z :=
  match s with
  | EmptyString => Some acc
  | String c t =>
      let n := Z.of_N (N_of_ascii c) in
      if (48 <=? n) && (n <=? 57) then digits_value t (10 * acc + (n - 48)) else None
  end.

Definition parse_id (s : string) : option Z :=
  match s with
  | EmptyString => None
  | _ => digits_value s 0
  end.

(** A store with a bundle whose two lines belong to different shops. *)
Definition line1 : Order := mkOrder 1 7 10 1 "Pending" (Some 1) (Some "b1").
Definition line2 : Order := mkOrder 2 7 12 2 "Pending" (Some 2) (Some "b1").
Definition db_mixed : Db := mkDb [shop1; shop2; alice] [rice; tomato; apple2] [line1; line2].

End Sample.

(** * Properties *)

(** ** Comparisons and sorting *)

Lemma Qltb_lt (a b : Q) : Qltb a b = true <-> (a < b)%Q.
Proof.
  unfold Qltb. rewrite Qlt_alt. destruct (a ?= b)%Q; split; congruence.
Qed.

Lemma Qltb_ge (a b : Q) : Qltb a b = false <-> (b <= a)%Q.
Proof.
  unfold Qltb. rewrite Qge_alt. destruct (a ?= b)%Q; split; congruence.
Qed.

Lemma int_or_zero (r : Z) : Py.int_or (Some r) 0 = r.
Proof. destruct r; reflexivity. Qed.

Lemma key3_ltb_asym k1 k2 : key3_ltb k1 k2 = true -> key3_ltb k2 k1 = false.
Proof.
  destruct k1 as [[f1 d1] i1], k2 as [[f2 d2] i2]. unfold key3_ltb.
  rewrite (Z.compare_antisym f1 f2), <- (Qcompare_antisym d1 d2).
  destruct (f1 ?= f2); simpl; try congruence.
  destruct (d1 ?= d2)%Q; simpl; try congruence.
  rewrite !Z.ltb_lt, Z.ltb_ge. lia.
Qed.

Lemma key3_ltb_negtrans k1 k2 k3 :
  key3_ltb k2 k1 = false -> key3_ltb k3 k2 = false -> key3_ltb k3 k1 = false.
Proof.
  destruct k1 as [[f1 d1] i1], k2 as [[f2 d2] i2], k3 as [[f3 d3] i3].
  unfold key3_ltb.
  destruct (Z.compare_spec f2 f1), (Z.compare_spec f3 f2), (Z.compare_spec f3 f1);
    try lia; try congruence; subst.
  destruct (Qcompare_spec d2 d1) as [E1|L1|G1], (Qcompare_spec d3 d2) as [E2|L2|G2],
    (Qcompare_spec d3 d1) as [E3|L3|G3];
    try congruence; try (exfalso; lra).
  rewrite !Z.ltb_ge. lia.
Qed.

Section SortedFacts.

Context {A K : Type}.
Variable ltb : K -> K -> bool.
Variable key : A -> K.

Lemma insert_sorted_In x y l :
  In y (Py.insert_sorted ltb key x l) <-> y = x \/ In y l.
Proof.
  induction l as [|h l IH]; simpl.
  - intuition.
  - destruct (ltb (key h) (key x)); simpl; rewrite ?IH; intuition.
Qed.

Lemma sorted_In y l : In y (Py.sorted ltb key l) <-> In y l.
Proof.
  induction l as [|h l IH]; simpl; [tauto|].
  rewrite insert_sorted_In, IH. intuition.
Qed.

Lemma sorted_nil_inv l : Py.sorted ltb key l = [] -> l = [].
Proof.
  destruct l as [|h l]; [reflexivity|]. simpl. intros E.
  assert (In h (Py.insert_sorted ltb key h (Py.sorted ltb key l))) as Hin
    by (apply insert_sorted_In; now left).
  rewrite E in Hin. destruct Hin.
Qed.

Lemma sorted_head_In x l : head (Py.sorted ltb key l) = Some x -> In x l.
Proof.
  intros H. apply sorted_In. destruct (Py.sorted ltb key l); simpl in H; [discriminate|].
  injection H as ->. now left.
Qed.

Lemma sorted_head_is_Some l : l <> [] -> exists x, head (Py.sorted ltb key l) = Some x.
Proof.
  intros Hne. destruct (Py.sorted ltb key l) eqn:E.
  - apply sorted_nil_inv in E. contradiction.
  - eexists. reflexivity.
Qed.

Hypothesis ltb_asym : forall a b, ltb a b = true -> ltb b a = false.
Hypothesis ltb_negtrans :
  forall a b c, ltb b a = false -> ltb c b = false -> ltb c a = false.

Lemma ltb_irrefl a : ltb a a = false.
Proof. destruct (ltb a a) eqn:E; [|reflexivity]. now rewrite (ltb_asym _ _ E) in E. Qed.

(** The head of the sorted list is a least element: no key is below its
    key. *)
Lemma sorted_head_least l x :
  head (Py.sorted ltb key l) = Some x ->
  forall y, In y l -> ltb (key y) (key x) = false.
Proof.
  revert x. induction l as [|a l IH]; intros x Hx y Hy; [destruct Hy|].
  simpl in Hx. destruct (Py.sorted ltb key l) as [|h t] eqn:E.
  - apply sorted_nil_inv in E. subst l. simpl in Hx. injection Hx as <-.
    destruct Hy as [<-|[]]. apply ltb_irrefl.
  - simpl in Hx. specialize (IH h eq_refl).
    destruct (ltb (key h) (key a)) eqn:Hha; simpl in Hx; injection Hx as <-.
    + destruct Hy as [<-|Hy]; [now apply ltb_asym | now apply IH].
    + destruct Hy as [<-|Hy]; [apply ltb_irrefl|].
      eapply ltb_negtrans; [exact Hha | now apply IH].
Qed.

End SortedFacts.

(** ** Rounding *)

Lemma round_half_even_close (y : Q) :
  (- (1 # 2) <= inject_Z (Py.round_half_even y) - y <= 1 # 2)%Q.
Proof.
  unfold Py.round_half_even.
  pose proof (Qfloor_le y) as Hlo. pose proof (Qlt_floor y) as Hhi.
  rewrite inject_Z_plus in Hhi. change (inject_Z 1) with 1%Q in Hhi.
  destruct (Qcompare_spec (y - inject_Z (Qfloor y)) (1 # 2)) as [E|L|G].
  - destruct (Z.even (Qfloor y)); [lra|].
    rewrite inject_Z_plus. change (inject_Z 1) with 1%Q. lra.
  - lra.
  - rewrite inject_Z_plus. change (inject_Z 1) with 1%Q. lra.
Qed.

(** [round3 x] is a multiple of 1/1000 at most 1/2000 away from [x]. *)
Lemma round3_close (x : Q) :
  (Qabs (Py.round3 x - x) <= 1 # 2000)%Q.
Proof.
  unfold Py.round3.
  pose proof (round_half_even_close (x * 1000)) as H.
  set (n := Py.round_half_even (x * 1000)) in *.
  assert ((n # 1000) * 1000 == inject_Z n)%Q as Hn.
  { unfold Qeq, inject_Z. simpl. lia. }
  apply Qabs_Qle_condition. lra.
Qed.

(** ** Provider selection *)

Lemma negb_Qle_bool (a b : Q) : negb (Qle_bool a b) = Qltb b a.
Proof.
  destruct (Qle_bool a b) eqn:E1, (Qltb b a) eqn:E2; try reflexivity; exfalso.
  - apply Qle_bool_iff in E1. apply Qltb_lt in E2. lra.
  - apply Qltb_ge in E2. apply Qle_bool_iff in E2. congruence.
Qed.

Section SelectorFacts.

Variable haversine : Q -> Q -> Q -> Q -> option Q.


(** [score haversine] flags exactly the providers that are out of radius. *)
Lemma score_flag clat clng a :
  fst (fst (score haversine clat clng a)) = if out_of_radius haversine clat clng a then 1 else 0.
Proof.
  unfold score, out_of_radius.
  destruct clat, clng; try reflexivity.
  destruct (service_radius_km a); try reflexivity.
  destruct (Qltb _ NEAR_LIMIT); simpl; [|reflexivity].
  rewrite negb_Qle_bool. destruct (Qltb _ _); reflexivity.
Qed.

Lemma within_radius_not_flagged clat clng a :
  within_radius haversine clat clng a = true ->
  out_of_radius haversine (Some clat) (Some clng) a = false.
Proof.
  unfold within_radius, out_of_radius, _distance_km, radius_of.
  destruct (shop_lat a), (shop_lng a), (service_radius_km a); try discriminate.
  destruct (haversine _ _ _ _); try discriminate.
  rewrite int_or_zero. intros H.
  apply andb_false_iff. right. now rewrite <- negb_Qle_bool, H.
Qed.

Lemma within_not_exceeds clat clng a :
  within_radius haversine clat clng a = true -> exceeds_radius haversine clat clng a = false.
Proof.
  unfold within_radius, exceeds_radius.
  destruct (shop_lat a), (shop_lng a), (service_radius_km a); try reflexivity.
  destruct (haversine _ _ _ _); try reflexivity.
  intros H. now rewrite <- negb_Qle_bool, H.
Qed.

(** Membership in the fallback list. *)
Lemma elem_of_inrad clat clng anns t :
  t ∈ inrad_of haversine (Some clat) (Some clng) anns ->
  snd t ∈ anns /\ exists r, service_radius_km (snd t) = Some r /\
    Qltb (_distance_km haversine (Some clat) (Some clng) (snd t)) NEAR_LIMIT = true /\
    Qle_bool (_distance_km haversine (Some clat) (Some clng) (snd t)) (inject_Z r) = true.
Proof.
  unfold inrad_of. rewrite list_elem_of_omap.
  intros (a & Ha & Hq). destruct (service_radius_km a) as [r|] eqn:Er; [|discriminate].
  destruct (Qltb _ _ && Qle_bool _ _) eqn:Hc; [|discriminate].
  injection Hq as <-. simpl. split; [assumption|].
  apply andb_true_iff in Hc as [H1 H2].
  exists r. unfold radius_of in H2. rewrite Er, int_or_zero in H2. auto.
Qed.

Lemma pool_nonempty (pin : option string) (anns : list User) :
  anns <> [] ->
  let phase1 :=
    match pin with
    | Some p => if Py.truthy p then List.filter (same_pincode p) anns else []
    | None => []
    end in
  match phase1 with [] => anns | _ :: _ => phase1 end <> [].
Proof. intros Hne phase1. destruct phase1; [assumption|discriminate]. Qed.

(** What [select_best_annachi haversine] returns, phase by phase. *)
Lemma select_unfold all_users pin clat clng :
  let anns_all := List.filter is_annachi all_users in
  let phase1 :=
    match pin with
    | Some p => if Py.truthy p then List.filter (same_pincode p) anns_all else []
    | None => []
    end in
  let pool := match phase1 with [] => anns_all | _ :: _ => phase1 end in
  (anns_all = [] /\ select_best_annachi haversine all_users pin clat clng = (None, None)) \/
  (exists ch0 ch,
      head (Py.sorted key3_ltb (score haversine clat clng) pool) = Some ch0 /\
      In ch0 pool /\
      ch = match clat, clng with
           | Some _, Some _ =>
               if out_of_radius haversine clat clng ch0 then
                 match Py.sorted key2_ltb (fun t => (fst (fst t), snd (fst t)))
                         (inrad_of haversine clat clng anns_all) with
                 | t :: _ => snd t
                 | [] => ch0
                 end
               else ch0
           | _, _ => ch0
           end /\
      select_best_annachi haversine all_users pin clat clng =
        (Some ch,
         match clat, clng with
         | Some _, Some _ =>
             let dd := _distance_km haversine clat clng ch in
             if Qltb dd NEAR_LIMIT then Some (Py.round3 dd) else None
         | _, _ => None
         end)).
Proof.
  intros anns_all phase1 pool.
  unfold select_best_annachi. cbv zeta.
  change (List.filter is_annachi all_users) with anns_all.
  change (match pin with
          | Some p => if Py.truthy p then List.filter (same_pincode p) anns_all else []
          | None => []
          end) with phase1.
  change (match phase1 with [] => anns_all | _ :: _ => phase1 end) with pool.
  destruct (decide (anns_all = [])) as [Ea|Ea].
  { left. split; [assumption|]. now rewrite Ea. }
  right.
  assert (pool <> []) as Hne by (now apply pool_nonempty).
  destruct (sorted_head_is_Some key3_ltb (score haversine clat clng) pool Hne) as [ch0 Hch0].
  rewrite Hch0. clearbody pool phase1.
  destruct anns_all as [|a0 rest] eqn:Eanns; [congruence|]. rewrite <- Eanns.
  exists ch0.
  eexists. split; [reflexivity|]. split; [eapply sorted_head_In; eassumption|].
  split; [reflexivity|].
  destruct clat, clng; try reflexivity.
  destruct (out_of_radius haversine _ _ ch0); [|reflexivity].
  destruct (Py.sorted key2_ltb _ _); reflexivity.
Qed.

(** The route answers 404 exactly when the table has no annachi. *)
Lemma api_nearest_annachi_not_found all_users pin lat lng :
  api_nearest_annachi haversine all_users pin lat lng = NearestNotFound <->
  List.filter is_annachi all_users = [].
Proof.
  unfold api_nearest_annachi.
  destruct (select_unfold all_users pin lat lng)
    as [[Ea ->]|(ch0 & ch & _ & Hpool & _ & ->)]; [tauto|].
  split; [discriminate|]. intros Ea. exfalso.
  rewrite Ea in Hpool.
  destruct pin as [p|]; [destruct (Py.truthy p)|]; simpl in Hpool; destruct Hpool.
Qed.

End SelectorFacts.

Section SelectorClaims.

Variable haversine : Q -> Q -> Q -> Q -> option Q.

(** A computed great-circle distance stays below the threshold [10**8]
    (half the circumference of the sphere is about 20015 km). *)
Hypothesis haversine_below_limit :
  forall lat1 lon1 lat2 lon2 d,
    haversine lat1 lon1 lat2 lon2 = Some d -> (d < NEAR_LIMIT)%Q.


Lemma not_flagged_not_exceeds clat clng a :
  out_of_radius haversine (Some clat) (Some clng) a = false ->
  exceeds_radius haversine clat clng a = false.
Proof.
  unfold exceeds_radius, out_of_radius, _distance_km, radius_of.
  destruct (shop_lat a), (shop_lng a), (service_radius_km a); try reflexivity.
  destruct (haversine _ _ _ _) as [d|] eqn:Hd; [|reflexivity].
  rewrite int_or_zero. intros H. apply andb_false_iff in H as [H|H]; [|exact H].
  apply haversine_below_limit in Hd. apply Qltb_ge in H. lra.
Qed.

Lemma in_fallback_not_exceeds clat clng a r :
  service_radius_km a = Some r ->
  Qle_bool (_distance_km haversine (Some clat) (Some clng) a) (inject_Z r) = true ->
  exceeds_radius haversine clat clng a = false.
Proof.
  unfold exceeds_radius, _distance_km. intros -> H.
  destruct (shop_lat a), (shop_lng a); try reflexivity.
  destruct (haversine _ _ _ _); [|reflexivity].
  now rewrite <- negb_Qle_bool, H.
Qed.

Lemma within_radius_in_fallback clat clng anns a :
  In a anns -> within_radius haversine clat clng a = true ->
  inrad_of haversine (Some clat) (Some clng) anns <> [].
Proof.
  intros Hin Hw Hnil.
  assert ((_distance_km haversine (Some clat) (Some clng) a, user_id a, a)
            ∈ inrad_of haversine (Some clat) (Some clng) anns) as Hel.
  { unfold inrad_of. apply list_elem_of_omap. exists a.
    split; [now apply list_elem_of_In|].
    revert Hw. unfold within_radius, _distance_km, radius_of.
    destruct (shop_lat a), (shop_lng a), (service_radius_km a); try discriminate.
    destruct (haversine _ _ _ _) as [d|] eqn:Hd; [|discriminate].
    rewrite int_or_zero. intros ->.
    apply haversine_below_limit, Qltb_lt in Hd. now rewrite Hd. }
  rewrite Hnil in Hel. inversion Hel.
Qed.

(** C3 (in-radius guarantee).  When the consumer sends coordinates and some
    provider of the pool has coordinates and lies within its own service
    radius, the provider returned by [select_best_annachi haversine] does not lie
    farther from the consumer than its own service radius. *)
Theorem select_in_radius_guarantee all_users pin clat clng a chosen dist :
  In a all_users -> is_annachi a = true ->
  within_radius haversine clat clng a = true ->
  select_best_annachi haversine all_users pin (Some clat) (Some clng) = (Some chosen, dist) ->
  exceeds_radius haversine clat clng chosen = false.
Proof.
  intros Hin Hrole Hw Hsel.
  assert (In a (List.filter is_annachi all_users)) as Ha by (apply filter_In; auto).
  destruct (select_unfold haversine all_users pin (Some clat) (Some clng))
    as [[Ea _]|(ch0 & ch & _ & _ & Hch & Hs)].
  { rewrite Ea in Ha. destruct Ha. }
  rewrite Hs in Hsel. injection Hsel as <- _. subst ch.
  destruct (out_of_radius haversine (Some clat) (Some clng) ch0) eqn:Hflag.
  - pose proof (within_radius_in_fallback _ _ _ _ Ha Hw) as Hne.
    destruct (Py.sorted key2_ltb _ (inrad_of haversine _ _ _)) as [|t ts] eqn:Es.
    { apply sorted_nil_inv in Es. contradiction. }
    assert (In t (inrad_of haversine (Some clat) (Some clng) (List.filter is_annachi all_users))) as Ht.
    { eapply sorted_In. rewrite Es. now left. }
    apply list_elem_of_In, elem_of_inrad in Ht as (_ & r & Hr & _ & Hle).
    eapply in_fallback_not_exceeds; eassumption.
  - now apply not_flagged_not_exceeds.
Qed.

Lemma flag_order (k1 k2 : Z * Q * Z) :
  fst (fst k1) = 0 -> fst (fst k2) = 1 -> key3_ltb k1 k2 = true.
Proof.
  destruct k1 as [[f1 d1] i1], k2 as [[f2 d2] i2]. simpl. intros -> ->. reflexivity.
Qed.

(** C4 (postal-code preference).  When the request carries a postal code
    and some provider with the same trimmed postal code is within its own
    radius, or the consumer's GPS position is missing, the provider
    returned has the requested postal code, whatever the distances of the
    providers with another postal code. *)
Theorem select_prefers_same_pincode all_users pin clat clng a :
  Py.truthy pin = true ->
  In a all_users -> is_annachi a = true -> same_pincode pin a = true ->
  (clat = None \/ clng = None \/
   exists la lo, clat = Some la /\ clng = Some lo /\ within_radius haversine la lo a = true) ->
  exists chosen dist,
    select_best_annachi haversine all_users (Some pin) clat clng = (Some chosen, dist) /\
    In chosen all_users /\ is_annachi chosen = true /\
    same_pincode pin chosen = true.
Proof.
  intros Hpin Hin Hrole Hsame Hgps.
  assert (In a (List.filter is_annachi all_users)) as Ha by (apply filter_In; auto).
  assert (In a (List.filter (same_pincode pin) (List.filter is_annachi all_users)))
    as Ha1 by (apply filter_In; auto).
  destruct (select_unfold haversine all_users (Some pin) clat clng)
    as [[Ea _]|(ch0 & ch & Hhead & Hpool & Hch & Hs)].
  { rewrite Ea in Ha. destruct Ha. }
  rewrite Hpin in Hhead, Hpool.
  destruct (List.filter (same_pincode pin) (List.filter is_annachi all_users))
    as [|p0 ps] eqn:Ep; [destruct Ha1|]. rewrite <- Ep in *.
  assert (ch = ch0) as ->.
  { destruct Hgps as [->|[->|(la & lo & -> & -> & Hw)]]; subst ch;
      [reflexivity|destruct clat; reflexivity|].
    destruct (out_of_radius haversine (Some la) (Some lo) ch0) eqn:Hflag; [exfalso|reflexivity].
    pose proof (sorted_head_least key3_ltb (score haversine (Some la) (Some lo))
                  key3_ltb_asym key3_ltb_negtrans _ _ Hhead a Ha1) as Hleast.
    rewrite flag_order in Hleast; [discriminate| |].
    - rewrite score_flag. now rewrite (within_radius_not_flagged haversine la lo a Hw).
    - rewrite score_flag. now rewrite Hflag. }
  exists ch0. eexists. split; [exact Hs|].
  apply filter_In in Hpool as [Hpool Hsp]. apply filter_In in Hpool as [Hu Hr]. auto.
Qed.



End SelectorClaims.

(** ** Bundle placement *)

Lemma normalize_items_spec items acc :
  normalize_items items acc =
  match List.find invalid_item items with
  | Some it => inl it
  | None => inr (acc ++ map normalize items)
  end.
Proof.
  revert acc. induction items as [|it rest IH]; intros acc; simpl.
  - now rewrite app_nil_r.
  - fold (invalid_item it). destruct (invalid_item it); [reflexivity|].
    rewrite IH. destruct (List.find invalid_item rest); [reflexivity|].
    now rewrite <- app_assoc.
Qed.

Lemma check_items_spec ann ps items unavailable found_rows :
  check_items ann ps items unavailable found_rows =
  (unavailable ++ omap (line_problem ann ps) items,
   found_rows ++ omap (line_found ann ps) items).
Proof.
  revert unavailable found_rows.
  induction items as [|it rest IH]; intros un fr; simpl.
  - now rewrite !app_nil_r.
  - unfold line_problem, line_found.
    destruct (find_product ann it ps) as [prod|]; [destruct (stock prod <? it_qty it)|];
      rewrite IH; simpl; now rewrite <- ?app_assoc.
Qed.

Lemma line_problem_available ann ps it :
  line_problem ann ps it = None <-> available ann ps it = true.
Proof.
  unfold line_problem, available.
  destruct (find_product ann it ps) as [prod|]; [|easy].
  destruct (stock prod <? it_qty it); easy.
Qed.

Lemma line_found_available ann ps it :
  available ann ps it = true ->
  exists prod, find_product ann it ps = Some prod /\ it_qty it <= stock prod /\
               line_found ann ps it = Some (prod, it_qty it).
Proof.
  unfold line_found, available.
  destruct (find_product ann it ps) as [prod|]; [|discriminate].
  destruct (stock prod <? it_qty it) eqn:E; [discriminate|]. intros _.
  exists prod. apply Z.ltb_ge in E. auto.
Qed.

Lemma problems_nil ann ps items :
  omap (line_problem ann ps) items = [] <->
  forall it, In it items -> available ann ps it = true.
Proof.
  induction items as [|it rest IH]; simpl.
  - split; [intros _ ? []|reflexivity].
  - change (omap (line_problem ann ps) (it :: rest))
      with (match line_problem ann ps it with
            | Some u => u :: omap (line_problem ann ps) rest
            | None => omap (line_problem ann ps) rest
            end).
    destruct (line_problem ann ps it) eqn:E.
    + split; [discriminate|]. intros H. exfalso.
      assert (available ann ps it = true) as Ha by (apply H; now left).
      apply line_problem_available in Ha. congruence.
    + rewrite IH. apply line_problem_available in E.
      split; [intros H x [<-|Hx]; auto | intros H x Hx; apply H; now right].
Qed.

Lemma found_all ann ps items :
  (forall it, In it items -> available ann ps it = true) ->
  Forall2 (fun it r => find_product ann it ps = Some (fst r) /\ snd r = it_qty it /\
                       it_qty it <= stock (fst r))
          items (omap (line_found ann ps) items).
Proof.
  induction items as [|it rest IH]; intros H; [constructor|].
  change (omap (line_found ann ps) (it :: rest))
    with (match line_found ann ps it with
          | Some u => u :: omap (line_found ann ps) rest
          | None => omap (line_found ann ps) rest
          end).
  destruct (line_found_available ann ps it) as (prod & Hf & Hq & ->); [apply H; now left|].
  constructor; [simpl; auto|]. apply IH. intros x Hx. apply H. now right.
Qed.

Lemma create_orders_spec uid ann_id bundle rows next_id ps created :
  create_orders uid ann_id bundle rows next_id ps created =
  (fold_left (fun acc r => purchase (product_id (fst r)) (snd r) acc) rows ps,
   created ++ new_orders uid ann_id bundle rows next_id).
Proof.
  revert next_id ps created.
  induction rows as [|[prod qty] rest IH]; intros next_id ps created; simpl.
  - now rewrite app_nil_r.
  - rewrite IH. now rewrite <- app_assoc.
Qed.

Lemma new_orders_lines uid ann_id bundle rows next_id :
  Forall2 (fun r o =>
             consumer_id o = uid /\ order_product_id o = product_id (fst r) /\
             quantity o = snd r /\ status o = "Pending"%string /\
             assigned_annachi_id o = Some ann_id /\ bundle_id o = Some bundle)
          rows (new_orders uid ann_id bundle rows next_id).
Proof.
  revert next_id. induction rows as [|r rest IH]; intros next_id; simpl; constructor; auto.
  simpl. auto 10.
Qed.

Lemma purchase_row_id qty p : product_id (purchase_row qty p) = product_id p.
Proof. reflexivity. Qed.

(** The effect of the creation loop on one row of the product table. *)
Lemma purchases_rowwise rows ps :
  Forall2 (fun p p' =>
             product_id p' = product_id p /\ name p' = name p /\
             category p' = category p /\ pincode p' = pincode p /\
             owner_id p' = owner_id p /\
             stock p' = stock p - sold (product_id p) rows /\
             Py.int_or (total_purchased p') 0 =
               Py.int_or (total_purchased p) 0 + sold (product_id p) rows /\
             (sold (product_id p) rows = 0 /\
              List.filter (fun r => bool_decide (product_id (fst r) = product_id p)) rows = []
              -> p' = p))
          ps (fold_left (fun acc r => purchase (product_id (fst r)) (snd r) acc) rows ps).
Proof.
  revert ps. induction rows as [|[prod qty] rest IH]; intros ps; simpl.
  - apply Forall2_same_length_lookup_2; [reflexivity|].
    intros i p p' H1 H2. assert (p' = p) as -> by congruence.
    unfold sold. simpl. repeat split; auto; lia.
  - specialize (IH (purchase (product_id prod) qty ps)).
    unfold purchase in IH at 1. apply Forall2_fmap_l in IH.
    eapply Forall2_impl; [exact IH|]. clear IH. intros p p'. simpl.
    unfold sold. simpl.
    destruct (bool_decide (product_id p = product_id prod)) eqn:E.
    + apply bool_decide_eq_true in E.
      rewrite (bool_decide_eq_true_2 (product_id prod = product_id p)) by congruence.
      simpl. rewrite int_or_zero.
      intros (H1 & H2 & H3 & H4 & H5 & H6 & H7 & _).
      repeat split; auto; try lia. intros [_ [=]].
    + apply bool_decide_eq_false in E.
      rewrite (bool_decide_eq_false_2 (product_id prod = product_id p)) by congruence.
      auto.
Qed.

Section PlacementClaims.

Variable haversine : Q -> Q -> Q -> Q -> option Q.

(** The answer of [orders_create_auto] once the request is past the
    validation loop and a provider is selected. *)
Lemma orders_create_auto_selected current_user now_ms commit_ok items
    consumer_info db normalized ann dist :
  role current_user = "consumer"%string ->
  items <> [] ->
  normalize_items items [] = inr normalized ->
  select_best_annachi haversine (users db) (ci_pincode consumer_info)
    (ci_lat consumer_info) (ci_lng consumer_info) = (Some ann, dist) ->
  orders_create_auto haversine current_user now_ms commit_ok items consumer_info db =
  match omap (line_problem ann (products db)) normalized with
  | (_ :: _) as unavailable =>
      (Conflict (user_id ann) (user_pincode ann) dist unavailable, db, [])
  | [] =>
      let bundle := auto_bundle_id now_ms (user_id current_user) (user_id ann) in
      let rows := omap (line_found ann (products db)) normalized in
      let ps' := fold_left (fun acc r => purchase (product_id (fst r)) (snd r) acc)
                   rows (products db) in
      let created := new_orders (user_id current_user) (user_id ann) bundle rows
                       (next_order_id (orders db)) in
      if commit_ok then
        (Created (map order_id created) bundle (user_id ann) dist,
         mkDb (users db) ps' (orders db ++ created),
         map (new_order_event ps') created)
      else (CreateFailed, db, [])
  end.
Proof.
  intros Hrole Hne Hnorm Hsel. unfold orders_create_auto.
  rewrite (bool_decide_eq_true_2 _ Hrole). simpl negb. cbv iota.
  destruct items as [|it0 rest]; [contradiction|].
  rewrite Hnorm, Hsel, check_items_spec. simpl app.
  destruct (omap (line_problem ann (products db)) normalized); [|reflexivity].
  now rewrite create_orders_spec.
Qed.

Lemma normalized_nonempty items normalized :
  normalize_items items [] = inr normalized -> normalized <> [] -> items <> [].
Proof. intros H Hn ->. simpl in H. congruence. Qed.

(** C1 (all-or-nothing reservation).  When a line of the request is not
    available from the selected provider (no matching row, or less stock
    than asked), the call answers with a conflict that lists every
    unavailable line, and the store, with the stock and the
    [total_purchased] counter of every product, is the one from before the
    call. *)
Theorem reservation_all_or_nothing current_user now_ms commit_ok items
    consumer_info db normalized ann dist :
  role current_user = "consumer"%string ->
  normalize_items items [] = inr normalized ->
  select_best_annachi haversine (users db) (ci_pincode consumer_info)
    (ci_lat consumer_info) (ci_lng consumer_info) = (Some ann, dist) ->
  (exists it, In it normalized /\ available ann (products db) it = false) ->
  let unavailable := omap (line_problem ann (products db)) normalized in
  orders_create_auto haversine current_user now_ms commit_ok items consumer_info db =
    (Conflict (user_id ann) (user_pincode ann) dist unavailable, db, []) /\
  (forall it, In it normalized -> available ann (products db) it = false ->
              exists u, line_problem ann (products db) it = Some u /\ In u unavailable).
Proof.
  intros Hrole Hnorm Hsel (bad & Hbad & Hun) unavailable.
  assert (forall it, In it normalized -> available ann (products db) it = false ->
            exists u, line_problem ann (products db) it = Some u /\ In u unavailable)
    as Hfull.
  { intros it Hit Hav. destruct (line_problem ann (products db) it) as [u|] eqn:E.
    - exists u. split; [reflexivity|]. apply list_elem_of_In, list_elem_of_omap.
      exists it. split; [now apply list_elem_of_In|assumption].
    - apply line_problem_available in E. congruence. }
  split; [|exact Hfull].
  rewrite (orders_create_auto_selected _ _ _ _ _ _ normalized ann dist); auto.
  - fold unavailable. destruct (Hfull bad Hbad Hun) as (u & _ & Hu).
    destruct unavailable; [destruct Hu|reflexivity].
  - eapply normalized_nonempty; [eassumption|]. intros ->. destruct Hbad.
Qed.

(** C5 (success postcondition).  When every line is available from the
    selected provider and the write goes through, the call returns one
    bundle id and one order id per item; each new line is Pending, assigned
    to the selected provider and carries the bundle id, for the product row
    and quantity of its item; each product row loses from its stock the
    quantity requested for it and gains as much on [total_purchased]. *)
Theorem placement_success current_user now_ms items consumer_info db
    normalized ann dist :
  role current_user = "consumer"%string ->
  items <> [] ->
  normalize_items items [] = inr normalized ->
  select_best_annachi haversine (users db) (ci_pincode consumer_info)
    (ci_lat consumer_info) (ci_lng consumer_info) = (Some ann, dist) ->
  (forall it, In it normalized -> available ann (products db) it = true) ->
  let bundle := auto_bundle_id now_ms (user_id current_user) (user_id ann) in
  let rows := omap (line_found ann (products db)) normalized in
  exists created ps',
    orders_create_auto haversine current_user now_ms true items consumer_info db =
      (Created (map order_id created) bundle (user_id ann) dist,
       mkDb (users db) ps' (orders db ++ created),
       map (new_order_event ps') created) /\
    length created = length items /\
    Forall2 (fun it r => find_product ann it (products db) = Some (fst r) /\
                         snd r = it_qty it /\ it_qty it <= stock (fst r))
            normalized rows /\
    Forall2 (fun r o =>
               consumer_id o = user_id current_user /\
               order_product_id o = product_id (fst r) /\
               quantity o = snd r /\ status o = "Pending"%string /\
               assigned_annachi_id o = Some (user_id ann) /\
               bundle_id o = Some bundle)
            rows created /\
    Forall2 (fun p p' =>
               product_id p' = product_id p /\
               stock p' = stock p - sold (product_id p) rows /\
               Py.int_or (total_purchased p') 0 =
                 Py.int_or (total_purchased p) 0 + sold (product_id p) rows)
            (products db) ps'.
Proof.
  intros Hrole Hne Hnorm Hsel Hav bundle rows.
  rewrite (orders_create_auto_selected _ _ _ _ _ _ normalized ann dist); auto.
  rewrite (proj2 (problems_nil ann (products db) normalized) Hav).
  fold bundle. fold rows. cbv zeta.
  eexists. eexists. split; [reflexivity|].
  pose proof (found_all ann (products db) normalized Hav) as Hfound. fold rows in Hfound.
  pose proof (new_orders_lines (user_id current_user) (user_id ann) bundle rows
                (next_order_id (orders db))) as Hlines.
  split; [|split; [exact Hfound|split; [exact Hlines|]]].
  - rewrite <- (Forall2_length _ _ _ Hlines), <- (Forall2_length _ _ _ Hfound).
    rewrite normalize_items_spec in Hnorm.
    destruct (List.find invalid_item items); [discriminate|].
    injection Hnorm as <-. simpl. now rewrite length_map.
  - eapply Forall2_impl; [apply purchases_rowwise|]. simpl. intuition.
Qed.

(** The validation loop answers with the first invalid item, whatever
    follows it, and leaves the store alone. *)
Lemma orders_create_auto_invalid current_user now_ms commit_ok valid bad rest
    consumer_info db :
  role current_user = "consumer"%string ->
  Forall (fun it => invalid_item it = false) valid ->
  invalid_item bad = true ->
  orders_create_auto haversine current_user now_ms commit_ok
    (valid ++ bad :: rest) consumer_info db = (InvalidLineItem bad, db, []).
Proof.
  intros Hrole Hvalid Hbad. unfold orders_create_auto.
  rewrite (bool_decide_eq_true_2 _ Hrole). simpl negb. cbv iota.
  assert (List.find invalid_item (valid ++ bad :: rest) = Some bad) as Hfind.
  { induction Hvalid as [|v vs Hv _ IH]; simpl; [now rewrite Hbad|now rewrite Hv]. }
  rewrite normalize_items_spec, Hfind.
  destruct (valid ++ bad :: rest) eqn:E; [|reflexivity].
  now destruct valid.
Qed.

Lemma line_problem_reason ann ps it u :
  line_problem ann ps it = Some u ->
  u = mkUnavailable (it_name it) (it_category it) (reason_of ann ps it).
Proof.
  unfold line_problem, reason_of.
  destruct (find_product ann it ps) as [prod|]; [|congruence].
  destruct (stock prod <? it_qty it); congruence.
Qed.

(** C7, as amended (problem reporting).  The validation loop stops at the
    first invalid item and names that item only.  The availability check
    goes through every line: the conflict lists, in request order, exactly
    the unavailable lines, each with the reason
    "not_found_for_selected_annachi" or "insufficient_stock (<n> left)". *)
Theorem problem_reporting :
  (forall current_user now_ms commit_ok valid bad rest consumer_info db,
      role current_user = "consumer"%string ->
      Forall (fun it => invalid_item it = false) valid ->
      invalid_item bad = true ->
      orders_create_auto haversine current_user now_ms commit_ok
        (valid ++ bad :: rest) consumer_info db = (InvalidLineItem bad, db, [])) /\
  (forall current_user now_ms commit_ok items consumer_info db normalized ann dist,
      role current_user = "consumer"%string ->
      normalize_items items [] = inr normalized ->
      select_best_annachi haversine (users db) (ci_pincode consumer_info)
        (ci_lat consumer_info) (ci_lng consumer_info) = (Some ann, dist) ->
      (exists it, In it normalized /\ available ann (products db) it = false) ->
      orders_create_auto haversine current_user now_ms commit_ok items consumer_info db =
        (Conflict (user_id ann) (user_pincode ann) dist
           (map (fun it => mkUnavailable (it_name it) (it_category it)
                             (reason_of ann (products db) it))
                (List.filter (fun it => negb (available ann (products db) it)) normalized)),
         db, [])).
Proof.
  split; [apply orders_create_auto_invalid|].
  intros current_user now_ms commit_ok items consumer_info db normalized ann dist
         Hrole Hnorm Hsel (bad & Hbad & Hun).
  assert (omap (line_problem ann (products db)) normalized =
          map (fun it => mkUnavailable (it_name it) (it_category it)
                           (reason_of ann (products db) it))
              (List.filter (fun it => negb (available ann (products db) it)) normalized))
    as Hlist.
  { clear. induction normalized as [|it rest IH]; [reflexivity|].
    change (omap (line_problem ann (products db)) (it :: rest))
      with (match line_problem ann (products db) it with
            | Some u => u :: omap (line_problem ann (products db)) rest
            | None => omap (line_problem ann (products db)) rest
            end).
    simpl List.filter.
    destruct (line_problem ann (products db) it) as [u|] eqn:E.
    - destruct (available ann (products db) it) eqn:Ea.
      + apply line_problem_available in Ea. congruence.
      + simpl. now rewrite IH, (line_problem_reason _ _ _ _ E).
    - apply line_problem_available in E. now rewrite E. }
  rewrite (orders_create_auto_selected _ _ _ _ _ _ normalized ann dist); auto.
  - rewrite Hlist.
    destruct (List.filter _ normalized) eqn:Ef; [|reflexivity].
    assert (In bad (List.filter (fun it => negb (available ann (products db) it)) normalized))
      as Hin by (apply filter_In; now rewrite Hun).
    rewrite Ef in Hin. destruct Hin.
  - eapply normalized_nonempty; [eassumption|]. intros ->. destruct Hbad.
Qed.

End PlacementClaims.

(** ** Bundles and providers *)

Lemma after_last_cons c x t r :
  after_last c t = Some r -> after_last c (String x t) = Some r.
Proof. simpl. now intros ->. Qed.

Lemma after_last_app c s t r :
  after_last c t = Some r -> after_last c (s +:+ t) = Some r.
Proof. intros H. induction s as [|x s IH]; [exact H|]. simpl. now rewrite IH. Qed.

Lemma after_last_here c d :
  after_last c d = None -> after_last c (String c d) = Some d.
Proof. simpl. intros ->. now rewrite bool_decide_eq_true_2. Qed.

(** Decimal numerals contain no letter. *)
Lemma digits_no_A x s :
  after_last "A" s = None -> after_last "A" (pretty_N_go x s) = None.
Proof.
  revert s. induction (N.lt_wf_0 x) as [x _ IH]. intros s Hs.
  destruct (N.eq_dec x 0%N) as [->|Hx]; [exact Hs|].
  rewrite pretty_N_go_step by lia. apply IH; [apply N.div_lt; lia|].
  simpl. rewrite Hs. unfold pretty_N_char. now repeat case_match.
Qed.

Lemma str_of_int_no_A n : after_last "A" (Py.str_of_int n) = None.
Proof.
  assert (forall p : positive, after_last "A" (pretty p) = None) as Hpos.
  { intros p. unfold pretty, pretty_positive, pretty, pretty_N.
    case_decide; [reflexivity|]. now apply digits_no_A. }
  unfold Py.str_of_int, pretty, pretty_Z. destruct n as [|p|p]; [reflexivity|apply Hpos|].
  change ("-" +:+ pretty p) with (String "-" (pretty p)).
  cbn [after_last]. now rewrite Hpos.
Qed.

(** The provider id can be read back from an auto bundle id. *)
Lemma auto_bundle_id_provider now_ms uid ann_id :
  after_last "A" (auto_bundle_id now_ms uid ann_id) = Some (Py.str_of_int ann_id).
Proof.
  unfold auto_bundle_id.
  apply after_last_app. simpl append. apply after_last_cons, after_last_app.
  simpl append. apply after_last_cons, after_last_here, str_of_int_no_A.
Qed.

Lemma auto_bundle_id_inj now1 uid1 ann1 now2 uid2 ann2 :
  auto_bundle_id now1 uid1 ann1 = auto_bundle_id now2 uid2 ann2 -> ann1 = ann2.
Proof.
  intros H. apply (f_equal (after_last "A")) in H.
  rewrite !auto_bundle_id_provider in H. injection H as H.
  now apply pretty_Z_inj in H.
Qed.

Lemma after_last_none_cons c x t :
  x <> c -> after_last c t = None -> after_last c (String x t) = None.
Proof. intros Hx Ht. simpl. rewrite Ht. now rewrite bool_decide_eq_false_2. Qed.

Lemma after_last_none_app c s t :
  after_last c s = None -> after_last c t = None -> after_last c (s +:+ t) = None.
Proof.
  intros Hs Ht. induction s as [|x s IH]; [exact Ht|].
  simpl in Hs. destruct (after_last c s) eqn:E; [discriminate|].
  destruct (bool_decide (x = c)) eqn:Ex; [discriminate|].
  simpl. now rewrite IH, Ex.
Qed.

(** The legacy bundle ids contain no capital A: they are not auto ids. *)
Lemma legacy_bundle_id_no_A now_ms uid :
  after_last "A" (legacy_bundle_id now_ms uid) = None.
Proof.
  unfold legacy_bundle_id.
  apply after_last_none_app; [apply str_of_int_no_A|]. simpl append.
  apply after_last_none_cons; [discriminate|].
  apply after_last_none_app; [apply str_of_int_no_A|reflexivity].
Qed.

Lemma single_bundle_id_no_A now_ms uid :
  after_last "A" (single_bundle_id now_ms uid) = None.
Proof.
  unfold single_bundle_id.
  apply after_last_none_app; [apply str_of_int_no_A|]. simpl append.
  apply after_last_none_cons; [discriminate|].
  apply after_last_none_app; [apply str_of_int_no_A|reflexivity].
Qed.

Lemma no_A_names_provider o b :
  bundle_id o = Some b -> after_last "A" b = None -> names_provider o.
Proof.
  intros Hb Hno t u a E. rewrite Hb in E. injection E as ->.
  rewrite auto_bundle_id_provider in Hno. discriminate.
Qed.

Lemma names_provider_single os :
  Forall names_provider os -> auto_single_provider os.
Proof.
  intros Hall o1 o2 b H1 H2 Hb1 Hb2 (t & u & a & ->).
  rewrite Forall_forall in Hall.
  rewrite (Hall o1 (proj2 (list_elem_of_In _ _) H1) t u a Hb1).
  now rewrite (Hall o2 (proj2 (list_elem_of_In _ _) H2) t u a Hb2).
Qed.

Lemma new_orders_named uid ann_id now_ms rows next_id :
  Forall names_provider
    (new_orders uid ann_id (auto_bundle_id now_ms uid ann_id) rows next_id).
Proof.
  revert next_id. induction rows as [|r rest IH]; intros next_id; simpl; constructor; auto.
  intros t u a E. simpl in *. injection E as E. f_equal.
  symmetry. now apply auto_bundle_id_inj in E.
Qed.

Lemma set_status_named st o : names_provider o -> names_provider (set_status st o).
Proof. intros H t u a E. exact (H t u a E). Qed.

Lemma legacy_loop_named uid bundle items next_id ps created ps' created' :
  after_last "A" bundle = None ->
  Forall names_provider created ->
  legacy_loop uid bundle items next_id ps created = inr (ps', created') ->
  Forall names_provider created'.
Proof.
  intros Hno. revert next_id ps created.
  induction items as [|it rest IH]; intros next_id ps created Hc H; simpl in H.
  - now injection H as _ <-.
  - destruct (get_product _ ps) as [product|]; [|discriminate].
    destruct (negb _); [discriminate|].
    destruct (_ <? 1); [discriminate|].
    destruct (stock product <? _); [discriminate|].
    apply IH in H; [exact H|]. apply Forall_app. split; [exact Hc|].
    constructor; [|constructor]. now apply (no_A_names_provider _ bundle).
Qed.

Section BundleClaims.

Variable haversine : Q -> Q -> Q -> Q -> option Q.
Variable int_of_str : string -> option Z.

(** The order table after [orders_create_auto]: unchanged, or extended by
    the lines of one new bundle. *)
Lemma orders_after_placement current_user now_ms commit_ok items consumer_info db :
  let db' := snd (fst (orders_create_auto haversine current_user now_ms commit_ok
                         items consumer_info db)) in
  orders db' = orders db \/
  exists ann_id rows,
    orders db' =
    orders db ++ new_orders (user_id current_user) ann_id
                   (auto_bundle_id now_ms (user_id current_user) ann_id) rows
                   (next_order_id (orders db)).
Proof.
  unfold orders_create_auto.
  destruct (negb _); [now left|]. destruct items as [|it0 rest]; [now left|].
  destruct (normalize_items _ _) as [bad|normalized]; [now left|].
  destruct (select_best_annachi _ _ _ _ _) as [[ann|] dist]; [|now left].
  rewrite check_items_spec. simpl app.
  destruct (omap (line_problem _ _) _); [|now left].
  rewrite create_orders_spec. destruct commit_ok; [|now left].
  right. eexists. eexists. reflexivity.
Qed.

(** The order table after a status update: the same rows, some with a new
    status. *)
Lemma orders_after_update current_user oid new_status db :
  exists f : Order -> Order,
    (forall o, f o = o \/ exists st, f o = set_status st o) /\
    orders (snd (fst (annachi_orders_update int_of_str current_user oid new_status db)))
    = map f (orders db).
Proof.
  assert (exists f : Order -> Order,
             (forall o, f o = o \/ exists st, f o = set_status st o) /\
             orders db = map f (orders db)) as Hid.
  { exists (fun o => o). split; [now left|]. now rewrite map_id. }
  unfold annachi_orders_update.
  destruct (negb _); [exact Hid|].
  destruct (String.prefix _ _).
  - destruct (List.filter _ _) as [|r rows]; [exact Hid|].
    destruct (Py.truthy _); [|exact Hid].
    eexists. split; [|reflexivity]. intros o. simpl.
    destruct (bundle_row _ _ _ o); [right; eauto|now left].
  - destruct (int_of_str oid) as [n|]; [|exact Hid].
    destruct (get_order _ _) as [order|]; [|exact Hid].
    destruct (get_product _ _) as [p|]; [|exact Hid].
    destruct (_ && _); [exact Hid|].
    destruct (Py.truthy _); [|exact Hid].
    eexists. split; [|reflexivity]. intros o. simpl.
    destruct (bool_decide _); [right; eauto|now left].
Qed.

(** The order table after the legacy routes: unchanged, or extended by lines
    whose bundle id is not an auto id. *)
Lemma orders_after_legacy current_user now_ms items db :
  Forall names_provider (orders db) ->
  Forall names_provider (orders (snd (fst (orders_create current_user now_ms items db)))).
Proof.
  intros Hdb. unfold orders_create.
  destruct (negb _); [exact Hdb|]. destruct items as [|it0 rest]; [exact Hdb|].
  destruct (legacy_loop _ _ _ _ _ _) as [err|[ps' created]] eqn:E; [exact Hdb|].
  simpl. apply Forall_app. split; [exact Hdb|].
  eapply legacy_loop_named; [apply legacy_bundle_id_no_A|constructor|exact E].
Qed.

Lemma orders_after_single current_user now_ms pid quantity db :
  Forall names_provider (orders db) ->
  Forall names_provider
    (orders (snd (fst (api_create_order current_user now_ms pid quantity db)))).
Proof.
  intros Hdb. unfold api_create_order.
  destruct (negb _); [exact Hdb|].
  destruct (pid ≫= _) as [product|]; [|exact Hdb].
  destruct (negb _); [exact Hdb|].
  destruct (_ <? 1); [exact Hdb|].
  destruct (stock product <? _); [exact Hdb|].
  simpl. apply Forall_app. split; [exact Hdb|]. constructor; [|constructor].
  eapply no_A_names_provider; [reflexivity|apply single_bundle_id_no_A].
Qed.

Lemma reachable_named db :
  reachable haversine int_of_str db -> Forall names_provider (orders db).
Proof.
  induction 1 as [db Hinit|db u t ok items ci _ IH|db u t items _ IH
                 |db u t pid q _ IH|db u oid st _ IH|db db' _ IH Heq].
  - rewrite Hinit. constructor.
  - destruct (orders_after_placement u t ok items ci db) as [->|(a & rows & ->)];
      [exact IH|].
    apply Forall_app. split; [exact IH|apply new_orders_named].
  - now apply orders_after_legacy.
  - now apply orders_after_single.
  - destruct (orders_after_update u oid st db) as (f & Hf & ->).
    apply Forall_fmap. eapply Forall_impl; [exact IH|]. intros o Ho. simpl.
    destruct (Hf o) as [->|[s ->]]; [exact Ho|now apply set_status_named].
  - now rewrite Heq.
Qed.

(** C2, as amended (one provider per auto-assigned bundle).  In every store
    reached from an empty order table by the order-creating routes
    ([orders_create_auto], [orders_create], [api_create_order]) and status
    updates, two order lines that share a bundle id written by
    [orders_create_auto] have the same assigned provider. *)
Theorem auto_bundles_single_provider db :
  reachable haversine int_of_str db -> auto_single_provider (orders db).
Proof. intros H. apply names_provider_single, reachable_named, H. Qed.

End BundleClaims.

(** ** The foreign key of the order table is kept by the core *)

Lemma get_product_In p ps : In p ps -> is_Some (get_product (product_id p) ps).
Proof.
  intros Hin. unfold get_product.
  destruct (List.find _ ps) as [q|] eqn:E; [now eexists|].
  apply (find_none _ _ E) in Hin. now rewrite bool_decide_eq_true_2 in Hin.
Qed.

Lemma get_product_map (f : Product -> Product) pid ps :
  (forall p, product_id (f p) = product_id p) ->
  get_product pid (map f ps) = f <$> get_product pid ps.
Proof.
  intros Hf. unfold get_product. induction ps as [|p ps IH]; [reflexivity|].
  simpl. rewrite Hf. destruct (bool_decide (product_id p = pid)); [reflexivity|exact IH].
Qed.

Lemma get_product_purchase pid0 qty pid ps :
  is_Some (get_product pid ps) -> is_Some (get_product pid (purchase pid0 qty ps)).
Proof.
  intros [p Hp]. unfold purchase. rewrite get_product_map.
  - rewrite Hp. now eexists.
  - intros q. now destruct (bool_decide _).
Qed.

Lemma get_product_purchases rows pid ps :
  is_Some (get_product pid ps) ->
  is_Some (get_product pid
             (fold_left (fun acc r => purchase (product_id (fst r)) (snd r) acc) rows ps)).
Proof.
  revert ps. induction rows as [|r rows IH]; intros ps H; [exact H|].
  simpl. now apply IH, get_product_purchase.
Qed.

Lemma find_product_In ann it ps prod : find_product ann it ps = Some prod -> In prod ps.
Proof. intros H. now apply find_some in H as [H _]. Qed.

Lemma line_found_In ann ps items r :
  In r (omap (line_found ann ps) items) -> In (fst r) ps.
Proof.
  intros Hr. apply list_elem_of_In, list_elem_of_omap in Hr as (it & _ & Hit).
  unfold line_found in Hit.
  destruct (find_product ann it ps) as [prod|] eqn:E; [|discriminate].
  destruct (_ <? _); [discriminate|]. injection Hit as <-.
  simpl. eapply find_product_In, E.
Qed.

Lemma new_orders_products uid ann_id bundle rows next_id o :
  In o (new_orders uid ann_id bundle rows next_id) ->
  exists r, In r rows /\ order_product_id o = product_id (fst r).
Proof.
  revert next_id. induction rows as [|r rows IH]; intros next_id; simpl; [intros []|].
  intros [<-|Ho]; [exists r; auto|].
  destruct (IH _ Ho) as (r' & Hr' & E). exists r'. auto.
Qed.

Lemma legacy_loop_integrity uid bundle items next_id ps created ps' created' :
  legacy_loop uid bundle items next_id ps created = inr (ps', created') ->
  (forall pid, is_Some (get_product pid ps) -> is_Some (get_product pid ps')) /\
  (Forall (fun o => is_Some (get_product (order_product_id o) ps)) created ->
   Forall (fun o => is_Some (get_product (order_product_id o) ps')) created').
Proof.
  revert next_id ps created.
  induction items as [|it rest IH]; intros next_id ps created H; simpl in H.
  - injection H as <- <-. auto.
  - destruct (get_product _ ps) as [product|] eqn:Ep; [|discriminate].
    destruct (negb _); [discriminate|].
    destruct (_ <? 1); [discriminate|].
    destruct (stock product <? _); [discriminate|].
    apply IH in H as [H1 H2]. split.
    + intros pid Hpid. now apply H1, get_product_purchase.
    + intros Hc. apply H2, Forall_app. split.
      * eapply Forall_impl; [exact Hc|]. intros o Ho. now apply get_product_purchase.
      * constructor; [|constructor]. simpl. apply get_product_purchase.
        apply find_some in Ep as [Hin _]. now apply get_product_In.
Qed.

Section Integrity.

Variable haversine : Q -> Q -> Q -> Q -> option Q.
Variable int_of_str : string -> option Z.

Lemma integrity_after_auto current_user now_ms commit_ok items consumer_info db :
  referential_integrity db ->
  referential_integrity
    (snd (fst (orders_create_auto haversine current_user now_ms commit_ok items
                 consumer_info db))).
Proof.
  intros Hri. unfold orders_create_auto.
  destruct (negb _); [exact Hri|]. destruct items as [|it0 rest]; [exact Hri|].
  destruct (normalize_items _ _) as [bad|normalized]; [exact Hri|].
  destruct (select_best_annachi _ _ _ _ _) as [[ann|] dist]; [|exact Hri].
  rewrite check_items_spec. simpl app.
  destruct (omap (line_problem _ _) _); [|exact Hri].
  rewrite create_orders_spec. destruct commit_ok; [|exact Hri].
  intros o Ho. simpl in *. apply get_product_purchases.
  apply in_app_or in Ho as [Ho|Ho]; [now apply Hri|].
  apply new_orders_products in Ho as (r & Hr & ->).
  apply get_product_In. eapply line_found_In, Hr.
Qed.

Lemma integrity_after_legacy current_user now_ms items db :
  referential_integrity db ->
  referential_integrity (snd (fst (orders_create current_user now_ms items db))).
Proof.
  intros Hri. unfold orders_create.
  destruct (negb _); [exact Hri|]. destruct items as [|it0 rest]; [exact Hri|].
  destruct (legacy_loop _ _ _ _ _ _) as [err|[ps' created]] eqn:E; [exact Hri|].
  apply legacy_loop_integrity in E as [H1 H2].
  intros o Ho. simpl in *. apply in_app_or in Ho as [Ho|Ho]; [now apply H1, Hri|].
  assert (Forall (fun o => is_Some (get_product (order_product_id o) ps')) created)
    as H3 by (apply H2; constructor).
  rewrite Forall_forall in H3.
  now apply H3, list_elem_of_In.
Qed.

Lemma integrity_after_single current_user now_ms pid quantity db :
  referential_integrity db ->
  referential_integrity
    (snd (fst (api_create_order current_user now_ms pid quantity db))).
Proof.
  intros Hri. unfold api_create_order.
  destruct (negb _); [exact Hri|].
  destruct (pid ≫= _) as [product|] eqn:Ep; [|exact Hri].
  destruct (negb _); [exact Hri|].
  destruct (_ <? 1); [exact Hri|].
  destruct (stock product <? _); [exact Hri|].
  intros o Ho. simpl in *. apply get_product_purchase.
  apply in_app_or in Ho as [Ho|[<-|[]]]; [now apply Hri|]. simpl.
  destruct pid as [i|]; [|discriminate]. simpl in Ep.
  apply find_some in Ep as [Hin _]. now apply get_product_In.
Qed.

Lemma integrity_after_update current_user oid new_status db :
  referential_integrity db ->
  referential_integrity
    (snd (fst (annachi_orders_update int_of_str current_user oid new_status db))).
Proof.
  intros Hri.
  assert (forall f : Order -> Order,
             (forall o, order_product_id (f o) = order_product_id o) ->
             referential_integrity (mkDb (users db) (products db) (map f (orders db))))
    as Hmap.
  { intros f Hf o Ho. simpl in *. apply in_map_iff in Ho as (o0 & <- & Ho0).
    rewrite Hf. now apply Hri. }
  unfold annachi_orders_update.
  destruct (negb _); [exact Hri|].
  destruct (String.prefix _ _).
  - destruct (List.filter _ _) as [|r rows]; [exact Hri|].
    destruct (Py.truthy _); [|exact Hri].
    apply Hmap. intros o. now destruct (bundle_row _ _ _ o).
  - destruct (int_of_str oid) as [n|]; [|exact Hri].
    destruct (get_order _ _) as [order|]; [|exact Hri].
    destruct (get_product _ _) as [p|]; [|exact Hri].
    destruct (_ && _); [exact Hri|].
    destruct (Py.truthy _); [|exact Hri].
    apply Hmap. intros o. now destruct (bool_decide _).
Qed.

End Integrity.

(** ** Bundle status updates *)

Lemma bundle_row_authorized uid bundle db o :
  referential_integrity db -> In o (orders db) ->
  bundle_row uid bundle (products db) o =
  in_bundle bundle o && authorized uid (products db) o.
Proof.
  intros Hri Hin. unfold bundle_row, authorized, in_bundle.
  destruct (Hri o Hin) as [p ->]. reflexivity.
Qed.

Lemma Forall2_map_self {A} (P : A -> A -> Prop) (f : A -> A) (l : list A) :
  (forall x, In x l -> P x (f x)) -> Forall2 P l (map f l).
Proof.
  induction l as [|x l IH]; intros H; simpl; constructor.
  - apply H. now left.
  - apply IH. intros y Hy. apply H. now right.
Qed.

Section UpdateClaims.

Variable int_of_str : string -> option Z.

(** The bundle path on any store: the rows of the bundle query get the
    status, the rest of the store is untouched. *)
Lemma bundle_update_rows current_user oid st db :
  role current_user = "annachi"%string ->
  String.prefix "BUNDLE_" oid = true ->
  Py.truthy st = true ->
  let selected := bundle_row (user_id current_user) (drop_chars 7 oid) (products db) in
  let db' := snd (fst (annachi_orders_update int_of_str current_user oid (Some st) db)) in
  users db' = users db /\ products db' = products db /\
  orders db' = map (fun o => if selected o then set_status st o else o) (orders db).
Proof.
  intros Hrole Hpre Hst selected db'. subst db'. unfold annachi_orders_update.
  rewrite (bool_decide_eq_true_2 _ Hrole), Hpre. simpl negb. cbv iota.
  unfold Py.str_or. repeat (rewrite Hst; cbv iota). fold selected.
  destruct (List.filter selected (orders db)) as [|r rows] eqn:Ef; simpl; auto.
  repeat split. rewrite <- (map_id (orders db)) at 1. apply map_ext_in.
  intros o Ho. destruct (selected o) eqn:E; [|reflexivity].
  assert (In o (List.filter selected (orders db))) as Hin by (apply filter_In; auto).
  rewrite Ef in Hin. destruct Hin.
Qed.

(** C8 (bundle status update).  For a caller with the annachi role and a
    target status, the bundle update gives the target status to exactly the
    lines of the bundle whose product the caller owns or that are assigned
    to the caller, and changes nothing else: the other lines, the other
    fields of the updated lines and the other tables stay as they were.
    The call succeeds as soon as one line of the bundle is the caller's,
    whatever other lines the bundle has. *)
Theorem bundle_update_frame current_user oid st db :
  role current_user = "annachi"%string ->
  referential_integrity db ->
  String.prefix "BUNDLE_" oid = true ->
  Py.truthy st = true ->
  let bundle := drop_chars 7 oid in
  let touched o :=
    in_bundle bundle o && authorized (user_id current_user) (products db) o in
  let res := annachi_orders_update int_of_str current_user oid (Some st) db in
  let db' := snd (fst res) in
  users db' = users db /\ products db' = products db /\
  Forall2 (fun o o' =>
             if touched o then
               status o' = st /\ order_id o' = order_id o /\
               consumer_id o' = consumer_id o /\
               order_product_id o' = order_product_id o /\
               quantity o' = quantity o /\
               assigned_annachi_id o' = assigned_annachi_id o /\
               bundle_id o' = bundle_id o
             else o' = o)
          (orders db) (orders db') /\
  ((exists o, In o (orders db) /\ touched o = true) ->
   fst (fst res) = BundleUpdated bundle st) /\
  ((forall o, In o (orders db) -> touched o = false) ->
   fst (fst res) = BundleNotFound).
Proof.
  intros Hrole Hri Hpre Hst bundle touched res db'.
  subst db' res. unfold annachi_orders_update.
  rewrite (bool_decide_eq_true_2 _ Hrole), Hpre. simpl negb. cbv iota.
  fold bundle. unfold Py.str_or. repeat (rewrite Hst; cbv iota).
  assert (forall o, In o (orders db) ->
            bundle_row (user_id current_user) bundle (products db) o = touched o) as Hrow.
  { intros o Ho. now apply bundle_row_authorized. }
  destruct (List.filter _ (orders db)) as [|r rows] eqn:Ef; simpl.
  - assert (forall o, In o (orders db) -> touched o = false) as Hnone.
    { intros o Ho. rewrite <- Hrow by assumption.
      destruct (bundle_row _ _ _ o) eqn:E; [|reflexivity].
      assert (In o (List.filter (bundle_row (user_id current_user) bundle (products db))
                      (orders db))) as Hin by (apply filter_In; auto).
      rewrite Ef in Hin. destruct Hin. }
    repeat split; auto.
    + rewrite <- (map_id (orders db)) at 2. apply Forall2_map_self.
      intros o Ho. now rewrite (Hnone o Ho).
    + intros (o & Ho & Ht). rewrite (Hnone o Ho) in Ht. discriminate.
  - repeat split; auto.
    + apply Forall2_map_self. intros o Ho. rewrite (Hrow o Ho).
      destruct (touched o); simpl; auto 10.
    + intros Hnone. exfalso.
      assert (In r (List.filter (bundle_row (user_id current_user) bundle (products db))
                      (orders db))) as Hin by (rewrite Ef; now left).
      apply filter_In in Hin as [Hr Hb]. rewrite (Hrow r Hr), (Hnone r Hr) in Hb.
      discriminate.
Qed.

End UpdateClaims.

(** ** The hub *)

Section BroadcasterClaims.

Context {Queue Data : Type}.
Variable put_nowait : Queue -> Data -> option Queue.

Lemma deliver_lookup data (l : list (positive * Queue)) :
  NoDup l.*1 ->
  forall (subs : gmap positive Queue) (dead : list positive),
    let r := deliver put_nowait l data subs dead in
    (forall i, i ∉ l.*1 -> r.1 !! i = subs !! i) /\
    (forall i q, (i, q) ∈ l ->
                 r.1 !! i = match put_nowait q data with
                            | Some q' => Some q'
                            | None => subs !! i
                            end) /\
    (forall i, i ∈ r.2 <-> i ∈ dead \/ exists q, (i, q) ∈ l /\ put_nowait q data = None).
Proof.
  induction l as [|[j qj] rest IH]; intros Hnd subs dead; simpl.
  - repeat split; auto.
    + intros i q Hin. inversion Hin.
    + intros [H|(q & Hin & _)]; [exact H|inversion Hin].
  - simpl in Hnd. apply NoDup_cons in Hnd as [Hj Hnd].
    destruct (put_nowait qj data) as [q'|] eqn:Hput.
    + destruct (IH Hnd (<[j:=q']> subs) dead) as (H1 & H2 & H3).
      split; [|split].
      * intros i Hi. apply not_elem_of_cons in Hi as [Hij Hi].
        rewrite H1 by assumption. now apply lookup_insert_ne.
      * intros i q Hin. apply elem_of_cons in Hin as [[= -> ->]|Hin].
        -- rewrite Hput, H1 by assumption. apply lookup_insert_eq.
        -- rewrite (H2 i q Hin). destruct (put_nowait q data); [reflexivity|].
           apply lookup_insert_ne. intros ->. apply Hj.
           apply list_elem_of_fmap. exists (i, q). auto.
      * intros i. rewrite H3. split.
        -- intros [H|(q & Hin & Hq)]; [now left|right].
           exists q. split; [apply elem_of_cons; now right|assumption].
        -- intros [H|(q & Hin & Hq)]; [now left|right].
           apply elem_of_cons in Hin as [[= -> ->]|Hin]; [congruence|eauto].
    + destruct (IH Hnd subs (dead ++ [j])) as (H1 & H2 & H3).
      split; [|split].
      * intros i Hi. apply not_elem_of_cons in Hi as [Hij Hi]. now apply H1.
      * intros i q Hin. apply elem_of_cons in Hin as [[= -> ->]|Hin].
        -- rewrite Hput. now apply H1.
        -- apply (H2 i q Hin).
      * intros i. rewrite H3, elem_of_app, list_elem_of_singleton. split.
        -- intros [[H| ->]|(q & Hin & Hq)]; [now left|right|right].
           ++ exists qj. split; [apply elem_of_cons; now left|assumption].
           ++ exists q. split; [apply elem_of_cons; now right|assumption].
        -- intros [H|(q & Hin & Hq)]; [now left; left|].
           apply elem_of_cons in Hin as [[= -> ->]|Hin]; [now left; right|eauto].
Qed.

Lemma discard_all_lookup (dead : list positive) (subs : gmap positive Queue) i :
  discard_all dead subs !! i = if decide (i ∈ dead) then None else subs !! i.
Proof.
  unfold discard_all. revert subs.
  induction dead as [|j dead IH]; intros subs; simpl.
  - destruct (decide (i ∈ [])) as [H|H]; [inversion H|reflexivity].
  - rewrite IH.
    destruct (decide (i ∈ dead)) as [Hd|Hd], (decide (i ∈ j :: dead)) as [Hj|Hj];
      try reflexivity.
    + exfalso. apply Hj, elem_of_cons. now right.
    + apply elem_of_cons in Hj as [->|Hj]; [apply lookup_delete_eq|contradiction].
    + apply lookup_delete_ne. intros ->. apply Hj, elem_of_cons. now left.
Qed.

(** The registry after [broadcast], queue by queue. *)
Lemma broadcast_lookup (data : Data) (subscribers : gmap positive Queue) i :
  broadcast put_nowait data subscribers !! i =
  subscribers !! i ≫= (fun q => put_nowait q data).
Proof.
  unfold broadcast.
  pose proof (deliver_lookup data (map_to_list subscribers)
                (NoDup_fst_map_to_list subscribers) subscribers []) as H.
  destruct (deliver put_nowait (map_to_list subscribers) data subscribers [])
    as [subs dead]. simpl in H. destruct H as (H1 & H2 & H3).
  rewrite discard_all_lookup.
  destruct (subscribers !! i) as [q|] eqn:Hi; simpl.
  - apply elem_of_map_to_list in Hi as Hin. specialize (H2 i q Hin).
    destruct (put_nowait q data) as [q'|] eqn:Hput.
    + destruct (decide (i ∈ dead)) as [Hd|Hd]; [|exact H2].
      apply H3 in Hd as [Hd|(q0 & Hin0 & Hq0)]; [inversion Hd|].
      apply elem_of_map_to_list in Hin0. congruence.
    + destruct (decide (i ∈ dead)) as [Hd|Hd]; [reflexivity|].
      exfalso. apply Hd, H3. eauto.
  - destruct (decide (i ∈ dead)) as [Hd|Hd]; [reflexivity|].
    rewrite H1; [exact Hi|]. intros Hk.
    apply list_elem_of_fmap in Hk as ([k q] & -> & Hin).
    apply elem_of_map_to_list in Hin. simpl in Hi. congruence.
Qed.

(** C9 (fault isolation).  [broadcast] is a total function of the registry:
    it raises nothing.  After it, every registered queue whose put went
    through is still registered and holds the event, every queue whose put
    raised is gone from the registry, and no queue is added; what happens
    to one queue does not depend on the others. *)
Theorem broadcast_fault_isolation (data : Data) (subscribers : gmap positive Queue) :
  (forall i q q',
      subscribers !! i = Some q -> put_nowait q data = Some q' ->
      broadcast put_nowait data subscribers !! i = Some q') /\
  (forall i q,
      subscribers !! i = Some q -> put_nowait q data = None ->
      broadcast put_nowait data subscribers !! i = None) /\
  (forall i,
      subscribers !! i = None ->
      broadcast put_nowait data subscribers !! i = None).
Proof.
  repeat split; intros; rewrite broadcast_lookup;
    repeat match goal with H : _ !! _ = _ |- _ => rewrite H; clear H end;
    simpl; auto.
Qed.

End BroadcasterClaims.

(** With [SimpleQueue] nobody is dropped: every subscriber gets the event. *)
Lemma broadcast_simple_queue (data : Event) (subscribers : gmap positive SimpleQueue) :
  broadcast simple_put data subscribers = (fun q => q ++ [data]) <$> subscribers.
Proof.
  apply map_eq. intros i. rewrite broadcast_lookup, lookup_fmap.
  destruct (subscribers !! i); reflexivity.
Qed.

Lemma emit_simple_queue (events : list Event) (subscribers : gmap positive SimpleQueue) :
  emit events subscribers = (fun q => q ++ events) <$> subscribers.
Proof.
  unfold emit. revert subscribers.
  induction events as [|ev events IH]; intros subscribers; simpl.
  - rewrite <- (map_fmap_id subscribers) at 1. apply map_fmap_ext.
    intros i q _. now rewrite app_nil_r.
  - rewrite IH, broadcast_simple_queue, <- map_fmap_compose. apply map_fmap_ext.
    intros i q _. simpl. now rewrite <- app_assoc.
Qed.

(** ** The properties at work on the sample store *)

Module Checks.

Import Sample.

Lemma grid_km_below_limit lat1 lon1 lat2 lon2 d :
  grid_km lat1 lon1 lat2 lon2 = Some d -> (d < NEAR_LIMIT)%Q.
Proof.
  unfold grid_km. intros [= <-].
  change NEAR_LIMIT with (100000000 # 1)%Q.
  destruct (Qle_bool _ 20015) eqn:E; [apply Qle_bool_iff in E; lra|reflexivity].
Qed.

(** A consumer next to [shop2] asking for pincode 600001: [shop1] has the
    pincode but is 55 km away, so the in-radius [shop2] is returned. *)
Lemma select_in_radius_guarantee_witness :
  select_best_annachi grid_km (users db0) (Some "600001"%string)
    (Some (27 # 2)%Q) (Some 80%Q) = (Some shop2, Some (0 # 1000)%Q) /\
  exceeds_radius grid_km (27 # 2) 80 shop2 = false.
Proof.
  split; [vm_compute; reflexivity|].
  apply (select_in_radius_guarantee grid_km grid_km_below_limit (users db0)
           (Some "600001"%string) (27 # 2)%Q 80%Q shop2 shop2 (Some (0 # 1000)%Q)).
  - simpl. tauto.
  - reflexivity.
  - vm_compute. reflexivity.
  - vm_compute. reflexivity.
Defined.

(** Without GPS, the shop with the requested pincode is returned. *)
Lemma select_prefers_same_pincode_witness :
  exists chosen dist,
    select_best_annachi grid_km (users db0) (Some "600002"%string) None None
      = (Some chosen, dist) /\
    In chosen (users db0) /\ is_annachi chosen = true /\
    same_pincode "600002" chosen = true.
Proof.
  apply (select_prefers_same_pincode grid_km (users db0) "600002"%string None None shop2).
  - reflexivity.
  - simpl. tauto.
  - reflexivity.
  - vm_compute. reflexivity.
  - left. reflexivity.
Defined.


Lemma domain_error_km_below_limit lat1 lon1 lat2 lon2 d :
  domain_error_km lat1 lon1 lat2 lon2 = Some d -> (d < NEAR_LIMIT)%Q.
Proof.
  unfold domain_error_km. destruct (_ && _); [discriminate|].
  apply grid_km_below_limit.
Qed.


(** The request of the specification: one Rice, two Tomato, against a shop
    with five Rice and one Tomato. *)
Lemma reservation_all_or_nothing_witness :
  orders_create_auto grid_km alice t0 true [rice1; tomato2] near_shop1 db0 =
  (Conflict 1 (Some "600001"%string) (Some (0 # 1000)%Q)
     [mkUnavailable "Tomato" "vegetables" "insufficient_stock (1 left)"],
   db0, []).
Proof.
  refine (proj1 (reservation_all_or_nothing grid_km alice t0 true [rice1; tomato2]
                   near_shop1 db0 [mkItem "Rice" "cereals" 1; mkItem "Tomato" "vegetables" 2]
                   shop1 (Some (0 # 1000)%Q) _ _ _ _)).
  - reflexivity.
  - vm_compute. reflexivity.
  - vm_compute. reflexivity.
  - exists (mkItem "Tomato" "vegetables" 2). split; [simpl; tauto|vm_compute; reflexivity].
Defined.

Lemma placement_success_witness :
  exists created ps',
    orders_create_auto grid_km alice t0 true [rice1; tomato1] near_shop1 db0 =
      (Created (map order_id created) "1700000000123-7-A1" 1 (Some (0 # 1000)%Q),
       mkDb (users db0) ps' (orders db0 ++ created),
       map (new_order_event ps') created) /\
    length created = 2%nat /\
    Forall2 (fun p p' =>
               product_id p' = product_id p /\
               stock p' = stock p -
                 sold (product_id p) [(rice, 1); (tomato, 1)] /\
               Py.int_or (total_purchased p') 0 =
                 Py.int_or (total_purchased p) 0 +
                 sold (product_id p) [(rice, 1); (tomato, 1)])
            (products db0) ps'.
Proof.
  destruct (placement_success grid_km alice t0 [rice1; tomato1] near_shop1 db0
              [mkItem "Rice" "cereals" 1; mkItem "Tomato" "vegetables" 1]
              shop1 (Some (0 # 1000)%Q))
    as (created & ps' & H1 & H2 & _ & _ & H5).
  - reflexivity.
  - discriminate.
  - vm_compute. reflexivity.
  - vm_compute. reflexivity.
  - intros it [<-|[<-|[]]]; vm_compute; reflexivity.
  - exists created, ps'. split; [exact H1|]. split; [exact H2|exact H5].
Defined.

(** C6 (validation of the quantity).  A line with quantity 0 is not
    rejected: [orders_create_auto] turns the 0 into 1 before the check
    [qty < 1], selects a provider, writes an order for one unit and takes
    one unit of stock.  (The legacy route [orders_create] rejects the same
    quantity.) *)
Theorem zero_quantity_is_ordered :
  raw_quantity rice0 = Some 0 /\
  let res := orders_create_auto grid_km alice t0 true [rice0] near_shop1 db0 in
  fst (fst res) = Created [1] "1700000000123-7-A1" 1 (Some (0 # 1000)%Q) /\
  orders (snd (fst res)) =
    [mkOrder 1 7 10 1 "Pending" (Some 1) (Some "1700000000123-7-A1"%string)] /\
  (stock <$> get_product 10 (products (snd (fst res)))) = Some 4 /\
  fst (fst (orders_create alice t0 [mkCartItem 10 (Some 0)] db0)) = QuantityTooSmall.
Proof. vm_compute. repeat split; reflexivity. Qed.

(** Two invalid items in one request: the answer names the first only. *)
Lemma validation_stops_at_first_invalid_item :
  let items := [nameless; rice1; tea] in
  let res := orders_create_auto grid_km alice t0 true items near_shop1 db0 in
  List.filter invalid_item items = [nameless; tea] /\
  reported_invalid (fst (fst res)) = [nameless] /\
  reported_invalid (fst (fst res)) <> List.filter invalid_item items.
Proof. vm_compute. repeat split; [reflexivity..|discriminate]. Qed.

Lemma problem_reporting_witness :
  orders_create_auto grid_km alice t0 true [rice1; nameless; tea] near_shop1 db0
    = (InvalidLineItem nameless, db0, []) /\
  orders_create_auto grid_km alice t0 true [tomato2; rice1] near_shop1 db0
    = (Conflict 1 (Some "600001"%string) (Some (0 # 1000)%Q)
         [mkUnavailable "Tomato" "vegetables" "insufficient_stock (1 left)"],
       db0, []).
Proof.
  split.
  - apply (proj1 (problem_reporting grid_km) alice t0 true [rice1] nameless [tea]
             near_shop1 db0).
    + reflexivity.
    + repeat constructor.
    + reflexivity.
  - apply (proj2 (problem_reporting grid_km) alice t0 true [tomato2; rice1] near_shop1 db0
             [mkItem "Tomato" "vegetables" 2; mkItem "Rice" "cereals" 1]
             shop1 (Some (0 # 1000)%Q)).
    + reflexivity.
    + vm_compute. reflexivity.
    + vm_compute. reflexivity.
    + exists (mkItem "Tomato" "vegetables" 2). split; [simpl; tauto|vm_compute; reflexivity].
Defined.

(** A legacy cart with products of two shops: one bundle, two providers. *)
Lemma legacy_bundle_mixes_providers :
  orders db0 = [] /\
  ~ single_provider
      (orders (snd (fst (orders_create alice t0
                           [mkCartItem 10 None; mkCartItem 12 (Some 2)] db0)))).
Proof.
  split; [reflexivity|]. intros H.
  assert (Some 1 = Some 2) as E; [|discriminate].
  apply (H (mkOrder 1 7 10 1 "Pending" (Some 1) (Some "1700000000123-7-legacy"%string))
           (mkOrder 2 7 12 2 "Pending" (Some 2) (Some "1700000000123-7-legacy"%string))
           "1700000000123-7-legacy"%string);
    vm_compute; auto.
Qed.

(** An auto placement after a legacy cart with two shops. *)
Lemma auto_bundles_single_provider_witness :
  auto_single_provider
    (orders (snd (fst (orders_create_auto grid_km alice (t0 + 1) true [rice1; tomato1]
                         near_shop1
                         (snd (fst (orders_create alice t0
                                      [mkCartItem 10 None; mkCartItem 12 (Some 2)]
                                      db0))))))).
Proof.
  apply (auto_bundles_single_provider grid_km parse_id).
  apply reach_auto. apply reach_legacy. apply reach_init. reflexivity.
Defined.

Lemma db_mixed_integrity : referential_integrity db_mixed.
Proof. intros o [<-|[<-|[]]]; eexists; reflexivity. Qed.

(** [shop1] packs bundle b1: its own line is updated, the line of [shop2]
    is not, and the call succeeds. *)
Lemma bundle_update_frame_witness :
  let res := annachi_orders_update parse_id shop1 "BUNDLE_b1" (Some "Packed"%string) db_mixed in
  fst (fst res) = BundleUpdated "b1" "Packed" /\
  orders (snd (fst res)) = [set_status "Packed" line1; line2].
Proof.
  destruct (bundle_update_frame parse_id shop1 "BUNDLE_b1" "Packed" db_mixed)
    as (_ & _ & _ & Hok & _).
  - reflexivity.
  - exact db_mixed_integrity.
  - reflexivity.
  - reflexivity.
  - split; [|vm_compute; reflexivity].
    apply Hok. exists line1. split; [simpl; tauto|vm_compute; reflexivity].
Defined.

(** One healthy queue and one full queue. *)
Lemma broadcast_fault_isolation_witness :
  let ev := StatusUpdate (Some 1) 7 (Some 1) 1 "Packed" (Some "b1"%string) in
  let subs : gmap positive (list Event) := <[1%positive := []]> (<[2%positive := [ev]]> ∅) in
  broadcast (bounded_put 1) ev subs !! 1%positive = Some [ev] /\
  broadcast (bounded_put 1) ev subs !! 2%positive = None.
Proof.
  intros ev subs.
  destruct (broadcast_fault_isolation (bounded_put 1) ev subs) as (H1 & H2 & _).
  split.
  - apply (H1 1%positive [] [ev]); reflexivity.
  - apply (H2 2%positive [ev]); reflexivity.
Defined.

End Checks.

(** * Further properties *)

(** ** How [select_best_annachi] ranks *)

Lemma key2_ltb_asym k1 k2 : key2_ltb k1 k2 = true -> key2_ltb k2 k1 = false.
Proof.
  destruct k1 as [d1 i1], k2 as [d2 i2]. unfold key2_ltb.
  rewrite <- (Qcompare_antisym d1 d2).
  destruct (d1 ?= d2)%Q; simpl; try congruence.
  rewrite Z.ltb_lt, Z.ltb_ge. lia.
Qed.

Lemma key2_ltb_negtrans k1 k2 k3 :
  key2_ltb k2 k1 = false -> key2_ltb k3 k2 = false -> key2_ltb k3 k1 = false.
Proof.
  destruct k1 as [d1 i1], k2 as [d2 i2], k3 as [d3 i3]. unfold key2_ltb.
  destruct (Qcompare_spec d2 d1) as [E1|L1|G1], (Qcompare_spec d3 d2) as [E2|L2|G2],
    (Qcompare_spec d3 d1) as [E3|L3|G3];
    try congruence; try (exfalso; lra).
  rewrite !Z.ltb_ge. lia.
Qed.

Lemma key2_not_below (d1 d2 : Q) (i1 i2 : Z) :
  key2_ltb (d1, i1) (d2, i2) = false ->
  (d2 < d1)%Q \/ ((d2 == d1)%Q /\ i2 <= i1).
Proof.
  unfold key2_ltb. destruct (Qcompare_spec d1 d2) as [E|L|G].
  - rewrite Z.ltb_ge. intros H. right. split; [now symmetry|exact H].
  - discriminate.
  - intros _. now left.
Qed.

Lemma key3_same_flag (f : Z) (d1 d2 : Q) (i1 i2 : Z) :
  key3_ltb (f, d1, i1) (f, d2, i2) = key2_ltb (d1, i1) (d2, i2).
Proof. unfold key3_ltb, key2_ltb. now rewrite Z.compare_refl. Qed.

Section Ranking.

Variable haversine : Q -> Q -> Q -> Q -> option Q.

Lemma score_value clat clng a :
  score haversine clat clng a =
  if out_of_radius haversine clat clng a then (1, FAR, user_id a)
  else (0, _distance_km haversine clat clng a, user_id a).
Proof.
  unfold score, out_of_radius.
  destruct clat, clng; try reflexivity.
  destruct (service_radius_km a); try reflexivity.
  destruct (Qltb _ NEAR_LIMIT); simpl; [|reflexivity].
  rewrite negb_Qle_bool. destruct (Qltb _ _); reflexivity.
Qed.

Lemma in_range_not_flagged clat clng a :
  in_range haversine clat clng a = true -> out_of_radius haversine clat clng a = false.
Proof.
  unfold in_range, out_of_radius.
  destruct clat, clng, (service_radius_km a); try reflexivity; try discriminate.
  intros H. apply andb_true_iff in H as [_ H].
  apply andb_false_iff. right. now rewrite <- negb_Qle_bool, H.
Qed.

Lemma elem_of_inrad_iff clat clng anns t :
  In t (inrad_of haversine clat clng anns) <->
  In (snd t) anns /\ in_range haversine clat clng (snd t) = true /\
  t = (_distance_km haversine clat clng (snd t), user_id (snd t), snd t).
Proof.
  unfold inrad_of, in_range. rewrite <- list_elem_of_In, list_elem_of_omap.
  split.
  - intros (a & Ha & Hq). destruct (service_radius_km a) eqn:Er; [|discriminate].
    destruct (_ && _) eqn:Hc; [|discriminate]. injection Hq as <-. simpl.
    rewrite Er. split; [now apply list_elem_of_In|]. auto.
  - intros (Ha & Hr & Ht). exists (snd t). split; [now apply list_elem_of_In|].
    destruct (service_radius_km (snd t)); [|discriminate].
    rewrite Hr. f_equal. now symmetry.
Qed.

(** X1.  Without a GPS position (either coordinate missing) the selector
    returns, with no distance, the annachi of the lowest id in the preferred
    pool: the annachis with the requested pincode if there are any, all the
    annachis otherwise. *)
Theorem select_without_gps all_users pin clat clng :
  clat = None \/ clng = None ->
  List.filter is_annachi all_users <> [] ->
  exists chosen,
    select_best_annachi haversine all_users pin clat clng = (Some chosen, None) /\
    In chosen (preferred_pool all_users pin) /\
    forall y, In y (preferred_pool all_users pin) -> user_id chosen <= user_id y.
Proof.
  intros Hgps Hne.
  destruct (select_unfold haversine all_users pin clat clng)
    as [[Ea _]|(ch0 & ch & Hhead & Hpool & Hch & Hs)]; [contradiction|].
  assert (ch = ch0) as -> by (subst ch; destruct Hgps as [-> | ->]; [|destruct clat]; reflexivity).
  assert (forall a, score haversine clat clng a = (0, FAR, user_id a)) as Hscore.
  { intros a. unfold score, _distance_km.
    destruct Hgps as [-> | ->]; [reflexivity|destruct clat; reflexivity]. }
  exists ch0. split; [|split; [exact Hpool|]].
  - rewrite Hs. destruct Hgps as [-> | ->]; [|destruct clat]; reflexivity.
  - intros y Hy.
    pose proof (sorted_head_least key3_ltb (score haversine clat clng)
                  key3_ltb_asym key3_ltb_negtrans _ _ Hhead y Hy) as Hleast.
    rewrite !Hscore, key3_same_flag in Hleast.
    apply key2_not_below in Hleast as [L|[_ H]]; [exfalso; lra|exact H].
Qed.

(** X2.  With a GPS position, when some annachi of the preferred pool is not
    out of its radius, the selector returns a member of the pool that is not
    out of its radius and is the first of those in the order (distance,
    id). *)
Theorem select_nearest_in_pool all_users pin clat clng y0 :
  In y0 (preferred_pool all_users pin) ->
  out_of_radius haversine (Some clat) (Some clng) y0 = false ->
  exists chosen dist,
    select_best_annachi haversine all_users pin (Some clat) (Some clng)
      = (Some chosen, dist) /\
    In chosen (preferred_pool all_users pin) /\
    out_of_radius haversine (Some clat) (Some clng) chosen = false /\
    forall y, In y (preferred_pool all_users pin) ->
              out_of_radius haversine (Some clat) (Some clng) y = false ->
              nearer_or_same haversine (Some clat) (Some clng) chosen y.
Proof.
  intros Hy0 Hflag0.
  destruct (select_unfold haversine all_users pin (Some clat) (Some clng))
    as [[Ea _]|(ch0 & ch & Hhead & Hpool & Hch & Hs)].
  { exfalso. unfold preferred_pool in Hy0. rewrite Ea in Hy0.
    destruct pin as [p|]; [destruct (Py.truthy p)|]; destruct Hy0. }
  pose proof (sorted_head_least key3_ltb (score haversine (Some clat) (Some clng))
                key3_ltb_asym key3_ltb_negtrans _ _ Hhead) as Hleast.
  assert (out_of_radius haversine (Some clat) (Some clng) ch0 = false) as Hflag.
  { destruct (out_of_radius haversine (Some clat) (Some clng) ch0) eqn:E; [|reflexivity].
    specialize (Hleast y0 Hy0). rewrite !score_value, E, Hflag0 in Hleast. discriminate. }
  rewrite Hflag in Hch. subst ch.
  exists ch0. eexists. split; [exact Hs|]. split; [exact Hpool|]. split; [exact Hflag|].
  intros y Hy Hfy. specialize (Hleast y Hy).
  rewrite !score_value, Hflag, Hfy, key3_same_flag in Hleast.
  now apply key2_not_below.
Qed.

(** X3.  With a GPS position, when every annachi of the preferred pool is
    out of its radius and some annachi of the table is in range, the selector
    leaves the pool: it returns an annachi in range that is the first of the
    annachis in range in the order (distance, id). *)
Theorem select_fallback_nearest all_users pin clat clng a :
  (forall y, In y (preferred_pool all_users pin) ->
             out_of_radius haversine (Some clat) (Some clng) y = true) ->
  In a (List.filter is_annachi all_users) ->
  in_range haversine (Some clat) (Some clng) a = true ->
  exists chosen,
    select_best_annachi haversine all_users pin (Some clat) (Some clng)
      = (Some chosen,
         Some (Py.round3 (_distance_km haversine (Some clat) (Some clng) chosen))) /\
    In chosen (List.filter is_annachi all_users) /\
    in_range haversine (Some clat) (Some clng) chosen = true /\
    forall y, In y (List.filter is_annachi all_users) ->
              in_range haversine (Some clat) (Some clng) y = true ->
              nearer_or_same haversine (Some clat) (Some clng) chosen y.
Proof.
  intros Hall Ha Hra.
  destruct (select_unfold haversine all_users pin (Some clat) (Some clng))
    as [[Ea _]|(ch0 & ch & Hhead & Hpool & Hch & Hs)].
  { rewrite Ea in Ha. destruct Ha. }
  rewrite (Hall ch0 Hpool) in Hch.
  set (key := fun t : Q * Z * User => (fst (fst t), snd (fst t))) in *.
  set (inrad := inrad_of haversine (Some clat) (Some clng)
                  (List.filter is_annachi all_users)) in *.
  assert (In (_distance_km haversine (Some clat) (Some clng) a, user_id a, a) inrad) as Hin.
  { apply elem_of_inrad_iff. simpl. auto. }
  destruct (Py.sorted key2_ltb key inrad) as [|t ts] eqn:Es.
  { apply sorted_nil_inv in Es. rewrite Es in Hin. destruct Hin. }
  assert (head (Py.sorted key2_ltb key inrad) = Some t) as Ht by now rewrite Es.
  pose proof (sorted_head_In _ _ _ _ Ht) as Htin.
  apply elem_of_inrad_iff in Htin as (Htu & Htr & Hteq).
  destruct t as [[d i] u]. cbn [fst snd] in Htu, Htr, Hteq.
  assert (d = _distance_km haversine (Some clat) (Some clng) u /\ i = user_id u)
    as [Hd Hi] by (split; congruence).
  subst ch. exists u. cbn [snd].
  assert (Qltb (_distance_km haversine (Some clat) (Some clng) u) NEAR_LIMIT = true)
    as Hnear.
  { unfold in_range in Htr. destruct (service_radius_km u); [|discriminate].
    now apply andb_true_iff in Htr as [H _]. }
  split; [|split; [exact Htu|split; [exact Htr|]]].
  - rewrite Hs. cbv beta iota zeta. cbn [snd]. now rewrite Hnear.
  - intros y Hy Hry.
    pose proof (sorted_head_least key2_ltb key key2_ltb_asym key2_ltb_negtrans _ _ Ht
                  (_distance_km haversine (Some clat) (Some clng) y, user_id y, y)) as Hl.
    unfold key in Hl. cbn [fst snd] in Hl. rewrite Hd, Hi in Hl.
    apply key2_not_below, Hl. apply elem_of_inrad_iff. cbn [snd]. auto.
Qed.

(** X4.  With a GPS position, when every annachi of the preferred pool is
    out of its radius and no annachi of the table is in range, the selector
    still answers: it returns the pool member of the lowest id, whatever the
    distances, together with its rounded distance. *)
Theorem select_nobody_in_range all_users pin clat clng :
  List.filter is_annachi all_users <> [] ->
  (forall y, In y (preferred_pool all_users pin) ->
             out_of_radius haversine (Some clat) (Some clng) y = true) ->
  (forall a, In a (List.filter is_annachi all_users) ->
             in_range haversine (Some clat) (Some clng) a = false) ->
  exists chosen,
    select_best_annachi haversine all_users pin (Some clat) (Some clng)
      = (Some chosen,
         Some (Py.round3 (_distance_km haversine (Some clat) (Some clng) chosen))) /\
    In chosen (preferred_pool all_users pin) /\
    forall y, In y (preferred_pool all_users pin) -> user_id chosen <= user_id y.
Proof.
  intros Hne Hall Hnone.
  destruct (select_unfold haversine all_users pin (Some clat) (Some clng))
    as [[Ea _]|(ch0 & ch & Hhead & Hpool & Hch & Hs)]; [contradiction|].
  pose proof (Hall ch0 Hpool) as Hflag. rewrite Hflag in Hch.
  assert (inrad_of haversine (Some clat) (Some clng) (List.filter is_annachi all_users) = [])
    as Hnil.
  { destruct (inrad_of _ _ _ _) as [|t ts] eqn:E; [reflexivity|exfalso].
    assert (In t (inrad_of haversine (Some clat) (Some clng)
                    (List.filter is_annachi all_users))) as Ht by (rewrite E; now left).
    apply elem_of_inrad_iff in Ht as (Htu & Htr & _). rewrite (Hnone _ Htu) in Htr.
    discriminate. }
  rewrite Hnil in Hch. simpl in Hch. subst ch.
  exists ch0. split; [|split; [exact Hpool|]].
  - rewrite Hs. cbv beta iota zeta. unfold out_of_radius in Hflag.
    destruct (service_radius_km ch0); [|discriminate].
    apply andb_true_iff in Hflag as [-> _]. reflexivity.
  - intros y Hy.
    pose proof (sorted_head_least key3_ltb (score haversine (Some clat) (Some clng))
                  key3_ltb_asym key3_ltb_negtrans _ _ Hhead y Hy) as Hleast.
    rewrite !score_value, Hflag, (Hall y Hy), key3_same_flag in Hleast.
    apply key2_not_below in Hleast as [L|[_ H]]; [exfalso; lra|exact H].
Qed.

End Ranking.

(** ** What the order routes keep *)

Lemma purchase_ids pid qty ps :
  map product_id (purchase pid qty ps) = map product_id ps.
Proof.
  unfold purchase. rewrite map_map. apply map_ext.
  intros p. now destruct (bool_decide _).
Qed.

Lemma purchases_ids (rows : list (Product * Z)) ps :
  map product_id
    (fold_left (fun acc r => purchase (product_id (fst r)) (snd r) acc) rows ps)
  = map product_id ps.
Proof.
  revert ps. induction rows as [|r rows IH]; intros ps; [reflexivity|].
  simpl. now rewrite IH, purchase_ids.
Qed.

Section AutoCases.

Variable haversine : Q -> Q -> Q -> Q -> option Q.

(** The two outcomes of [orders_create_auto]: nothing happens, or one bundle
    is written for the selected provider. *)
Lemma orders_create_auto_cases current_user now_ms commit_ok items consumer_info db :
  let res := orders_create_auto haversine current_user now_ms commit_ok items
               consumer_info db in
  (snd (fst res) = db /\ snd res = [] /\
   forall c b a d, fst (fst res) <> Created c b a d) \/
  (exists normalized ann dist,
      role current_user = "consumer"%string /\
      items <> [] /\
      normalize_items items [] = inr normalized /\
      select_best_annachi haversine (users db) (ci_pincode consumer_info)
        (ci_lat consumer_info) (ci_lng consumer_info) = (Some ann, dist) /\
      (forall it, In it normalized -> available ann (products db) it = true) /\
      let bundle := auto_bundle_id now_ms (user_id current_user) (user_id ann) in
      let rows := omap (line_found ann (products db)) normalized in
      let ps' := fold_left (fun acc r => purchase (product_id (fst r)) (snd r) acc)
                   rows (products db) in
      let created := new_orders (user_id current_user) (user_id ann) bundle rows
                       (next_order_id (orders db)) in
      res = (Created (map order_id created) bundle (user_id ann) dist,
             mkDb (users db) ps' (orders db ++ created),
             map (new_order_event ps') created)).
Proof.
  intros res. subst res. unfold orders_create_auto.
  destruct (bool_decide (role current_user = "consumer"%string)) eqn:Hrole;
    simpl negb; cbv iota; [|left; repeat split; discriminate].
  apply bool_decide_eq_true in Hrole.
  destruct items as [|it0 rest] eqn:Hitems; [left; repeat split; discriminate|].
  rewrite <- Hitems.
  destruct (normalize_items items []) as [bad|normalized] eqn:Hnorm;
    [left; repeat split; discriminate|].
  destruct (select_best_annachi _ _ _ _ _) as [[ann|] dist] eqn:Hsel;
    [|left; repeat split; discriminate].
  rewrite check_items_spec. simpl app.
  destruct (omap (line_problem ann (products db)) normalized) eqn:Hprob;
    [|left; repeat split; discriminate].
  rewrite create_orders_spec. simpl app.
  destruct commit_ok; [|left; repeat split; discriminate].
  right. exists normalized, ann, dist.
  split; [exact Hrole|]. split; [rewrite Hitems; discriminate|].
  split; [reflexivity|]. split; [reflexivity|].
  split; [now apply problems_nil|]. reflexivity.
Qed.

(** X5.  Whatever the request, [orders_create_auto] leaves the user table
    alone, adds and removes no product row, and only appends to the order
    table; and whenever its answer is not the success answer, the whole store
    is the one from before the call and nothing is broadcast. *)
Theorem orders_create_auto_frame current_user now_ms commit_ok items consumer_info db :
  let res := orders_create_auto haversine current_user now_ms commit_ok items
               consumer_info db in
  users (snd (fst res)) = users db /\
  map product_id (products (snd (fst res))) = map product_id (products db) /\
  (exists created, orders (snd (fst res)) = orders db ++ created /\
                   length (snd res) = length created) /\
  ((forall c b a d, fst (fst res) <> Created c b a d) ->
   snd (fst res) = db /\ snd res = []).
Proof.
  intros res.
  destruct (orders_create_auto_cases current_user now_ms commit_ok items consumer_info db)
    as [(Hdb & Hev & Hresp)|(normalized & ann & dist & _ & _ & _ & _ & _ & Hres)];
    fold res in Hdb, Hev, Hresp || fold res in Hres.
  - rewrite Hdb, Hev. repeat split; auto.
    exists []. now rewrite app_nil_r.
  - cbv zeta in Hres. rewrite Hres. cbn [fst snd users products orders].
    split; [reflexivity|]. split; [apply purchases_ids|]. split.
    + eexists. split; [reflexivity|]. now rewrite length_map.
    + intros H. exfalso. eapply H. reflexivity.
Qed.

End AutoCases.

Lemma units_kept_refl p : units_kept p p.
Proof. unfold units_kept. auto 10. Qed.

Lemma units_kept_trans p q r : units_kept p q -> units_kept q r -> units_kept p r.
Proof.
  unfold units_kept. intros (?&?&?&?&?&?) (?&?&?&?&?&?).
  repeat split; try congruence; lia.
Qed.

Lemma units_kept_purchase_row qty p : units_kept p (purchase_row qty p).
Proof. unfold units_kept. simpl. rewrite int_or_zero. repeat split; lia. Qed.

Lemma purchase_units pid qty ps : Forall2 units_kept ps (purchase pid qty ps).
Proof.
  unfold purchase. apply Forall2_map_self. intros p _.
  destruct (bool_decide _); [apply units_kept_purchase_row|apply units_kept_refl].
Qed.

Lemma Forall2_units_trans ps qs rs :
  Forall2 units_kept ps qs -> Forall2 units_kept qs rs -> Forall2 units_kept ps rs.
Proof.
  intros H. revert rs. induction H as [|p q ps qs Hpq _ IH]; intros rs Hr.
  - inversion Hr. constructor.
  - inversion Hr as [|q' r qs' rs' Hqr Hrest]; subst.
    constructor; [eapply units_kept_trans; eassumption|now apply IH].
Qed.

Lemma Forall2_units_refl ps : Forall2 units_kept ps ps.
Proof. induction ps; constructor; auto using units_kept_refl. Qed.

Lemma purchases_units (rows : list (Product * Z)) ps :
  Forall2 units_kept ps
    (fold_left (fun acc r => purchase (product_id (fst r)) (snd r) acc) rows ps).
Proof.
  revert ps. induction rows as [|r rows IH]; intros ps; [apply Forall2_units_refl|].
  simpl. eapply Forall2_units_trans; [apply purchase_units|apply IH].
Qed.

Lemma legacy_loop_units uid bundle items next_id ps created ps' created' :
  legacy_loop uid bundle items next_id ps created = inr (ps', created') ->
  Forall2 units_kept ps ps'.
Proof.
  revert next_id ps created.
  induction items as [|it rest IH]; intros next_id ps created H; simpl in H.
  - injection H as <- _. apply Forall2_units_refl.
  - destruct (get_product _ ps) as [product|]; [|discriminate].
    destruct (negb _); [discriminate|].
    destruct (_ <? 1); [discriminate|].
    destruct (stock product <? _); [discriminate|].
    apply IH in H. eapply Forall2_units_trans; [apply purchase_units|exact H].
Qed.

Section Units.

Variable haversine : Q -> Q -> Q -> Q -> option Q.

(** X6.  The three order-creating routes only move units from the stock of
    a product row to its sold counter: after any call, every product row has
    its identity columns unchanged and the same total of [stock] and
    [total_purchased], and no row is added or removed. *)
Theorem order_routes_keep_units current_user now_ms db :
  (forall commit_ok items consumer_info,
      Forall2 units_kept (products db)
        (products (snd (fst (orders_create_auto haversine current_user now_ms
                               commit_ok items consumer_info db))))) /\
  (forall items,
      Forall2 units_kept (products db)
        (products (snd (fst (orders_create current_user now_ms items db))))) /\
  (forall pid quantity,
      Forall2 units_kept (products db)
        (products (snd (fst (api_create_order current_user now_ms pid quantity db))))).
Proof.
  split; [|split].
  - intros commit_ok items consumer_info.
    destruct (orders_create_auto_cases haversine current_user now_ms commit_ok items
                consumer_info db)
      as [(-> & _)|(normalized & ann & dist & _ & _ & _ & _ & _ & ->)].
    + apply Forall2_units_refl.
    + cbn [fst snd products]. apply purchases_units.
  - intros items. unfold orders_create.
    destruct (negb _); [apply Forall2_units_refl|].
    destruct items as [|it0 rest]; [apply Forall2_units_refl|].
    destruct (legacy_loop _ _ _ _ _ _) as [err|[ps' created]] eqn:E;
      [apply Forall2_units_refl|].
    cbn [fst snd products]. eapply legacy_loop_units, E.
  - intros pid quantity. unfold api_create_order.
    destruct (negb _); [apply Forall2_units_refl|].
    destruct (pid ≫= _) as [product|]; [|apply Forall2_units_refl].
    destruct (negb _); [apply Forall2_units_refl|].
    destruct (_ <? 1); [apply Forall2_units_refl|].
    destruct (stock product <? _); [apply Forall2_units_refl|].
    cbn [fst snd products]. apply purchase_units.
Qed.

End Units.

(** ** Order ids *)

Lemma lt_next_order_id o os : In o os -> order_id o < next_order_id os.
Proof.
  unfold next_order_id. induction os as [|x os IH]; [intros []|].
  simpl. intros [->|H]; [lia|]. specialize (IH H). lia.
Qed.

Lemma fresh_from_cons next_id o news :
  order_id o = next_id -> fresh_from (next_id + 1) news -> fresh_from next_id (o :: news).
Proof.
  intros Ho [Hnd Hge]. split; simpl.
  - constructor; [|exact Hnd]. intros Hin. apply list_elem_of_In, in_map_iff in Hin
      as (o' & Hid & Hin). rewrite Forall_forall in Hge.
    apply list_elem_of_In, Hge in Hin. lia.
  - constructor; [lia|]. eapply Forall_impl; [exact Hge|]. simpl. intros. lia.
Qed.

Lemma new_orders_fresh uid ann_id bundle rows next_id :
  fresh_from next_id (new_orders uid ann_id bundle rows next_id).
Proof.
  revert next_id. induction rows as [|r rows IH]; intros next_id; simpl.
  - split; constructor.
  - apply fresh_from_cons; [reflexivity|apply IH].
Qed.

Lemma fresh_from_unique os news :
  NoDup (map order_id os) -> fresh_from (next_order_id os) news ->
  NoDup (map order_id (os ++ news)).
Proof.
  intros Hos [Hnd Hge]. rewrite map_app. apply NoDup_app.
  split; [exact Hos|]. split; [|exact Hnd].
  intros x Hx Hx'. apply list_elem_of_In, in_map_iff in Hx as (o & <- & Ho).
  apply list_elem_of_In, in_map_iff in Hx' as (o' & Hid & Ho').
  apply lt_next_order_id in Ho. rewrite Forall_forall in Hge.
  apply list_elem_of_In, Hge in Ho'. lia.
Qed.

Lemma get_product_id pid ps p : get_product pid ps = Some p -> product_id p = pid.
Proof.
  intros H. apply find_some in H as [_ H]. now apply bool_decide_eq_true in H.
Qed.

Lemma get_product_purchase_owner pid0 qty pid ps :
  owner_id <$> get_product pid (purchase pid0 qty ps) = owner_id <$> get_product pid ps.
Proof.
  unfold purchase. rewrite get_product_map.
  - destruct (get_product pid ps) as [p|]; [|reflexivity]. simpl.
    now destruct (bool_decide _).
  - intros p. now destruct (bool_decide _).
Qed.

(** The loop of [orders_create], when it runs to its end. *)
Lemma legacy_loop_lines uid bundle items next_id ps created ps' created' :
  legacy_loop uid bundle items next_id ps created = inr (ps', created') ->
  exists news,
    created' = created ++ news /\ fresh_from next_id news /\
    Forall2 (legacy_line uid bundle ps) items news.
Proof.
  revert next_id ps created.
  induction items as [|it rest IH]; intros next_id ps created H; simpl in H.
  - injection H as _ <-. exists []. rewrite app_nil_r.
    split; [reflexivity|]. split; [split; constructor|constructor].
  - destruct (get_product _ ps) as [product|] eqn:Ep; [|discriminate].
    destruct (negb _); [discriminate|].
    destruct (_ <? 1) eqn:Eq1; [discriminate|].
    destruct (stock product <? _); [discriminate|].
    apply IH in H as (news & -> & Hfresh & Hlines).
    eexists (_ :: news). rewrite <- app_assoc. split; [reflexivity|].
    split; [apply fresh_from_cons; [reflexivity|exact Hfresh]|].
    constructor.
    + unfold legacy_line, new_legacy_order. cbn [consumer_id order_product_id quantity
        status bundle_id assigned_annachi_id].
      rewrite Ep. apply Z.ltb_ge in Eq1.
      repeat split; auto. now apply get_product_id in Ep.
    + eapply Forall2_impl; [exact Hlines|]. intros it' o (H1 & H2 & H3 & H4 & H5 & H6 & H7).
      unfold legacy_line. rewrite get_product_purchase_owner in H7. auto 10.
Qed.

Section OrderIds.

Variable haversine : Q -> Q -> Q -> Q -> option Q.
Variable int_of_str : string -> option Z.

(** X7.  The order ids stay pairwise different: on a store whose order ids
    are unique, each of the three order-creating routes and the status
    update leaves them unique (new lines get ids above every id in the
    table). *)
Theorem order_ids_stay_unique current_user now_ms db :
  order_ids_unique db ->
  (forall commit_ok items consumer_info,
      order_ids_unique (snd (fst (orders_create_auto haversine current_user now_ms
                                    commit_ok items consumer_info db)))) /\
  (forall items,
      order_ids_unique (snd (fst (orders_create current_user now_ms items db)))) /\
  (forall pid quantity,
      order_ids_unique (snd (fst (api_create_order current_user now_ms pid quantity db)))) /\
  (forall oid new_status,
      order_ids_unique
        (snd (fst (annachi_orders_update int_of_str current_user oid new_status db)))).
Proof.
  unfold order_ids_unique. intros Hdb. split; [|split; [|split]].
  - intros commit_ok items consumer_info.
    destruct (orders_create_auto_cases haversine current_user now_ms commit_ok items
                consumer_info db)
      as [(-> & _)|(normalized & ann & dist & _ & _ & _ & _ & _ & ->)]; [exact Hdb|].
    cbn [fst snd orders]. apply fresh_from_unique; [exact Hdb|apply new_orders_fresh].
  - intros items. unfold orders_create.
    destruct (negb _); [exact Hdb|]. destruct items as [|it0 rest]; [exact Hdb|].
    destruct (legacy_loop _ _ _ _ _ _) as [err|[ps' created]] eqn:E; [exact Hdb|].
    apply legacy_loop_lines in E as (news & -> & Hfresh & _).
    cbn [fst snd orders]. now apply fresh_from_unique.
  - intros pid quantity. unfold api_create_order.
    destruct (negb _); [exact Hdb|].
    destruct (pid ≫= _) as [product|]; [|exact Hdb].
    destruct (negb _); [exact Hdb|].
    destruct (_ <? 1); [exact Hdb|].
    destruct (stock product <? _); [exact Hdb|].
    cbn [fst snd orders]. apply fresh_from_unique; [exact Hdb|].
    apply fresh_from_cons; [reflexivity|split; constructor].
  - intros oid new_status.
    destruct (orders_after_update int_of_str current_user oid new_status db)
      as (f & Hf & ->).
    rewrite map_map. erewrite map_ext; [exact Hdb|].
    intros o. simpl. destruct (Hf o) as [->|[st ->]]; reflexivity.
Qed.

End OrderIds.

(** ** The legacy cart *)

(** X8.  [orders_create] is all-or-nothing too.  When it answers with its
    success answer, it has appended one Pending line per cart entry, in cart
    order, all under the one legacy bundle id of the call, each for the
    product and quantity (1 when absent) of its entry and assigned to the
    owner of that product; with any other answer the store is the one from
    before the call and nothing is broadcast. *)
Theorem orders_create_outcome current_user now_ms items db :
  let res := orders_create current_user now_ms items db in
  let bundle := legacy_bundle_id now_ms (user_id current_user) in
  match fst (fst res) with
  | CreatedLegacy ids bundles =>
      exists created,
        orders (snd (fst res)) = orders db ++ created /\
        users (snd (fst res)) = users db /\
        ids = map order_id created /\ bundles = [bundle] /\
        length (snd res) = length created /\
        Forall2 (legacy_line (user_id current_user) bundle (products db)) items created
  | _ => snd (fst res) = db /\ snd res = []
  end.
Proof.
  intros res bundle. subst res. unfold orders_create.
  destruct (negb _); [now split|]. destruct items as [|it0 rest] eqn:Hitems; [now split|].
  rewrite <- Hitems. fold bundle.
  destruct (legacy_loop _ _ _ _ _ _) as [err|[ps' created]] eqn:E.
  - cbn [fst snd].
    assert (forall ids bundles, err <> CreatedLegacy ids bundles) as Herr.
    { clear -E. revert E. generalize (next_order_id (orders db)) (products db)
        (@nil Order). induction items as [|it rest IH]; intros n ps cr E; simpl in E;
        [discriminate|].
      destruct (get_product _ ps) as [product|]; [|injection E as <-; discriminate].
      destruct (negb _); [injection E as <-; discriminate|].
      destruct (_ <? 1); [injection E as <-; discriminate|].
      destruct (stock product <? _); [injection E as <-; discriminate|].
      eapply IH, E. }
    destruct err; try (now split). exfalso. eapply Herr. reflexivity.
  - cbn [fst snd orders users].
    apply legacy_loop_lines in E as (news & Hc & _ & Hlines). simpl in Hc. subst created.
    exists news. repeat split; auto. now rewrite length_map.
Qed.

(** ** Stocks stay non-negative *)

Lemma unique_id_same_row ps p q :
  NoDup (map product_id ps) -> In p ps -> In q ps -> product_id p = product_id q -> p = q.
Proof.
  induction ps as [|x ps IH]; simpl; [intros _ []|].
  intros Hnd Hp Hq Hid. apply NoDup_cons in Hnd as [Hx Hnd].
  assert (forall y, In y ps -> product_id y <> product_id x) as Hne.
  { intros y Hy E. apply Hx. rewrite <- E. apply list_elem_of_In, in_map, Hy. }
  destruct Hp as [->|Hp], Hq as [->|Hq]; auto.
  - exfalso. eapply Hne; [exact Hq|]. congruence.
  - exfalso. eapply Hne; [exact Hp|]. congruence.
Qed.

Lemma get_product_found pid ps p : get_product pid ps = Some p -> In p ps.
Proof. intros H. now apply find_some in H as [H _]. Qed.

Lemma purchase_nonneg pid qty ps product :
  NoDup (map product_id ps) -> stocks_nonneg ps ->
  In product ps -> product_id product = pid -> qty <= stock product ->
  stocks_nonneg (purchase pid qty ps).
Proof.
  intros Hnd Hps Hin Hid Hq. unfold stocks_nonneg, purchase.
  apply Forall_forall. intros p' Hp'.
  apply list_elem_of_In, in_map_iff in Hp' as (p & <- & Hp).
  destruct (bool_decide (product_id p = pid)) eqn:E.
  - apply bool_decide_eq_true in E.
    assert (p = product) as -> by (eapply unique_id_same_row; eauto; congruence).
    simpl. lia.
  - unfold stocks_nonneg in Hps. rewrite Forall_forall in Hps.
    now apply Hps, list_elem_of_In.
Qed.

Lemma legacy_loop_nonneg uid bundle items next_id ps created ps' created' :
  NoDup (map product_id ps) -> stocks_nonneg ps ->
  legacy_loop uid bundle items next_id ps created = inr (ps', created') ->
  stocks_nonneg ps'.
Proof.
  revert next_id ps created.
  induction items as [|it rest IH]; intros next_id ps created Hnd Hps H; simpl in H.
  - now injection H as <- _.
  - destruct (get_product _ ps) as [product|] eqn:Ep; [|discriminate].
    destruct (negb _); [discriminate|].
    destruct (_ <? 1); [discriminate|].
    destruct (stock product <? _) eqn:Es; [discriminate|].
    apply Z.ltb_ge in Es. apply IH in H; [exact H|now rewrite purchase_ids|].
    eapply purchase_nonneg; eauto using get_product_found.
Qed.

(** X9.  The legacy routes never oversell: on a store with unique product
    ids and no negative stock, [orders_create] and [api_create_order] leave
    no negative stock, whatever the cart (a product asked for on several
    lines included, since each line is checked against the stock left by the
    lines before it). *)
Theorem legacy_routes_never_oversell current_user now_ms db :
  product_ids_unique db -> stocks_nonneg (products db) ->
  (forall items,
      stocks_nonneg (products (snd (fst (orders_create current_user now_ms items db))))) /\
  (forall pid quantity,
      stocks_nonneg
        (products (snd (fst (api_create_order current_user now_ms pid quantity db))))).
Proof.
  unfold product_ids_unique. intros Hnd Hps. split.
  - intros items. unfold orders_create.
    destruct (negb _); [exact Hps|]. destruct items as [|it0 rest]; [exact Hps|].
    destruct (legacy_loop _ _ _ _ _ _) as [err|[ps' created]] eqn:E; [exact Hps|].
    cbn [fst snd products]. eapply legacy_loop_nonneg; eauto.
  - intros pid quantity. unfold api_create_order.
    destruct (negb _); [exact Hps|].
    destruct (pid ≫= _) as [product|] eqn:Ep; [|exact Hps].
    destruct (negb _); [exact Hps|].
    destruct (_ <? 1); [exact Hps|].
    destruct (stock product <? _) eqn:Es; [exact Hps|].
    apply Z.ltb_ge in Es. cbn [fst snd products].
    destruct pid as [i|]; [|discriminate]. simpl in Ep.
    eapply purchase_nonneg; eauto using get_product_found.
Qed.

Lemma line_found_row ann ps it prod q :
  line_found ann ps it = Some (prod, q) ->
  In prod ps /\ line_key it = (name prod, category prod) /\
  owner_id prod = user_id ann /\ q = it_qty it /\ q <= stock prod.
Proof.
  unfold line_found. destruct (find_product ann it ps) as [p|] eqn:E; [|discriminate].
  destruct (stock p <? it_qty it) eqn:Es; [discriminate|]. intros [= <- <-].
  apply Z.ltb_ge in Es. apply find_some in E as [Hin Hm].
  unfold product_of_annachi in Hm.
  repeat (apply andb_true_iff in Hm as [Hm ?]).
  repeat match goal with H : bool_decide _ = true |- _ => apply bool_decide_eq_true in H end.
  unfold line_key. repeat split; auto; congruence.
Qed.

Lemma omap_cons_unfold {A B} (f : A -> option B) x l :
  omap f (x :: l) = match f x with Some y => y :: omap f l | None => omap f l end.
Proof. reflexivity. Qed.

Lemma sold_none ann ps items pid :
  (forall it prod q, In it items -> line_found ann ps it = Some (prod, q) ->
                     product_id prod <> pid) ->
  sold pid (omap (line_found ann ps) items) = 0.
Proof.
  induction items as [|it rest IH]; intros H; [reflexivity|].
  rewrite omap_cons_unfold.
  destruct (line_found ann ps it) as [[prod q]|] eqn:E.
  - unfold sold. simpl.
    rewrite bool_decide_eq_false_2 by (eapply H; [now left|exact E]).
    apply IH. intros it' prod' q' Hin. apply H. now right.
  - apply IH. intros it' prod' q' Hin. apply H. now right.
Qed.

(** With pairwise different products on the lines, what is asked of a row is
    at most its stock. *)
Lemma sold_within_stock ann ps items p :
  NoDup (map product_id ps) -> NoDup (map line_key items) ->
  In p ps -> 0 <= stock p ->
  sold (product_id p) (omap (line_found ann ps) items) <= stock p.
Proof.
  intros Hnd Hkeys Hp Hs. induction items as [|it rest IH]; [exact Hs|].
  simpl in Hkeys. apply NoDup_cons in Hkeys as [Hkey Hkeys].
  rewrite omap_cons_unfold.
  destruct (line_found ann ps it) as [[prod q]|] eqn:E; [|now apply IH].
  apply line_found_row in E as (Hin & Hk & _ & _ & Hq).
  unfold sold. simpl.
  destruct (bool_decide (product_id prod = product_id p)) eqn:Eid; [|now apply IH].
  apply bool_decide_eq_true in Eid.
  assert (prod = p) as -> by (eapply unique_id_same_row; eauto).
  simpl. fold (sold (product_id p) (omap (line_found ann ps) rest)).
  rewrite sold_none; [lia|].
  intros it' prod' q' Hit' E' Hid'.
  apply line_found_row in E' as (Hin' & Hk' & _).
  assert (prod' = p) as -> by (eapply unique_id_same_row; eauto).
  apply Hkey. rewrite Hk, <- Hk'. apply list_elem_of_In, in_map, Hit'.
Qed.

Lemma Forall2_Forall_right {A B} (R : A -> B -> Prop) (Q : B -> Prop) l k :
  Forall2 R l k -> (forall x y, In x l -> R x y -> Q y) -> Forall Q k.
Proof.
  induction 1 as [|x y l k Hxy _ IH]; intros H; constructor.
  - apply (H x); [now left|exact Hxy].
  - apply IH. intros x' y' Hx'. apply H. now right.
Qed.

Section NoOversell.

Variable haversine : Q -> Q -> Q -> Q -> option Q.

(** X10.  [orders_create_auto] does not oversell a request whose lines name
    pairwise different products (name and category, after normalisation): on
    a store with unique product ids and no negative stock it leaves no
    negative stock. *)
Theorem auto_distinct_lines_never_oversell current_user now_ms commit_ok items
    consumer_info db :
  product_ids_unique db -> stocks_nonneg (products db) ->
  NoDup (map (fun it => line_key (normalize it)) items) ->
  stocks_nonneg (products (snd (fst (orders_create_auto haversine current_user now_ms
                                       commit_ok items consumer_info db)))).
Proof.
  unfold product_ids_unique. intros Hnd Hps Hkeys.
  destruct (orders_create_auto_cases haversine current_user now_ms commit_ok items
              consumer_info db)
    as [(-> & _)|(normalized & ann & dist & _ & _ & Hnorm & _ & _ & ->)]; [exact Hps|].
  cbn [fst snd products].
  rewrite normalize_items_spec in Hnorm.
  destruct (List.find invalid_item items); [discriminate|].
  injection Hnorm as <-. simpl app.
  eapply Forall2_Forall_right; [apply purchases_rowwise|].
  intros p p' Hp (_ & _ & _ & _ & _ & Hstock & _). simpl. rewrite Hstock.
  unfold stocks_nonneg in Hps. rewrite Forall_forall in Hps.
  assert (0 <= stock p) as H0 by (now apply Hps, list_elem_of_In).
  pose proof (sold_within_stock ann (products db) (map normalize items) p Hnd) as Hle.
  rewrite map_map in Hle. specialize (Hle Hkeys Hp H0). lia.
Qed.

End NoOversell.

(** ** Who gets the lines, and who may change them *)

Lemma find_none_all {A} (f : A -> bool) l x :
  List.find f l = None -> In x l -> f x = false.
Proof. intros H Hx. exact (find_none f l H x Hx). Qed.

Lemma valid_normalized it :
  invalid_item it = false ->
  in_fixed_cats (it_category (normalize it)) = true /\ 1 <= it_qty (normalize it).
Proof.
  unfold invalid_item, normalize. simpl. intros H.
  apply orb_false_iff in H as [H Hq]. apply orb_false_iff in H as [_ Hc].
  apply negb_false_iff in Hc. apply Z.ltb_ge in Hq. auto.
Qed.

Section Provider.

Variable haversine : Q -> Q -> Q -> Q -> option Q.

Lemma select_returns_annachi all_users pin clat clng chosen dist :
  select_best_annachi haversine all_users pin clat clng = (Some chosen, dist) ->
  In chosen all_users /\ role chosen = "annachi"%string.
Proof.
  intros Hsel.
  assert (In chosen (List.filter is_annachi all_users)) as Hin.
  { destruct (select_unfold haversine all_users pin clat clng)
      as [[_ Hs]|(ch0 & ch & _ & Hpool & Hch & Hs)]; rewrite Hs in Hsel;
      [discriminate|].
    injection Hsel as <- _.
    assert (In ch0 (List.filter is_annachi all_users)) as Hch0.
    { destruct pin as [p|]; [|exact Hpool].
      destruct (Py.truthy p); [|exact Hpool].
      destruct (List.filter (same_pincode p) _) eqn:Ep; [exact Hpool|].
      rewrite <- Ep in Hpool. now apply filter_In in Hpool as [? _]. }
    subst ch. destruct clat as [la|], clng as [lo|]; try exact Hch0.
    destruct (out_of_radius _ _ _ ch0); [|exact Hch0].
    destruct (Py.sorted key2_ltb _ _) as [|t ts] eqn:Es; [exact Hch0|].
    assert (In t (inrad_of haversine (Some la) (Some lo)
                    (List.filter is_annachi all_users))) as Ht
      by (eapply sorted_In; rewrite Es; now left).
    now apply elem_of_inrad_iff in Ht as [Ht _]. }
  apply filter_In in Hin as [Hu Hr]. split; [exact Hu|].
  now apply bool_decide_eq_true in Hr.
Qed.

(** The lines of a new bundle, one by one. *)
Lemma auto_created_lines current_user now_ms commit_ok items consumer_info db
    ids bundle ann_id dist :
  fst (fst (orders_create_auto haversine current_user now_ms commit_ok items
              consumer_info db)) = Created ids bundle ann_id dist ->
  (exists ann, In ann (users db) /\ role ann = "annachi"%string /\ user_id ann = ann_id) /\
  exists created,
    orders (snd (fst (orders_create_auto haversine current_user now_ms commit_ok
                        items consumer_info db))) = orders db ++ created /\
    ids = map order_id created /\
    Forall (fun o => bundle_id o = Some bundle) created /\
    Forall (auto_line ann_id (products db)) created.
Proof.
  intros Hresp.
  destruct (orders_create_auto_cases haversine current_user now_ms commit_ok items
              consumer_info db)
    as [(_ & _ & Hno)|(normalized & ann & d & _ & _ & Hnorm & Hsel & Hav & Hres)].
  { exfalso. eapply Hno, Hresp. }
  cbv zeta in Hres. rewrite Hres in Hresp |- *. cbn [fst snd orders] in Hresp |- *.
  injection Hresp as <- <- <- <-.
  apply select_returns_annachi in Hsel as [Hu Hr].
  split; [exists ann; auto|].
  eexists. split; [reflexivity|]. split; [reflexivity|].
  rewrite normalize_items_spec in Hnorm.
  destruct (List.find invalid_item items) eqn:Efind; [discriminate|].
  injection Hnorm as <-. simpl app in *.
  pose proof (found_all ann (products db) (map normalize items) Hav) as Hfound.
  pose proof (new_orders_lines (user_id current_user) (user_id ann)
                (auto_bundle_id now_ms (user_id current_user) (user_id ann))
                (omap (line_found ann (products db)) (map normalize items))
                (next_order_id (orders db))) as Hlines.
  split.
  - eapply Forall2_Forall_right; [exact Hlines|]. simpl. intros r o _ H. apply H.
  - revert Hfound Hlines.
    generalize (new_orders (user_id current_user) (user_id ann)
                  (auto_bundle_id now_ms (user_id current_user) (user_id ann))
                  (omap (line_found ann (products db)) (map normalize items))
                  (next_order_id (orders db))).
    generalize (omap (line_found ann (products db)) (map normalize items)).
    assert (forall it, In it items -> invalid_item it = false) as Hvalid
        by (intros it Hit; exact (find_none_all _ _ _ Efind Hit)).
    clear -Hvalid. induction items as [|it rest IH]; intros rows created Hf Hl.
    + inversion Hf; subst. inversion Hl. constructor.
    + simpl in Hf. inversion Hf as [|? r ? rows' [Hp [Hq Hs]] Hf']; subst.
      inversion Hl as [|? o ? created' (H1 & H2 & H3 & H4 & H5 & H6) Hl']; subst.
      constructor;
        [|eapply IH; [intros; apply Hvalid; now right|exact Hf'|exact Hl']].
      destruct (valid_normalized it) as [Hcat Hqty]; [apply Hvalid; now left|].
      split; [exact H5|]. split; [exact H4|].
      apply find_some in Hp as [Hin Hm]. unfold product_of_annachi in Hm.
      repeat (apply andb_true_iff in Hm as [Hm ?]).
      repeat match goal with
             | H : bool_decide _ = true |- _ => apply bool_decide_eq_true in H
             end.
      exists (fst r). repeat split; auto; try congruence; lia.
Qed.


(** X11.  A bundle written by [orders_create_auto] is consistent: the
    provider it names is an annachi of the user table, and every new line is
    Pending, assigned to that provider, for a product row that the provider
    owns, of a catalogue category, with a quantity between 1 and the stock
    the row had. *)
Theorem auto_bundle_consistent current_user now_ms commit_ok items consumer_info db
    ids bundle ann_id dist :
  fst (fst (orders_create_auto haversine current_user now_ms commit_ok items
              consumer_info db)) = Created ids bundle ann_id dist ->
  (exists ann, In ann (users db) /\ role ann = "annachi"%string /\ user_id ann = ann_id) /\
  exists created,
    orders (snd (fst (orders_create_auto haversine current_user now_ms commit_ok
                        items consumer_info db))) = orders db ++ created /\
    ids = map order_id created /\
    Forall (fun o => bundle_id o = Some bundle) created /\
    Forall (auto_line ann_id (products db)) created.
Proof. apply auto_created_lines. Qed.

End Provider.

Lemma unique_order_same_row os o1 o2 :
  NoDup (map order_id os) -> In o1 os -> In o2 os -> order_id o1 = order_id o2 -> o1 = o2.
Proof.
  induction os as [|x os IH]; simpl; [intros _ []|].
  intros Hnd H1 H2 Hid. apply NoDup_cons in Hnd as [Hx Hnd].
  assert (forall y, In y os -> order_id y <> order_id x) as Hne.
  { intros y Hy E. apply Hx. rewrite <- E. apply list_elem_of_In, in_map, Hy. }
  destruct H1 as [->|H1], H2 as [->|H2]; auto.
  - exfalso. eapply Hne; [exact H2|]. congruence.
  - exfalso. eapply Hne; [exact H1|]. congruence.
Qed.

Lemma bundle_row_is_authorized uid bundle ps o :
  bundle_row uid bundle ps o = true -> row_authorized uid ps o = true.
Proof.
  unfold bundle_row, row_authorized.
  destruct (get_product _ ps); [|discriminate].
  intros H. now apply andb_true_iff in H as [_ H].
Qed.

Lemma truthy_str_or (x : option string) :
  Py.truthy (Py.str_or x "") = true ->
  exists st, x = Some st /\ st <> ""%string /\ Py.str_or x "" = st.
Proof.
  unfold Py.str_or. destruct x as [s|]; [|discriminate].
  destruct (Py.truthy s) eqn:E; [|discriminate]. intros _.
  exists s. split; [reflexivity|]. split; [|reflexivity]. intros ->. discriminate.
Qed.

Section Guard.

Variable int_of_str : string -> option Z.

(** X12.  A status update changes nothing but statuses, and only on lines
    the caller may touch: on a store with unique order ids, after any call
    of [annachi_orders_update] the user and product tables are the same, and
    every order row is either unchanged or is the old row with the requested
    non-empty status, in which case the caller has the annachi role, the
    product row of the line exists, and the caller owns it or is the
    assigned provider of the line. *)
Theorem status_update_guarded current_user oid new_status db :
  order_ids_unique db ->
  let res := annachi_orders_update int_of_str current_user oid new_status db in
  users (snd (fst res)) = users db /\
  products (snd (fst res)) = products db /\
  Forall2 (fun o o' =>
             o' = o \/
             (role current_user = "annachi"%string /\
              row_authorized (user_id current_user) (products db) o = true /\
              exists st, new_status = Some st /\ st <> ""%string /\
                         o' = set_status st o))
          (orders db) (orders (snd (fst res))).
Proof.
  intros Hnd res. subst res. unfold order_ids_unique in Hnd.
  assert (forall db0 : Db, db0 = db ->
            users db0 = users db /\ products db0 = products db /\
            Forall2 (fun o o' =>
                       o' = o \/
                       (role current_user = "annachi"%string /\
                        row_authorized (user_id current_user) (products db) o = true /\
                        exists st, new_status = Some st /\ st <> ""%string /\
                                   o' = set_status st o))
                    (orders db) (orders db0)) as Hsame.
  { intros db0 ->. repeat split. rewrite <- (map_id (orders db)) at 2.
    apply Forall2_map_self. now left. }
  unfold annachi_orders_update.
  destruct (bool_decide (role current_user = "annachi"%string)) eqn:Hrole;
    simpl negb; cbv iota; [|now apply Hsame].
  apply bool_decide_eq_true in Hrole.
  destruct (String.prefix _ _).
  - destruct (List.filter _ _) as [|r rows]; [now apply Hsame|].
    destruct (Py.truthy _) eqn:Hst; [|now apply Hsame].
    apply truthy_str_or in Hst as (st & Hnew & Hne & ->).
    cbn [fst snd users products orders]. repeat split.
    apply Forall2_map_self. intros o _.
    destruct (bundle_row _ _ _ o) eqn:E; [right|now left].
    split; [exact Hrole|]. split; [eapply bundle_row_is_authorized, E|].
    exists st. auto.
  - destruct (int_of_str oid) as [n|]; [|now apply Hsame].
    destruct (get_order n (orders db)) as [order|] eqn:Eo; [|now apply Hsame].
    destruct (get_product _ _) as [p|] eqn:Ep; [|now apply Hsame].
    destruct (_ && _) eqn:Eauth; [now apply Hsame|].
    destruct (Py.truthy _) eqn:Hst; [|now apply Hsame].
    apply truthy_str_or in Hst as (st & Hnew & Hne & ->).
    cbn [fst snd users products orders]. repeat split.
    apply Forall2_map_self. intros o Ho.
    destruct (bool_decide (order_id o = n)) eqn:E; [right|now left].
    apply bool_decide_eq_true in E.
    apply find_some in Eo as [Hin Hid]. apply bool_decide_eq_true in Hid.
    assert (o = order) as -> by (eapply unique_order_same_row; eauto; congruence).
    split; [exact Hrole|]. split; [|exists st; auto].
    unfold row_authorized. rewrite Ep.
    destruct (bool_decide (owner_id p = user_id current_user)); [reflexivity|].
    destruct (bool_decide (assigned_annachi_id order = Some (user_id current_user)));
      [reflexivity|discriminate].
Qed.

End Guard.

(** ** From placement to packing *)

Section PlaceThenPack.

Variable haversine : Q -> Q -> Q -> Q -> option Q.
Variable int_of_str : string -> option Z.

Lemma bundle_update_response current_user bundle st db o :
  role current_user = "annachi"%string ->
  Py.truthy st = true ->
  In o (orders db) ->
  bundle_row (user_id current_user) bundle (products db) o = true ->
  fst (fst (annachi_orders_update int_of_str current_user ("BUNDLE_" +:+ bundle)
              (Some st) db)) = BundleUpdated bundle st.
Proof.
  intros Hrole Hst Hin Hrow. unfold annachi_orders_update.
  rewrite (bool_decide_eq_true_2 _ Hrole). simpl negb. cbv iota.
  change (String.prefix "BUNDLE_" ("BUNDLE_" +:+ bundle)) with (String.prefix "" bundle).
  assert (String.prefix "" bundle = true) as -> by (now destruct bundle).
  change (drop_chars 7 ("BUNDLE_" +:+ bundle)) with bundle.
  destruct (List.filter _ (orders db)) as [|r rows] eqn:Ef.
  - assert (In o (List.filter (bundle_row (user_id current_user) bundle (products db))
                    (orders db))) as H by (apply filter_In; auto).
    rewrite Ef in H. destruct H.
  - unfold Py.str_or. repeat (rewrite Hst; cbv iota). reflexivity.
Qed.

(** X13.  Placement and packing fit together.  After a successful
    [orders_create_auto] on a store whose orders all have their product row,
    the provider named in the answer can set the status of the whole new
    bundle in one call with the id [BUNDLE_<bundle id>]: the call succeeds
    and every line written by the placement is in the order table with the
    new status. *)
Theorem placed_bundle_can_be_packed current_user now_ms commit_ok items consumer_info
    db ids bundle ann_id dist ann st :
  referential_integrity db ->
  fst (fst (orders_create_auto haversine current_user now_ms commit_ok items
              consumer_info db)) = Created ids bundle ann_id dist ->
  role ann = "annachi"%string -> user_id ann = ann_id ->
  Py.truthy st = true ->
  let db1 := snd (fst (orders_create_auto haversine current_user now_ms commit_ok
                         items consumer_info db)) in
  let res := annachi_orders_update int_of_str ann ("BUNDLE_" +:+ bundle) (Some st) db1 in
  fst (fst res) = BundleUpdated bundle st /\
  exists created,
    created <> [] /\ orders db1 = orders db ++ created /\ ids = map order_id created /\
    Forall (fun o => In (set_status st o) (orders (snd (fst res)))) created.
Proof.
  intros Hri Hresp Hrole Hid Hst db1 res.
  pose proof (integrity_after_auto haversine current_user now_ms commit_ok items
                consumer_info db Hri) as Hri1. fold db1 in Hri1.
  destruct (auto_created_lines haversine _ _ _ _ _ _ _ _ _ _ Hresp)
    as (_ & created & Hord & Hids & Hb & Hlines). fold db1 in Hord.
  assert (created <> []) as Hne.
  { destruct (orders_create_auto_cases haversine current_user now_ms commit_ok items
                consumer_info db)
      as [(_ & _ & Hno)|(normalized & a0 & d0 & _ & Hitems & Hnorm & _ & Hav & Hres)].
    { exfalso. eapply Hno, Hresp. }
    cbv zeta in Hres. fold db1 in Hord. unfold db1 in Hord. rewrite Hres in Hord.
    cbn [fst snd orders] in Hord. apply app_inv_head in Hord. subst created.
    rewrite normalize_items_spec in Hnorm.
    destruct (List.find invalid_item items); [discriminate|]. injection Hnorm as <-.
    pose proof (Forall2_length _ _ _ (found_all a0 (products db) _ Hav)) as H1.
    pose proof (Forall2_length _ _ _
                  (new_orders_lines (user_id current_user) (user_id a0)
                     (auto_bundle_id now_ms (user_id current_user) (user_id a0))
                     (omap (line_found a0 (products db)) (map normalize items))
                     (next_order_id (orders db)))) as H2.
    simpl app in *. rewrite length_map in H1.
    assert (length items <> 0%nat) as H3 by (destruct items; [contradiction|discriminate]).
    intros E. rewrite E in H2. simpl in H2. lia. }
  assert (forall o, In o created ->
            bundle_row (user_id ann) bundle (products db1) o = true) as Hrow.
  { intros o Ho. unfold bundle_row.
    assert (In o (orders db1)) as Ho1 by (rewrite Hord; apply in_or_app; now right).
    destruct (Hri1 o Ho1) as [p ->].
    rewrite Forall_forall in Hb, Hlines.
    apply list_elem_of_In in Ho.
    rewrite (bool_decide_eq_true_2 _ (Hb o Ho)).
    destruct (Hlines o Ho) as (Ha & _). rewrite Ha, Hid.
    rewrite (bool_decide_eq_true_2 (Some ann_id = Some ann_id)) by reflexivity.
    now rewrite orb_true_r. }
  split.
  - destruct created as [|o0 rest]; [contradiction|].
    eapply (bundle_update_response ann bundle st db1 o0); auto.
    + rewrite Hord. apply in_or_app. right. now left.
    + apply Hrow. now left.
  - exists created. repeat split; auto.
    apply Forall_forall. intros o Ho. apply list_elem_of_In in Ho.
    subst res.
    destruct (bundle_update_rows int_of_str ann ("BUNDLE_" +:+ bundle) st db1)
      as (_ & _ & ->); auto; [now destruct bundle|].
    change (drop_chars 7 ("BUNDLE_" +:+ bundle)) with bundle.
    apply in_map_iff. exists o. rewrite (Hrow o Ho).
    split; [reflexivity|]. rewrite Hord. apply in_or_app. now right.
Qed.

(** X14.  The foreign key of the order table is an invariant of the core: on
    a store where every order has its product row, the three order-creating
    routes and the status update lead to a store where this still holds. *)
Theorem core_keeps_integrity current_user now_ms db :
  referential_integrity db ->
  (forall commit_ok items consumer_info,
      referential_integrity
        (snd (fst (orders_create_auto haversine current_user now_ms commit_ok items
                     consumer_info db)))) /\
  (forall items,
      referential_integrity (snd (fst (orders_create current_user now_ms items db)))) /\
  (forall pid quantity,
      referential_integrity
        (snd (fst (api_create_order current_user now_ms pid quantity db)))) /\
  (forall oid new_status,
      referential_integrity
        (snd (fst (annachi_orders_update int_of_str current_user oid new_status db)))).
Proof.
  intros Hri. repeat split; intros.
  - now apply integrity_after_auto.
  - now apply integrity_after_legacy.
  - now apply integrity_after_single.
  - now apply integrity_after_update.
Qed.

End PlaceThenPack.

(** ** The hub and its subscribers *)

(** X15.  With [SimpleQueue] subscribers the hub loses nothing and keeps the
    order: after the events of a handler have been broadcast one by one, the
    registry has the same subscribers, and every queue is the queue from
    before followed by the events in the order of the calls. *)
Theorem hub_delivers_in_order (events : list Event)
    (subscribers : gmap positive SimpleQueue) :
  dom (emit events subscribers) = dom subscribers /\
  forall q old, subscribers !! q = Some old ->
                emit events subscribers !! q = Some (old ++ events).
Proof.
  rewrite emit_simple_queue. split.
  - apply dom_fmap_L.
  - intros q old H. now rewrite lookup_fmap, H.
Qed.

Lemma stream_all q (events : list Event) (subs : gmap positive SimpleQueue) :
  subs !! q = Some events -> stream (length events) q subs = events.
Proof.
  revert subs. induction events as [|ev events IH]; intros subs H; [reflexivity|].
  simpl. unfold get_message. rewrite H. f_equal. apply IH. apply lookup_insert_eq.
Qed.

(** X16.  A subscriber of [event_stream] sees exactly what is broadcast
    while it is registered.  Registering adds one empty queue under a key
    the registry did not hold; the events broadcast after that come out of
    the generator in the order of the broadcasts, while the queues of the
    other subscribers get the same events as without the newcomer; and
    discarding the queue right after registering gives back the registry
    from before. *)
Theorem event_stream_sees_later_events (subscribers : gmap positive SimpleQueue)
    (events : list Event) :
  let q := fst (subscribe subscribers) in
  let subs := snd (subscribe subscribers) in
  subscribers !! q = None /\
  stream (length events) q (emit events subs) = events /\
  (forall q', q' <> q -> emit events subs !! q' = emit events subscribers !! q') /\
  unsubscribe q subs = subscribers.
Proof.
  intros q subs. subst q subs. unfold subscribe. cbn [fst snd].
  set (q := fresh (dom subscribers)).
  assert (subscribers !! q = None) as Hq by (apply not_elem_of_dom, is_fresh).
  split; [exact Hq|]. split; [|split].
  - apply stream_all. rewrite emit_simple_queue, lookup_fmap, lookup_insert_eq.
    reflexivity.
  - intros q' Hne. rewrite !emit_simple_queue, !lookup_fmap.
    now rewrite lookup_insert_ne by congruence.
  - unfold unsubscribe. now apply delete_insert_id.
Qed.

(** ** Bundle identifiers *)

Lemma digits_without c x s :
  (forall k, pretty_N_char k <> c) ->
  after_last c s = None -> after_last c (pretty_N_go x s) = None.
Proof.
  intros Hc. revert s. induction (N.lt_wf_0 x) as [x _ IH]. intros s Hs.
  destruct (N.eq_dec x 0%N) as [->|Hx]; [exact Hs|].
  rewrite pretty_N_go_step by lia. apply IH; [apply N.div_lt; lia|].
  now apply after_last_none_cons.
Qed.

Lemma str_of_nonneg_no_dash n : 0 <= n -> after_last "-" (Py.str_of_int n) = None.
Proof.
  intros Hn. unfold Py.str_of_int, pretty, pretty_Z.
  destruct n as [|p|p]; [reflexivity| |lia].
  unfold pretty, pretty_positive, pretty, pretty_N.
  case_decide; [reflexivity|]. apply digits_without; [|reflexivity].
  intros k. unfold pretty_N_char. now repeat case_match.
Qed.

Lemma before_first_app c s t :
  after_last c s = None -> before_first c (s +:+ String c t) = s.
Proof.
  induction s as [|x s IH]; intros H.
  - simpl. now rewrite bool_decide_eq_true_2.
  - simpl in H. destruct (after_last c s) eqn:E; [discriminate|].
    destruct (bool_decide (x = c)) eqn:Ex; [discriminate|].
    simpl. rewrite Ex. f_equal. now apply IH.
Qed.

Lemma after_first_app c s t :
  after_last c s = None -> after_first c (s +:+ String c t) = t.
Proof.
  induction s as [|x s IH]; intros H.
  - simpl. now rewrite bool_decide_eq_true_2.
  - simpl in H. destruct (after_last c s) eqn:E; [discriminate|].
    destruct (bool_decide (x = c)) eqn:Ex; [discriminate|].
    simpl. rewrite Ex. now apply IH.
Qed.

Lemma auto_bundle_id_shape now_ms uid ann_id :
  auto_bundle_id now_ms uid ann_id =
  Py.str_of_int now_ms +:+
    String "-" (Py.str_of_int uid +:+ String "-" (String "A" (Py.str_of_int ann_id))).
Proof. reflexivity. Qed.

(** X17.  The bundle id of [orders_create_auto] tells the submissions apart:
    for non-negative timestamps and consumer ids, two calls get the same
    bundle id only when they have the same millisecond, the same consumer
    and the same provider; and an auto bundle id is never a bundle id of the
    legacy routes. *)
Theorem auto_bundle_id_identifies now1 uid1 ann1 now2 uid2 ann2 :
  0 <= now1 -> 0 <= uid1 -> 0 <= now2 -> 0 <= uid2 ->
  (auto_bundle_id now1 uid1 ann1 = auto_bundle_id now2 uid2 ann2 ->
   now1 = now2 /\ uid1 = uid2 /\ ann1 = ann2) /\
  auto_bundle_id now1 uid1 ann1 <> legacy_bundle_id now2 uid2 /\
  auto_bundle_id now1 uid1 ann1 <> single_bundle_id now2 uid2.
Proof.
  intros Ht1 Hu1 Ht2 Hu2. split; [|split].
  - intros H. pose proof (auto_bundle_id_inj _ _ _ _ _ _ H) as Ha.
    rewrite !auto_bundle_id_shape in H.
    pose proof (f_equal (before_first "-") H) as Hb.
    rewrite !before_first_app in Hb by now apply str_of_nonneg_no_dash.
    apply pretty_Z_inj in Hb.
    apply (f_equal (after_first "-")) in H.
    rewrite !after_first_app in H by now apply str_of_nonneg_no_dash.
    apply (f_equal (before_first "-")) in H.
    rewrite !before_first_app in H by now apply str_of_nonneg_no_dash.
    apply pretty_Z_inj in H. auto.
  - intros H. apply (f_equal (after_last "A")) in H.
    rewrite auto_bundle_id_provider, legacy_bundle_id_no_A in H. discriminate.
  - intros H. apply (f_equal (after_last "A")) in H.
    rewrite auto_bundle_id_provider, single_bundle_id_no_A in H. discriminate.
Qed.

(** ** Stock edits and shop profiles *)

Section EditFacts.

Variable int_of_str : string -> option Z.

(** X18.  Only the owner edits a stock, and never to a negative value: on a
    store with unique product ids, after any call of [annachi_edit] the user
    and order tables are the same, and every product row is either unchanged
    or is the row of the given id, owned by the calling annachi, with its
    stock replaced by the non-negative number read from the form and its
    other columns (the sold counter included) as before. *)
Theorem annachi_edit_guarded current_user pid stock_val db :
  product_ids_unique db ->
  let res := annachi_edit int_of_str current_user pid stock_val db in
  users (snd res) = users db /\ orders (snd res) = orders db /\
  Forall2 (fun p p' =>
             p' = p \/
             (role current_user = "annachi"%string /\
              owner_id p = user_id current_user /\ product_id p = pid /\
              exists n, stock_val ≫= int_of_str = Some n /\ 0 <= n /\
                        p' = set_stock n p))
          (products db) (products (snd res)).
Proof.
  intros Hnd res. subst res. unfold product_ids_unique in Hnd.
  assert (forall db0 : Db, db0 = db ->
            users db0 = users db /\ orders db0 = orders db /\
            Forall2 (fun p p' =>
                       p' = p \/
                       (role current_user = "annachi"%string /\
                        owner_id p = user_id current_user /\ product_id p = pid /\
                        exists n, stock_val ≫= int_of_str = Some n /\ 0 <= n /\
                                  p' = set_stock n p))
                    (products db) (products db0)) as Hsame.
  { intros db0 ->. repeat split. rewrite <- (map_id (products db)) at 2.
    apply Forall2_map_self. now left. }
  unfold annachi_edit.
  destruct (bool_decide (role current_user = "annachi"%string)) eqn:Hrole;
    simpl negb; cbv iota; [|now apply Hsame].
  apply bool_decide_eq_true in Hrole.
  destruct (get_product pid (products db)) as [prod|] eqn:Ep; [|now apply Hsame].
  destruct (bool_decide (owner_id prod = user_id current_user)) eqn:Ho;
    simpl negb; cbv iota; [|now apply Hsame].
  apply bool_decide_eq_true in Ho.
  destruct (stock_val ≫= int_of_str) as [n|] eqn:En; [|now apply Hsame].
  destruct (n <? 0) eqn:Hn; [now apply Hsame|]. apply Z.ltb_ge in Hn.
  cbn [snd users products orders]. repeat split.
  apply Forall2_map_self. intros p Hp.
  destruct (bool_decide (product_id p = pid)) eqn:E; [right|now left].
  apply bool_decide_eq_true in E.
  assert (p = prod) as ->.
  { eapply unique_id_same_row; eauto using get_product_found.
    apply get_product_id in Ep. congruence. }
  repeat split; auto. exists n. auto.
Qed.

End EditFacts.

Lemma rstrip_idempotent s : Py.rstrip (Py.rstrip s) = Py.rstrip s.
Proof.
  induction s as [|c t IH]; [reflexivity|]. simpl.
  destruct (Py.rstrip t) as [|d t'] eqn:E.
  - destruct (Py.is_space c) eqn:Ec; [reflexivity|]. simpl. now rewrite Ec.
  - change (Py.rstrip (String c (String d t')))
      with (match Py.rstrip (String d t') with
            | EmptyString => if Py.is_space c then EmptyString else String c EmptyString
            | t0 => String c t0
            end).
    now rewrite IH.
Qed.

Lemma lstrip_rstrip_clean s :
  Py.lstrip s = s -> Py.lstrip (Py.rstrip s) = Py.rstrip s.
Proof.
  destruct s as [|c t]; [reflexivity|]. simpl.
  destruct (Py.is_space c) eqn:Ec.
  - intros H. exfalso.
    assert (forall u, String.length (Py.lstrip u) <= String.length u)%nat as Hlen.
    { induction u as [|x u IHu]; simpl; [lia|]. destruct (Py.is_space x); simpl; lia. }
    specialize (Hlen t). rewrite H in Hlen. simpl in Hlen. lia.
  - intros _. destruct (Py.rstrip t); simpl; now rewrite Ec.
Qed.

Lemma lstrip_idempotent s : Py.lstrip (Py.lstrip s) = Py.lstrip s.
Proof.
  induction s as [|c t IH]; [reflexivity|]. simpl.
  destruct (Py.is_space c) eqn:Ec; [exact IH|]. simpl. now rewrite Ec.
Qed.

Lemma strip_idempotent s : Py.strip (Py.strip s) = Py.strip s.
Proof.
  unfold Py.strip.
  rewrite (lstrip_rstrip_clean (Py.lstrip s)) by apply lstrip_idempotent.
  apply rstrip_idempotent.
Qed.

(** X19.  A profile update touches the caller's row only and keeps the shop
    data sane.  After any call of [annachi_profile_location] the product and
    order tables are the same and every user row is unchanged or is the
    caller's row (the caller being an annachi) with the given fields
    replaced; ids and roles never change; a negative radius is not stored,
    so a table without negative radius stays so; and when a non-blank
    pincode is given, the stored pincode is the trimmed one and the row
    matches a request for the pincode as it was typed. *)
Theorem profile_update_frame current_user is_json form db :
  let res := annachi_profile_location current_user is_json form db in
  products (snd res) = products db /\ orders (snd res) = orders db /\
  Forall2 (fun u u' =>
             user_id u' = user_id u /\ role u' = role u /\
             (radius_ok u -> radius_ok u') /\
             (u' = u \/
              (role current_user = "annachi"%string /\
               user_id u = user_id current_user /\
               u' = update_location form u /\
               (Py.truthy (Py.strip (Py.str_or (loc_pincode form) "")) = true ->
                user_pincode u' = Some (Py.strip (Py.str_or (loc_pincode form) "")) /\
                same_pincode (Py.str_or (loc_pincode form) "") u' = true))))
          (users db) (users (snd res)).
Proof.
  intros res. subst res. unfold annachi_profile_location.
  destruct (bool_decide (role current_user = "annachi"%string)) eqn:Hrole;
    simpl negb; cbv iota; cbn [snd users products orders].
  - apply bool_decide_eq_true in Hrole. repeat split.
    apply Forall2_map_self. intros u _.
    destruct (bool_decide (user_id u = user_id current_user)) eqn:E.
    + apply bool_decide_eq_true in E.
      split; [reflexivity|]. split; [reflexivity|]. split.
      * unfold radius_ok, update_location. cbn [service_radius_km].
        intros Hu r. destruct (loc_radius form) as [x|]; [|apply Hu].
        destruct (0 <=? x) eqn:Ex; [|apply Hu].
        intros [= <-]. now apply Z.leb_le.
      * right. repeat split; auto.
        -- unfold update_location. cbn [user_pincode]. now rewrite H.
        -- unfold same_pincode, update_location. cbn [user_pincode]. rewrite H.
           apply bool_decide_eq_true. unfold Py.str_or at 1. rewrite H.
           apply strip_idempotent.
    + repeat split; auto.
  - repeat split. rewrite <- (map_id (users db)) at 2.
    apply Forall2_map_self. intros u _. repeat split; auto.
Qed.

(** ** Catalogue administration *)

Lemma find_map_pred {A} (pred : A -> bool) (f : A -> A) l :
  (forall x, pred (f x) = pred x) ->
  List.find pred (map f l) = f <$> List.find pred l.
Proof.
  intros Hf. induction l as [|x l IH]; [reflexivity|].
  simpl. rewrite Hf. destruct (pred x); [reflexivity|exact IH].
Qed.

Lemma find_same_pred {A} (f g : A -> bool) l :
  (forall x, f x = g x) -> List.find f l = List.find g l.
Proof.
  intros H. induction l as [|x l IH]; [reflexivity|].
  simpl. now rewrite H, IH.
Qed.

Lemma find_app_found {A} (pred : A -> bool) l k x :
  List.find pred l = Some x -> List.find pred (l ++ k) = Some x.
Proof.
  induction l as [|y l IH]; [discriminate|]. simpl.
  destruct (pred y); [trivial|exact IH].
Qed.

Lemma find_app_new {A} (pred : A -> bool) l x :
  List.find pred l = None -> pred x = true -> List.find pred (l ++ [x]) = Some x.
Proof.
  induction l as [|y l IH]; simpl; [now intros _ ->|].
  destruct (pred y); [discriminate|exact IH].
Qed.

Lemma lt_next_product_id p ps : In p ps -> product_id p < next_product_id ps.
Proof.
  unfold next_product_id. induction ps as [|x ps IH]; [intros []|].
  simpl. intros [->|H]; [lia|]. specialize (IH H). lia.
Qed.

Lemma catalog_row_set_stock owner nm cat pin s pid p :
  catalog_row owner nm cat pin
    (if bool_decide (product_id p = pid) then set_stock s p else p)
  = catalog_row owner nm cat pin p.
Proof. now destruct (bool_decide _). Qed.

Section Upsert.

Variables (pin nm cat : string) (new_mrp new_price : Q).
Variables (new_stock : option Z) (new_image : option string).

Lemma upsert_loop_steps anns ps ls n :
  upsert_loop anns pin nm cat new_mrp new_price new_stock new_image ps ls n =
  (fold_left (fun st a0 => upsert_step pin nm cat new_mrp new_price new_stock new_image a0 (fst st) (snd st)) anns (ps, ls),
   n + Z.of_nat (length anns)).
Proof.
  revert ps ls n. induction anns as [|a0 rest IH]; intros ps ls n.
  - simpl. rewrite Z.add_0_r. now destruct (ps, ls).
  - cbn [upsert_loop fold_left length fst snd].
    pose proof (eq_refl (upsert_step pin nm cat new_mrp new_price new_stock new_image a0 ps ls)) as Hs.
    unfold upsert_step at 2 in Hs. revert Hs.
    destruct (List.find (catalog_row (user_id a0) nm cat pin) ps) as [prod|];
      intros ->; cbv zeta; rewrite IH; (f_equal; lia).
Qed.

Lemma upsert_step_establishes a ps ls :
  upserted pin nm cat new_mrp new_price new_stock
    (fst (upsert_step pin nm cat new_mrp new_price new_stock new_image a ps ls)) (snd (upsert_step pin nm cat new_mrp new_price new_stock new_image a ps ls)) a.
Proof.
  unfold upsert_step, upserted.
  destruct (List.find (catalog_row (user_id a) nm cat pin) ps) as [prod|] eqn:E;
    cbn [fst snd].
  - exists (match new_stock with Some s => set_stock s prod | None => prod end).
    split; [|split].
    + destruct new_stock as [s|]; [|exact E].
      rewrite find_map_pred by (intros; apply catalog_row_set_stock).
      rewrite E. simpl. now rewrite bool_decide_eq_true_2.
    + intros s ->. reflexivity.
    + assert (product_id (match new_stock with
                          | Some s => set_stock s prod | None => prod end)
              = product_id prod) as -> by now destruct new_stock.
      unfold write_listing. eexists. rewrite lookup_insert_eq. auto.
  - eexists. split; [|split].
    + apply find_app_new; [exact E|]. unfold catalog_row. cbn.
      now rewrite !bool_decide_eq_true_2.
    + intros s ->. reflexivity.
    + cbn [product_id]. eexists. rewrite lookup_insert_eq. auto.
Qed.

Lemma upsert_step_preserves a a0 ps ls :
  upserted pin nm cat new_mrp new_price new_stock ps ls a ->
  upserted pin nm cat new_mrp new_price new_stock
    (fst (upsert_step pin nm cat new_mrp new_price new_stock new_image a0 ps ls)) (snd (upsert_step pin nm cat new_mrp new_price new_stock new_image a0 ps ls)) a.
Proof.
  intros (prod & Hfind & Hstock & l & Hl & Hm & Hp).
  unfold upsert_step, upserted.
  destruct (List.find (catalog_row (user_id a0) nm cat pin) ps) as [prod0|] eqn:E;
    cbn [fst snd].
  - exists (match new_stock with
            | Some s => if bool_decide (product_id prod = product_id prod0)
                        then set_stock s prod else prod
            | None => prod
            end).
    split; [|split].
    + destruct new_stock as [s|]; [|exact Hfind].
      rewrite find_map_pred by (intros; apply catalog_row_set_stock).
      now rewrite Hfind.
    + intros s ->. destruct (bool_decide _); [reflexivity|now apply Hstock].
    + assert (product_id (match new_stock with
                          | Some s => if bool_decide (product_id prod = product_id prod0)
                                      then set_stock s prod else prod
                          | None => prod
                          end) = product_id prod) as ->.
      { destruct new_stock; [destruct (bool_decide _)|]; reflexivity. }
      unfold write_listing.
      destruct (decide (product_id prod0 = product_id prod)) as [->|Hne].
      * eexists. rewrite lookup_insert_eq. auto.
      * exists l. rewrite lookup_insert_ne by exact Hne. auto.
  - exists prod. split; [now apply find_app_found|]. split; [exact Hstock|].
    exists l. rewrite lookup_insert_ne; [auto|].
    apply find_some in Hfind as [Hin _]. apply lt_next_product_id in Hin. lia.
Qed.

Lemma upsert_fold_reaches anns a st :
  In a anns \/ upserted pin nm cat new_mrp new_price new_stock (fst st) (snd st) a ->
  let st' := fold_left (fun st a0 => upsert_step pin nm cat new_mrp new_price new_stock new_image a0 (fst st) (snd st)) anns st in
  upserted pin nm cat new_mrp new_price new_stock (fst st') (snd st') a.
Proof.
  revert st. induction anns as [|a0 rest IH]; intros st H; cbn [fold_left].
  - destruct H as [[]|H]. exact H.
  - apply IH. destruct H as [[->|H]|H].
    + right. apply upsert_step_establishes.
    + now left.
    + right. now apply upsert_step_preserves.
Qed.

(** X20.  The admin upsert reaches every annachi of the pincode.  When some
    annachi has the given pincode and the given stock, if any, is one the
    stock column can hold, the call counts all the annachis of the pincode,
    and afterwards each of them has a catalogue row for the item with the
    given prices; when a stock was given the row has that stock, so that an
    order line for the item of at most that quantity is available from every
    one of these annachis.  With a stock the column cannot hold the call
    raises and the store is the one from before. *)
Theorem upsert_reaches_every_annachi all_users ps ls a :
  In a all_users -> role a = "annachi"%string -> user_pincode a = Some pin ->
  if storable new_stock then
    exists ps' ls',
      _admin_upsert_for_all_annachis_in_pin pin nm cat new_mrp new_price new_stock
        new_image all_users ps ls
      = (UpsertOk (Z.of_nat (length (List.filter (annachi_in_pin pin) all_users))),
         ps', ls') /\
      upserted pin nm cat new_mrp new_price new_stock ps' ls' a /\
      forall s qty, new_stock = Some s -> qty <= s ->
                    available a ps' (mkItem nm cat qty) = true
  else
    _admin_upsert_for_all_annachis_in_pin pin nm cat new_mrp new_price new_stock
      new_image all_users ps ls = (UpsertRaised, ps, ls).
Proof.
  intros Hin Hrole Hpin.
  assert (In a (List.filter (annachi_in_pin pin) all_users)) as Ha.
  { apply filter_In. split; [exact Hin|]. unfold annachi_in_pin.
    now rewrite !bool_decide_eq_true_2. }
  unfold _admin_upsert_for_all_annachis_in_pin.
  destruct (List.filter (annachi_in_pin pin) all_users) as [|a1 rest] eqn:Ef;
    [destruct Ha|]. rewrite <- Ef in *.
  destruct (storable new_stock); cbn [negb]; [|reflexivity].
  rewrite upsert_loop_steps.
  pose proof (upsert_fold_reaches (List.filter (annachi_in_pin pin) all_users) a
                (ps, ls) (or_introl Ha)) as Hup. cbv zeta in Hup.
  destruct (fold_left _ _ (ps, ls)) as [ps' ls']. cbn [fst snd] in Hup.
  exists ps', ls'. split; [reflexivity|]. split; [exact Hup|].
  intros s qty Hs Hq. destruct Hup as (prod & Hfind & Hstock & _).
  unfold available, find_product.
  assert (forall p, product_of_annachi a (mkItem nm cat qty) p
                    = catalog_row (user_id a) nm cat pin p) as Hkey.
  { intros p. unfold product_of_annachi, catalog_row. cbn [it_name it_category].
    rewrite Hpin. unfold Py.str_or. now destruct pin. }
  rewrite (find_same_pred _ _ ps' Hkey), Hfind.
  rewrite (Hstock s Hs). cbn [it_qty]. apply negb_true_iff, Z.ltb_ge, Hq.
Qed.

End Upsert.

Lemma same_but_stock_refl p : same_but_stock p p.
Proof. repeat split. Qed.

Lemma same_but_stock_trans p q r :
  same_but_stock p q -> same_but_stock q r -> same_but_stock p r.
Proof.
  unfold same_but_stock. intros (?&?&?&?&?&?) (?&?&?&?&?&?).
  repeat split; congruence.
Qed.

Lemma Forall2_same_but_stock_refl ps : Forall2 same_but_stock ps ps.
Proof. induction ps; constructor; auto using same_but_stock_refl. Qed.

Lemma Forall2_same_but_stock_trans ps qs rs :
  Forall2 same_but_stock ps qs -> Forall2 same_but_stock qs rs ->
  Forall2 same_but_stock ps rs.
Proof.
  intros H. revert rs. induction H as [|p q ps qs Hpq _ IH]; intros rs Hr.
  - inversion Hr. constructor.
  - inversion Hr as [|q' r qs' rs' Hqr Hrest]; subst. constructor.
    + eapply same_but_stock_trans; eassumption.
    + now apply IH.
Qed.

Lemma Forall2_same_but_stock_ids ps qs :
  Forall2 same_but_stock ps qs -> map product_id qs = map product_id ps.
Proof.
  induction 1 as [|p q ps qs Hpq _ IH]; [reflexivity|].
  simpl. destruct Hpq as [-> _]. now rewrite IH.
Qed.

Lemma next_product_id_fresh ps : ~ In (next_product_id ps) (map product_id ps).
Proof.
  intros H. apply in_map_iff in H as (p & Hid & Hin).
  apply lt_next_product_id in Hin. lia.
Qed.

Section UpsertInvariants.

Variables (pin nm cat : string) (new_mrp new_price : Q).
Variables (new_stock : option Z) (new_image : option string).

Hypothesis cat_fixed : in_fixed_cats cat = true.
Hypothesis price_le_mrp : (new_price <= new_mrp)%Q.
Hypothesis stock_nonneg : forall s, new_stock = Some s -> 0 <= s.

Lemma upsert_step_sane a0 ps ls :
  catalogue_sane ps ls ->
  catalogue_sane
    (fst (upsert_step pin nm cat new_mrp new_price new_stock new_image a0 ps ls))
    (snd (upsert_step pin nm cat new_mrp new_price new_stock new_image a0 ps ls)).
Proof.
  intros [Hps Hls]. unfold upsert_step.
  destruct (List.find (catalog_row (user_id a0) nm cat pin) ps) as [prod|];
    cbn [fst snd]; split.
  - destruct new_stock as [s|] eqn:Es; [|exact Hps].
    clear Hls. induction Hps as [|p ps' [Hc Hs] _ IH]; simpl; constructor;
      [|exact IH].
    destruct (bool_decide _); [|auto]. split; [exact Hc|]. cbn. now apply stock_nonneg.
  - unfold write_listing. apply map_Forall_insert_2; [exact price_le_mrp|exact Hls].
  - apply Forall_app. split; [exact Hps|]. constructor; [|constructor].
    cbn. split; [exact cat_fixed|]. destruct new_stock as [s|]; cbn; [auto|lia].
  - apply map_Forall_insert_2; [exact price_le_mrp|exact Hls].
Qed.

Lemma upsert_fold_sane anns st :
  catalogue_sane (fst st) (snd st) ->
  let st' := fold_left (fun st a0 =>
               upsert_step pin nm cat new_mrp new_price new_stock new_image a0
                 (fst st) (snd st)) anns st in
  catalogue_sane (fst st') (snd st').
Proof.
  revert st. induction anns as [|a0 rest IH]; intros st H; cbn [fold_left];
    [exact H|]. apply IH. now apply upsert_step_sane.
Qed.

End UpsertInvariants.

Lemma Qltb_false_le a b : Qltb a b = false -> (b <= a)%Q.
Proof.
  unfold Qltb. destruct (Qcompare a b) eqn:E; [| discriminate |]; intros _.
  - apply Qeq_alt in E. rewrite E. apply Qle_refl.
  - apply Qgt_alt in E. now apply Qlt_le_weak.
Qed.

(** X21.  The admin upsert keeps the catalogue sane and touches nothing
    else.  If every row has a catalogue category and a stock that is not
    negative, and no listing has a price above its marked price, the same
    holds after the request, whatever the request is; users and orders are
    never changed; and every answer but the success answer leaves the
    products and listings exactly as they were, the success answer being
    given only to the admin token. *)
Theorem admin_upsert_keeps_catalogue_sane token form db ls :
  catalogue_sane (products db) ls ->
  let '(resp, db', ls') := admin_catalog_upsert token form db ls in
  catalogue_sane (products db') ls' /\
  users db' = users db /\ orders db' = orders db /\
  match resp with
  | AdminUpserted _ => token = ADMIN_TOKEN
  | _ => db' = db /\ ls' = ls
  end.
Proof.
  intros Hsane. unfold admin_catalog_upsert.
  destruct (bool_decide (token = ADMIN_TOKEN)) eqn:Etok; cbn [negb]; [|now auto].
  apply bool_decide_eq_true in Etok.
  destruct (Py.truthy _ && Py.truthy _ && Py.truthy _); cbn [negb]; [|now auto].
  destruct (in_fixed_cats _) eqn:Ecat; cbn [negb]; [|now auto].
  destruct (up_mrp form) as [new_mrp|]; [|now auto].
  destruct (up_price form) as [new_price|]; [|now auto].
  destruct (Qltb new_mrp new_price) eqn:Elt; [now auto|].
  apply Qltb_false_le in Elt.
  destruct (match up_stock form with Some s => s <? 0 | None => false end) eqn:Est;
    [now auto|].
  assert (forall s, up_stock form = Some s -> 0 <= s) as Hst.
  { intros s Hs. rewrite Hs in Est. now apply Z.ltb_ge in Est. }
  unfold _admin_upsert_for_all_annachis_in_pin.
  destruct (List.filter _ (users db)) as [|a1 rest]; [now auto|].
  destruct (negb (storable (up_stock form))); [now auto|].
  rewrite upsert_loop_steps.
  pose proof (upsert_fold_sane (Py.strip (Py.str_or (up_pincode form) ""))
                (Py.strip (Py.str_or (up_name form) "")) _ _ _ _
                (image_or_none (up_image_url form))
                Ecat Elt Hst (a1 :: rest) (products db, ls) Hsane) as H.
  cbv zeta in H.
  destruct (fold_left _ (a1 :: rest) (products db, ls)) as [ps' ls'].
  cbn [fst snd products users orders] in *. auto.
Qed.

Section UpsertRows.

Variables (pin nm cat : string) (new_mrp new_price : Q).
Variables (new_stock : option Z) (new_image : option string).

Lemma upsert_step_rows a0 ps ls :
  NoDup (map product_id ps) ->
  let ps' := fst (upsert_step pin nm cat new_mrp new_price new_stock new_image a0 ps ls) in
  NoDup (map product_id ps') /\
  exists olds news, ps' = olds ++ news /\ Forall2 same_but_stock ps olds.
Proof.
  intros Hnd. unfold upsert_step.
  destruct (List.find (catalog_row (user_id a0) nm cat pin) ps) as [prod|];
    cbn [fst snd].
  - destruct new_stock as [s|].
    + assert (Forall2 same_but_stock ps
                (map (fun p => if bool_decide (product_id p = product_id prod)
                               then set_stock s p else p) ps)) as HF.
      { clear Hnd. induction ps as [|p ps' IH]; simpl; constructor; [|exact IH].
        destruct (bool_decide _); repeat split. }
      split.
      * now rewrite (Forall2_same_but_stock_ids _ _ HF).
      * eexists _, []. rewrite app_nil_r. split; [reflexivity|exact HF].
    + split; [exact Hnd|]. exists ps, []. rewrite app_nil_r.
      split; [reflexivity|apply Forall2_same_but_stock_refl].
  - split.
    + rewrite map_app. cbn [map product_id]. apply NoDup_app. split; [exact Hnd|].
      split; [|apply NoDup_singleton].
      intros x Hx Hx'. apply list_elem_of_singleton in Hx'. subst x.
      apply list_elem_of_In in Hx. now apply next_product_id_fresh in Hx.
    + eexists ps, _. split; [reflexivity|apply Forall2_same_but_stock_refl].
Qed.

Lemma upsert_fold_rows anns st :
  NoDup (map product_id (fst st)) ->
  let st' := fold_left (fun st a0 =>
               upsert_step pin nm cat new_mrp new_price new_stock new_image a0
                 (fst st) (snd st)) anns st in
  NoDup (map product_id (fst st')) /\
  exists olds news, fst st' = olds ++ news /\ Forall2 same_but_stock (fst st) olds.
Proof.
  revert st. induction anns as [|a0 rest IH]; intros st Hnd; cbn [fold_left].
  - split; [exact Hnd|]. exists (fst st), []. rewrite app_nil_r.
    split; [reflexivity|apply Forall2_same_but_stock_refl].
  - destruct (upsert_step_rows a0 (fst st) (snd st) Hnd) as (Hnd1 & o1 & n1 & E1 & F1).
    cbv zeta in Hnd1, E1.
    destruct (IH _ Hnd1) as (Hnd2 & o2 & n2 & E2 & F2). cbv zeta in Hnd2, E2.
    split; [exact Hnd2|]. rewrite E1 in F2.
    apply Forall2_app_inv_l in F2 as (o21 & o22 & F21 & _ & ->).
    exists o21, (o22 ++ n2). split; [now rewrite app_assoc|].
    eapply Forall2_same_but_stock_trans; eassumption.
Qed.

End UpsertRows.

(** X22.  The admin upsert never deletes or renames a row.  If product ids
    are unique before the request they are unique after it, and the product
    table afterwards is the old table, row for row with the same id, name,
    category, pincode, owner and sales counter (only stocks may differ),
    followed by the rows the request added. *)
Theorem admin_upsert_keeps_rows token form db ls :
  product_ids_unique db ->
  let db' := snd (fst (admin_catalog_upsert token form db ls)) in
  product_ids_unique db' /\
  exists olds news,
    products db' = olds ++ news /\ Forall2 same_but_stock (products db) olds.
Proof.
  intros Hnd. cbv zeta.
  assert (product_ids_unique db /\
          exists olds news, products db = olds ++ news /\
                            Forall2 same_but_stock (products db) olds) as Hsame.
  { split; [exact Hnd|]. exists (products db), []. rewrite app_nil_r.
    split; [reflexivity|apply Forall2_same_but_stock_refl]. }
  unfold admin_catalog_upsert.
  destruct (negb (bool_decide (token = ADMIN_TOKEN))); [exact Hsame|].
  destruct (negb (Py.truthy _ && Py.truthy _ && Py.truthy _)); [exact Hsame|].
  destruct (negb (in_fixed_cats _)); [exact Hsame|].
  destruct (up_mrp form) as [new_mrp|]; [|exact Hsame].
  destruct (up_price form) as [new_price|]; [|exact Hsame].
  destruct (Qltb new_mrp new_price); [exact Hsame|].
  destruct (match up_stock form with Some s => s <? 0 | None => false end);
    [exact Hsame|].
  unfold _admin_upsert_for_all_annachis_in_pin.
  destruct (List.filter _ (users db)) as [|a1 rest]; [exact Hsame|].
  destruct (negb (storable (up_stock form))); [exact Hsame|].
  rewrite upsert_loop_steps.
  pose proof (upsert_fold_rows (Py.strip (Py.str_or (up_pincode form) ""))
                (Py.strip (Py.str_or (up_name form) ""))
                (Py.lower (Py.strip (Py.str_or (up_category form) "")))
                new_mrp new_price (up_stock form)
                (image_or_none (up_image_url form)) (a1 :: rest) (products db, ls) Hnd)
    as H.
  cbv zeta in H.
  destruct (fold_left _ (a1 :: rest) (products db, ls)) as [ps' ls'].
  cbn [fst snd products] in *. exact H.
Qed.

(** ** The further properties on the sample store *)

Module MoreChecks.

Import Sample.

Lemma db0_product_ids : product_ids_unique db0.
Proof.
  unfold product_ids_unique. apply (bool_decide_unpack _). vm_compute. exact I.
Qed.

Lemma db0_stocks : stocks_nonneg (products db0).
Proof. repeat constructor; simpl; lia. Qed.

Lemma db0_integrity : referential_integrity db0.
Proof. intros o []. Qed.

Lemma db_mixed_order_ids : order_ids_unique db_mixed.
Proof.
  unfold order_ids_unique. apply (bool_decide_unpack _). vm_compute. exact I.
Qed.

(** Without coordinates and with pincode 600002, [shop2] is returned. *)
Lemma select_without_gps_witness :
  exists chosen,
    select_best_annachi grid_km (users db0) (Some "600002"%string) None None
      = (Some chosen, None) /\
    In chosen (preferred_pool (users db0) (Some "600002"%string)) /\
    forall y, In y (preferred_pool (users db0) (Some "600002"%string)) ->
              user_id chosen <= user_id y.
Proof.
  apply (select_without_gps grid_km (users db0) (Some "600002"%string) None None).
  - left. reflexivity.
  - vm_compute. discriminate.
Defined.

(** A consumer at the door of [shop1], asking for its pincode. *)
Lemma select_nearest_in_pool_witness :
  exists chosen dist,
    select_best_annachi grid_km (users db0) (Some "600001"%string)
      (Some 13%Q) (Some 80%Q) = (Some chosen, dist) /\
    In chosen (preferred_pool (users db0) (Some "600001"%string)) /\
    out_of_radius grid_km (Some 13%Q) (Some 80%Q) chosen = false /\
    forall y, In y (preferred_pool (users db0) (Some "600001"%string)) ->
              out_of_radius grid_km (Some 13%Q) (Some 80%Q) y = false ->
              nearer_or_same grid_km (Some 13%Q) (Some 80%Q) chosen y.
Proof.
  apply (select_nearest_in_pool grid_km (users db0) (Some "600001"%string)
           13%Q 80%Q shop1).
  - vm_compute. left. reflexivity.
  - vm_compute. reflexivity.
Defined.

(** A consumer at the door of [shop2], asking for the pincode of [shop1],
    which is 55 km away. *)
Lemma select_fallback_nearest_witness :
  exists chosen,
    select_best_annachi grid_km (users db0) (Some "600001"%string)
      (Some (27 # 2)%Q) (Some 80%Q)
      = (Some chosen,
         Some (Py.round3 (_distance_km grid_km (Some (27 # 2)%Q) (Some 80%Q) chosen))) /\
    In chosen (List.filter is_annachi (users db0)) /\
    in_range grid_km (Some (27 # 2)%Q) (Some 80%Q) chosen = true /\
    forall y, In y (List.filter is_annachi (users db0)) ->
              in_range grid_km (Some (27 # 2)%Q) (Some 80%Q) y = true ->
              nearer_or_same grid_km (Some (27 # 2)%Q) (Some 80%Q) chosen y.
Proof.
  apply (select_fallback_nearest grid_km (users db0) (Some "600001"%string)
           (27 # 2)%Q 80%Q shop2).
  - intros y Hy. vm_compute in Hy. destruct Hy as [<-|[]]. vm_compute. reflexivity.
  - vm_compute. right. left. reflexivity.
  - vm_compute. reflexivity.
Defined.

(** A consumer seven degrees to the north of both shops. *)
Lemma select_nobody_in_range_witness :
  exists chosen,
    select_best_annachi grid_km (users db0) (Some "600001"%string)
      (Some 20%Q) (Some 80%Q)
      = (Some chosen,
         Some (Py.round3 (_distance_km grid_km (Some 20%Q) (Some 80%Q) chosen))) /\
    In chosen (preferred_pool (users db0) (Some "600001"%string)) /\
    forall y, In y (preferred_pool (users db0) (Some "600001"%string)) ->
              user_id chosen <= user_id y.
Proof.
  apply (select_nobody_in_range grid_km (users db0) (Some "600001"%string) 20%Q 80%Q).
  - vm_compute. discriminate.
  - intros y Hy. vm_compute in Hy. destruct Hy as [<-|[]]. vm_compute. reflexivity.
  - intros a Ha. vm_compute in Ha. destruct Ha as [<-|[<-|[]]]; vm_compute; reflexivity.
Defined.

Lemma order_ids_stay_unique_witness :
  order_ids_unique
    (snd (fst (orders_create_auto grid_km alice t0 true [rice1; tomato1] near_shop1
                 db_mixed))) /\
  order_ids_unique
    (snd (fst (orders_create alice t0 [mkCartItem 10 None] db_mixed))).
Proof.
  destruct (order_ids_stay_unique grid_km parse_id alice t0 db_mixed db_mixed_order_ids)
    as (Hauto & Hlegacy & _).
  split; [apply Hauto|apply Hlegacy].
Defined.

Lemma legacy_routes_never_oversell_witness :
  stocks_nonneg
    (products (snd (fst (orders_create alice t0
                           [mkCartItem 10 (Some 5); mkCartItem 10 (Some 1)] db0)))) /\
  stocks_nonneg
    (products (snd (fst (api_create_order alice t0 (Some 11) (Some 2) db0)))).
Proof.
  destruct (legacy_routes_never_oversell alice t0 db0 db0_product_ids db0_stocks)
    as [Hcart Hone].
  split; [apply Hcart|apply Hone].
Defined.

Lemma auto_distinct_lines_never_oversell_witness :
  stocks_nonneg
    (products (snd (fst (orders_create_auto grid_km alice t0 true [rice1; tomato1]
                           near_shop1 db0)))).
Proof.
  apply (auto_distinct_lines_never_oversell grid_km alice t0 true [rice1; tomato1]
           near_shop1 db0 db0_product_ids db0_stocks).
  apply (bool_decide_unpack _). vm_compute. exact I.
Defined.

Lemma auto_bundle_consistent_witness :
  (exists ann, In ann (users db0) /\ role ann = "annachi"%string /\ user_id ann = 1) /\
  exists created,
    orders (snd (fst (orders_create_auto grid_km alice t0 true [rice1; tomato1]
                        near_shop1 db0))) = orders db0 ++ created /\
    [1; 2] = map order_id created /\
    Forall (fun o => bundle_id o = Some "1700000000123-7-A1"%string) created /\
    Forall (auto_line 1 (products db0)) created.
Proof.
  apply (auto_bundle_consistent grid_km alice t0 true [rice1; tomato1] near_shop1 db0
           [1; 2] "1700000000123-7-A1" 1 (Some (0 # 1000)%Q)).
  vm_compute. reflexivity.
Defined.

(** [shop2] asks for bundle b1 of the mixed store. *)
Lemma status_update_guarded_witness :
  let res := annachi_orders_update parse_id shop2 "BUNDLE_b1" (Some "Packed"%string)
               db_mixed in
  users (snd (fst res)) = users db_mixed /\
  products (snd (fst res)) = products db_mixed /\
  Forall2 (fun o o' =>
             o' = o \/
             (role shop2 = "annachi"%string /\
              row_authorized (user_id shop2) (products db_mixed) o = true /\
              exists st, Some "Packed"%string = Some st /\ st <> ""%string /\
                         o' = set_status st o))
          (orders db_mixed) (orders (snd (fst res))).
Proof.
  apply (status_update_guarded parse_id shop2 "BUNDLE_b1" (Some "Packed"%string)
           db_mixed db_mixed_order_ids).
Defined.

Lemma placed_bundle_can_be_packed_witness :
  let db1 := snd (fst (orders_create_auto grid_km alice t0 true [rice1; tomato1]
                         near_shop1 db0)) in
  let res := annachi_orders_update parse_id shop1
               ("BUNDLE_" +:+ "1700000000123-7-A1") (Some "Packed"%string) db1 in
  fst (fst res) = BundleUpdated "1700000000123-7-A1" "Packed" /\
  exists created,
    created <> [] /\ orders db1 = orders db0 ++ created /\
    [1; 2] = map order_id created /\
    Forall (fun o => In (set_status "Packed" o) (orders (snd (fst res)))) created.
Proof.
  apply (placed_bundle_can_be_packed grid_km parse_id alice t0 true [rice1; tomato1]
           near_shop1 db0 [1; 2] "1700000000123-7-A1" 1 (Some (0 # 1000)%Q) shop1
           "Packed" db0_integrity).
  - vm_compute. reflexivity.
  - reflexivity.
  - reflexivity.
  - reflexivity.
Defined.

Lemma core_keeps_integrity_witness :
  referential_integrity
    (snd (fst (orders_create_auto grid_km alice t0 true [rice1; tomato1] near_shop1
                 db_mixed))) /\
  referential_integrity
    (snd (fst (annachi_orders_update parse_id shop1 "1" (Some "Packed"%string)
                 db_mixed))).
Proof.
  destruct (core_keeps_integrity grid_km parse_id alice t0 db_mixed
              Checks.db_mixed_integrity) as (Hauto & _ & _ & _).
  destruct (core_keeps_integrity grid_km parse_id shop1 t0 db_mixed
              Checks.db_mixed_integrity) as (_ & _ & _ & Hupd).
  split; [apply Hauto|apply Hupd].
Defined.

(** Two placements by the same consumer in the same millisecond. *)
Lemma auto_bundle_id_identifies_witness :
  (auto_bundle_id t0 7 1 = auto_bundle_id t0 7 2 -> t0 = t0 /\ 7 = 7 /\ 1 = 2) /\
  auto_bundle_id t0 7 1 <> legacy_bundle_id t0 7 /\
  auto_bundle_id t0 7 1 <> single_bundle_id t0 7.
Proof.
  apply (auto_bundle_id_identifies t0 7 1 t0 7 2);
    unfold t0; lia.
Defined.

(** [shop2] tries to set the stock of the rice of [shop1]. *)
Lemma annachi_edit_guarded_witness :
  let res := annachi_edit parse_id shop2 10 (Some "7"%string) db0 in
  users (snd res) = users db0 /\ orders (snd res) = orders db0 /\
  Forall2 (fun p p' =>
             p' = p \/
             (role shop2 = "annachi"%string /\
              owner_id p = user_id shop2 /\ product_id p = 10 /\
              exists n, Some "7"%string ≫= parse_id = Some n /\ 0 <= n /\
                        p' = set_stock n p))
          (products db0) (products (snd res)).
Proof.
  apply (annachi_edit_guarded parse_id shop2 10 (Some "7"%string) db0 db0_product_ids).
Defined.

(** Wheat for pincode 600001, with a seed stock of 20, and with a seed
    stock of 2**63. *)
Lemma upsert_reaches_every_annachi_witness :
  (exists ps' ls',
    _admin_upsert_for_all_annachis_in_pin "600001" "Wheat" "cereals" 60 50 (Some 20)
      None (users db0) (products db0) ∅
    = (UpsertOk (Z.of_nat (length (List.filter (annachi_in_pin "600001") (users db0)))),
       ps', ls') /\
    upserted "600001" "Wheat" "cereals" 60 50 (Some 20) ps' ls' shop1 /\
    forall s qty, Some 20 = Some s -> qty <= s ->
                  available shop1 ps' (mkItem "Wheat" "cereals" qty) = true) /\
  _admin_upsert_for_all_annachis_in_pin "600001" "Wheat" "cereals" 60 50
    (Some (2 ^ 63)) None (users db0) (products db0) ∅
  = (UpsertRaised, products db0, ∅).
Proof.
  split.
  - apply (upsert_reaches_every_annachi "600001" "Wheat" "cereals" 60 50 (Some 20) None
             (users db0) (products db0) ∅ shop1).
    + simpl. left. reflexivity.
    + reflexivity.
    + reflexivity.
  - apply (upsert_reaches_every_annachi "600001" "Wheat" "cereals" 60 50
             (Some (2 ^ 63)) None (users db0) (products db0) ∅ shop1).
    + simpl. left. reflexivity.
    + reflexivity.
    + reflexivity.
Defined.

Lemma db0_sane : catalogue_sane (products db0) ∅.
Proof.
  split; [|apply map_Forall_empty].
  repeat constructor; solve [vm_compute; reflexivity | simpl; lia].
Qed.

(** A new price for the rice of pincode 600001. *)
Lemma admin_upsert_keeps_catalogue_sane_witness :
  let form := mkUpsertForm (Some " Rice "%string) (Some "Cereals"%string)
                (Some "600001"%string) (Some 60%Q) (Some 50%Q) None None in
  let '(resp, db', ls') := admin_catalog_upsert ADMIN_TOKEN form db0 ∅ in
  catalogue_sane (products db') ls' /\
  users db' = users db0 /\ orders db' = orders db0 /\
  match resp with
  | AdminUpserted _ => ADMIN_TOKEN = ADMIN_TOKEN
  | _ => db' = db0 /\ ls' = ∅
  end.
Proof.
  intros form.
  apply (admin_upsert_keeps_catalogue_sane ADMIN_TOKEN form db0 ∅ db0_sane).
Defined.

Lemma admin_upsert_keeps_rows_witness :
  let form := mkUpsertForm (Some "Wheat"%string) (Some "cereals"%string)
                (Some "600001"%string) (Some 60%Q) (Some 50%Q) (Some 20) None in
  let db' := snd (fst (admin_catalog_upsert ADMIN_TOKEN form db0 ∅)) in
  product_ids_unique db' /\
  exists olds news,
    products db' = olds ++ news /\ Forall2 same_but_stock (products db0) olds.
Proof.
  intros form.
  apply (admin_upsert_keeps_rows ADMIN_TOKEN form db0 ∅ db0_product_ids).
Defined.

End MoreChecks.
